(** * Claude Dashboard plugin (src/main.js): a shallow embedding

    The development follows the layout of [src/main.js]:
    - JavaScript strings and the ANSI constants ([ansi], [colors]);
    - the text helpers that measure a string without its SGR escapes
      ([centerText], [padRight], [truncate]);
    - the widgets ([colorForPercent], [progressBar], [formatPercent],
      [formatDuration], [formatResetTime]);
    - [render], with [drawBox] and [drawSeparator];
    - [main]: the view state, [refresh], the timer and the stdin handler, as
      a transition system over the events of the Node event loop;
    - [formatTokens], the size of the terminal at the start, and the reading
      of the credentials and of the configuration, each on its own.

    Conventions of the embedding.
    - A JavaScript string is the list of its UTF-16 code units, so that
      [List.length] is the [.length] of the source.
    - Integer-valued numbers (column counts, millisecond time stamps, cell
      counts) are [Z]: below 2^53 the binary64 operations the source applies
      to them ([+], [-], [Math.floor] of a quotient) are exact.
    - Other finite numbers (a percentage) are given by their exact value in
      [Q]; the two operators of the source that round, [/] and [*] in
      [progressBar], are followed by [fl], rounding to the nearest binary64.
      A number read from JSON can also be one of the two infinities
      ([Number]); a date is its time value or no date at all ([DateTime]).
    - A call that can throw returns a [result]. The exceptions the modelled
      code raises by itself are the RangeErrors of [String.prototype.repeat]
      on a negative or infinite count and of a string that would be longer
      than the engine allows ([MAX_STRING_LENGTH]). The length matters where
      it is given by a number that the panel does not bound: [repeatUnit]
      checks its count, and [progressBar] and [padRight] check their
      concatenations. [spaces], the padding of [centerText] and of the rows
      of [drawBox], stands for [repeat] on a count up to that length (in
      [render], up to 72), and elsewhere [++] stands for [+]: the texts of
      the panel are a few hundred units long.
    - The collaborators ([getCredentials], [fetchUsageLimits], [loadConfig],
      [getEffortLevel], [Date.now]) are inputs: their results come with the
      events of the event loop; [JSON.parse] is a parameter of the
      transition system. A rejected promise that nobody handles ends the
      process, as Node does since version 15. *)

From Equations Require Import Equations.
From Stdlib Require Import String Ascii DecimalString.
From Stdlib Require Import ZArith NArith QArith Qround Qabs List Lia Bool.
From Stdlib Require Import Floats Qpower.
From Stdlib Require DecimalPos DecimalZ.
Import ListNotations.
Open Scope Z_scope.

(* ================================================================== *)
(** * JavaScript strings *)
(* ================================================================== *)

(** A string is a sequence of UTF-16 code units. *)
Definition jsstring := list N.

(** An ASCII literal of the source. *)
Definition lit (s : String.string) : jsstring :=
  map N_of_ascii (list_ascii_of_string s).

Definition jsstring_eqb (a b : jsstring) : bool :=
  if list_eq_dec N.eq_dec a b then true else false.

(** [String(n)] for an integer [n] below 10^21 in absolute value, where
    JavaScript writes a number without an exponent: its decimal digits. *)
Definition string_of_Z (n : Z) : jsstring :=
  lit (NilEmpty.string_of_int (Z.to_int n)).

(** [s.length] *)
Definition jslength (s : jsstring) : Z := Z.of_nat (length s).

(** [s.startsWith(p)] *)
Fixpoint startsWith (p s : jsstring) : bool :=
  match p, s with
  | [], _ => true
  | a :: p', b :: s' => (a =? b)%N && startsWith p' s'
  | _ :: _, [] => false
  end.

(** [s.substring(0, e)] for an integer [e]: a negative end counts as 0 and
    an end past the string as its length. *)
Definition substring0 (s : jsstring) (e : Z) : jsstring :=
  firstn (Z.to_nat (Z.max 0 e)) s.

(** [s.slice(n)] for a constant [n >= 0]. *)
Definition slice_from (n : nat) (s : jsstring) : jsstring := skipn n s.

(** Exceptions, all of them RangeErrors of the engine: [RangeError n] is
    the error of [repeat] on the negative count [n], [InfiniteCount] that
    of [repeat] on an infinite count, [InvalidStringLength] that of a
    string that would be longer than [MAX_STRING_LENGTH]. *)
Inductive exn : Type :=
| RangeError (count : Z)
| InfiniteCount (negative : bool)
| InvalidStringLength.

Inductive result (A : Type) : Type :=
| Ok (a : A)
| Throw (e : exn).
Arguments Ok {A} a.
Arguments Throw {A} e.

Definition bind {A B} (r : result A) (k : A -> result B) : result B :=
  match r with
  | Ok a => k a
  | Throw e => Throw e
  end.

Notation "x <- r ;; k" := (bind r (fun x => k))
  (at level 61, r at next level, right associativity).

(** The text V8 puts in [e.message] for that error. *)
Definition message (e : exn) : jsstring :=
  match e with
  | RangeError n => lit "Invalid count value: " ++ string_of_Z n
  | InfiniteCount false => lit "Invalid count value: Infinity"
  | InfiniteCount true => lit "Invalid count value: -Infinity"
  | InvalidStringLength => lit "Invalid string length"
  end.

(** The longest string of the engine, in code units: 2^29 - 24, the
    [String::kMaxLength] of V8 on a 64-bit platform. *)
Definition MAX_STRING_LENGTH : Z := 536870888.

(** [' '.repeat(n)] for a count the source has already made non-negative
    ([Math.max(0, _)]) and that is no more than [MAX_STRING_LENGTH]: in
    [render] the count is at most the width of the panel, 72. *)
Definition spaces (n : Z) : jsstring := repeat 32%N (Z.to_nat n).

(** [c.repeat(n)] for a one-unit string [c] and an integer count: a negative
    count throws, and so does a count that is more than the longest
    string. *)
Definition repeatUnit (c : N) (n : Z) : result jsstring :=
  if n <? 0 then Throw (RangeError n)
  else if MAX_STRING_LENGTH <? n then Throw InvalidStringLength
  else Ok (repeat c (Z.to_nat n)).

(** [a + b] on two strings, where the length of the result is not bounded
    by the panel. *)
Definition strcat (a b : jsstring) : result jsstring :=
  if MAX_STRING_LENGTH <? jslength a + jslength b
  then Throw InvalidStringLength
  else Ok (a ++ b).

(* ================================================================== *)
(** * ANSI helpers (lines 24-54) *)
(* ================================================================== *)

Definition ESC : jsstring := [27%N].
Definition CSI : jsstring := ESC ++ lit "[".

Module ansi.
Definition clear : jsstring := CSI ++ lit "2J" ++ CSI ++ lit "H".
Definition hideCursor : jsstring := CSI ++ lit "?25l".
Definition showCursor : jsstring := CSI ++ lit "?25h".
Definition reset : jsstring := CSI ++ lit "0m".
Definition bold : jsstring := CSI ++ lit "1m".
Definition dim : jsstring := CSI ++ lit "2m".
Definition fg (r g b : Z) : jsstring :=
    CSI ++ lit "38;2;" ++ string_of_Z r ++ lit ";" ++ string_of_Z g
        ++ lit ";" ++ string_of_Z b ++ lit "m".
Definition bg (r g b : Z) : jsstring :=
    CSI ++ lit "48;2;" ++ string_of_Z r ++ lit ";" ++ string_of_Z g
        ++ lit ";" ++ string_of_Z b ++ lit "m".
Definition moveTo (row col : Z) : jsstring :=
    CSI ++ string_of_Z row ++ lit ";" ++ string_of_Z col ++ lit "H".
End ansi.

Module colors.
Definition bg := ansi.bg 30 16 12.
Definition title := ansi.fg 215 105 70.
Definition label := ansi.fg 180 180 200.
Definition value := ansi.fg 255 255 255.
Definition dim := ansi.fg 120 100 95.
Definition green := ansi.fg 120 220 150.
Definition yellow := ansi.fg 230 200 100.
Definition red := ansi.fg 230 110 110.
Definition border := ansi.fg 100 55 45.
Definition separator := ansi.fg 75 45 38.
End colors.

(* ================================================================== *)
(** * Text metrics (lines 211-229) *)
(* ================================================================== *)

(** The character class [[0-9;]]. *)
Definition isParam (c : N) : bool :=
  ((48 <=? c) && (c <=? 57) || (c =? 59))%N.

(** The greedy [[0-9;]*]: what is left after the longest run. *)
Fixpoint dropParams (s : jsstring) : jsstring :=
  match s with
  | c :: r => if isParam c then dropParams r else s
  | [] => []
  end.

(** One attempt of the regular expression [/\x1b\[[0-9;]*m/] at the head of
    [s]: the rest of [s] after the match. The run of parameters is greedy,
    and giving characters back cannot help: the character after a shorter
    run is a parameter, never the final [m]. *)
Definition matchSGR (s : jsstring) : option jsstring :=
  match s with
  | e :: b :: r =>
      if ((e =? 27) && (b =? 91))%N then
        match dropParams r with
        | m :: rest => if (m =? 109)%N then Some rest else None
        | [] => None
        end
      else None
  | _ => None
  end.

Lemma dropParams_length s : (length (dropParams s) <= length s)%nat.
Proof.
  induction s as [|c r IH]; simpl; [lia|].
  destruct (isParam c); simpl; lia.
Qed.

Lemma matchSGR_length s rest :
  matchSGR s = Some rest -> (length rest < length s)%nat.
Proof.
  destruct s as [|e [|b r]]; simpl; try discriminate.
  destruct ((e =? 27) && (b =? 91))%N; try discriminate.
  pose proof (dropParams_length r) as H.
  destruct (dropParams r) as [|m rest']; try discriminate.
  destruct (m =? 109)%N; try discriminate.
  intros [= <-]. simpl in H. lia.
Qed.

Definition inspect {A} (a : A) : {b | a = b} := exist _ a eq_refl.

(** [text.replace(/\x1b\[[0-9;]*m/g, '')]: scanning from the left, a match
    at the current position is dropped and the scan resumes after it;
    otherwise the character is kept and the scan moves one position on. *)
Equations? stripAnsi (s : jsstring) : jsstring by wf (length s) lt :=
  stripAnsi [] := [];
  stripAnsi (c :: r) with inspect (matchSGR (c :: r)) := {
    | exist _ (Some rest) H := stripAnsi rest;
    | exist _ None _ := c :: stripAnsi r }.
Proof. apply matchSGR_length in H. simpl in H. lia. Qed.

(** [plain.length], the width every helper computes inline. *)
Definition displayWidth (s : jsstring) : Z := jslength (stripAnsi s).

Definition centerText (text : jsstring) (width : Z) : jsstring :=
  let plain := stripAnsi text in
  let pad := Z.max 0 ((width - jslength plain) / 2) in
  spaces pad ++ text.

Definition padRight (text : jsstring) (width : Z) : result jsstring :=
  let plain := stripAnsi text in
  let pad := Z.max 0 (width - jslength plain) in
  filler <- repeatUnit 32%N pad ;;
  strcat text filler.

Definition truncate (text : jsstring) (maxLen : Z) : jsstring :=
  let plain := stripAnsi text in
  if jslength plain <=? maxLen then text
  else substring0 text (maxLen - 3) ++ lit "...".

(* ================================================================== *)
(** * Numbers *)
(* ================================================================== *)

Open Scope Q_scope.

(** [Math.round(x)]: the integer nearest to [x], a tie going up. *)
Definition Math_round (x : Q) : Z := Qfloor (x + (1 # 2)).

(** 2^k for an integer exponent of either sign. *)
Definition pow2 (k : Z) : Q :=
  if (0 <=? k)%Z then inject_Z (2 ^ k) else 1 # Z.to_pos (2 ^ (- k)).

(** floor (log2 a) for a positive rational [a]. *)
Definition ilog2 (a : Q) : Z :=
  let e0 := (Z.log2 (Qnum a) - Z.log2 (Zpos (Qden a)))%Z in
  if Qle_bool (pow2 e0) a then e0 else (e0 - 1)%Z.

(** Rounding to the nearest integer, a tie going to the even one. *)
Definition roundHalfEven (y : Q) : Z :=
  let f := Qfloor y in
  match Qcompare (y - inject_Z f) (1 # 2) with
  | Lt => f
  | Gt => (f + 1)%Z
  | Eq => if Z.even f then f else (f + 1)%Z
  end.

(** [fl x]: the binary64 number nearest to [x] (53 significant bits, the
    least exponent that of the subnormal numbers, ties to even). Overflow
    to an infinity is not modelled: the quotients and products the program
    rounds are smaller than their finite operands. *)
Definition fl (x : Q) : Q :=
  if Qeq_bool x 0 then 0
  else
    let a := Qabs x in
    let k := Z.max (ilog2 a - 52) (-1074) in
    let m := roundHalfEven (a / pow2 k) in
    (if Qle_bool 0 x then 1 else -1) * (inject_Z m * pow2 k).

(** The operators [/] and [*] of the source on numbers. *)
Definition js_div (a b : Q) : Q := fl (a / b).
Definition js_mul (a b : Q) : Q := fl (a * b).

(** The exact value of a finite primitive float, to compare [fl] with the
    float arithmetic of the kernel. *)
Definition Q_of_float (f : float) : option Q :=
  match Prim2SF f with
  | S754_zero _ => Some 0
  | S754_finite s m e =>
      Some ((if s then -1 else 1) * (inject_Z (Zpos m) * pow2 e))
  | _ => None
  end.

Definition float_of_Z (n : Z) : float := PrimFloat.of_uint63 (Uint63.of_Z n).

(** The source expression [(percent / 100) * width] on primitive floats. *)
Definition float_fraction (percent width : Z) : float :=
  PrimFloat.mul (PrimFloat.div (float_of_Z percent) (float_of_Z 100))
                (float_of_Z width).

Definition agrees_with_binary64 (percent width : Z) : bool :=
  match Q_of_float (float_fraction percent width) with
  | Some q =>
      Qeq_bool q (js_mul (js_div (inject_Z percent) 100) (inject_Z width))
  | None => false
  end.

Close Scope Q_scope.

(* ================================================================== *)
(** * Widgets (lines 56-60 and 160-197) *)
(* ================================================================== *)

Definition colorForPercent (pct : Q) : jsstring :=
  if Qle_bool pct 50 then colors.green
  else if Qle_bool pct 80 then colors.yellow
  else colors.red.

(** The two block characters of the bar. *)
Definition FULL_BLOCK : N := 9608%N.   (* U+2588 *)
Definition LIGHT_SHADE : N := 9617%N.  (* U+2591 *)

(** The number of filled cells [progressBar] computes. *)
Definition filledCells (percent : Q) (width : Z) : Z :=
  Math_round (js_mul (js_div percent 100) (inject_Z width)).

(** Line 164 is evaluated from the left: the first [repeat], the two
    concatenations before the second [repeat], then the last two. *)
Definition progressBar (percent : Q) (width : Z) : result jsstring :=
  let filled := filledCells percent width in
  let empty := width - filled in
  let color := colorForPercent percent in
  f <- repeatUnit FULL_BLOCK filled ;;
  s1 <- strcat color f ;;
  s2 <- strcat s1 colors.dim ;;
  e <- repeatUnit LIGHT_SHADE empty ;;
  s3 <- strcat s2 e ;;
  strcat s3 ansi.reset.

(** [x.toFixed(0)] *)
Definition toFixed0 (x : Q) : jsstring :=
  if Qle_bool 0 x then string_of_Z (Qfloor (x + (1 # 2)))
  else lit "-" ++ string_of_Z (Qfloor (- x + (1 # 2))).

Definition formatPercent (pct : Q) : jsstring :=
  let color := colorForPercent pct in
  color ++ toFixed0 pct ++ lit "%" ++ ansi.reset.

(** The three quantities [formatDuration] derives from its argument; [%]
    is the truncating remainder of JavaScript. *)
Definition totalSecOf (ms : Z) : Z := ms / 1000.
Definition hoursOf (ms : Z) : Z := totalSecOf ms / 3600.
Definition minutesOf (ms : Z) : Z := Z.rem (totalSecOf ms) 3600 / 60.

Definition formatDuration (ms : Z) : jsstring :=
  let hours := hoursOf ms in
  let minutes := minutesOf ms in
  if 0 <? hours then
    string_of_Z hours ++ lit "h"
      ++ (if 0 <? minutes then string_of_Z minutes ++ lit "m" else [])
  else string_of_Z minutes ++ lit "m".

(** What [new Date(resetAt).getTime()] gives for a reset time: the time
    value of the date in milliseconds, an integer of at most 8.64e15 in
    absolute value, or NaN for a text that is no date and for a number out
    of that range. *)
Inductive DateTime :=
| TimeValue (ms : Z)
| InvalidDate.

(** [resetAt] is the reset time of the window, [None] when the field is
    absent or falsy; [now] is [Date.now()]. With NaN for [resetMs] the test
    of line 192 and that of line 183 are both false, and line 184 prints
    the NaN that [Math.floor] hands on. *)
Definition formatResetTime (now : Z) (resetAt : option DateTime) : jsstring :=
  match resetAt with
  | None => []
  | Some InvalidDate => lit "NaNm"
  | Some (TimeValue resetMs) =>
      let remainMs := resetMs - now in
      if remainMs <=? 0 then lit "now" else formatDuration remainMs
  end.

(* ================================================================== *)
(** * The view state and render (lines 231-381, 397-406) *)
(* ================================================================== *)

(** A number as [JSON.parse] gives it: a finite binary64 number, by its
    exact value, or an infinity, which a literal beyond the range of
    binary64 (1e999) is read as. *)
Inductive Number :=
| Finite (x : Q)
| PlusInfinity
| MinusInfinity.

Record UsageWindow := {
  utilization : Number;
  resets_at : option DateTime
}.

(** What [fetchUsageLimits] returns on success: each window or [null]. *)
Record Metrics := {
  five_hour : option UsageWindow;
  seven_day : option UsageWindow;
  seven_day_sonnet : option UsageWindow
}.

Inductive Plan := PlanMax | PlanOther.
Inductive DisplayMode := compact | normal | detailed.
Inductive Effort := high | medium | low | otherEffort.

Record Config := {
  plan : Plan;
  displayMode : DisplayMode
}.

Record State := {
  loading : bool;
  error : option jsstring;
  data : option Metrics;
  config : Config;
  effort : Effort;
  startTime : Z;
  lastRefresh : option Z;
  refreshCount : Z
}.

(** Truthiness of a string-or-null and of a number-or-null. *)
Definition truthyStr (s : option jsstring) : bool :=
  match s with
  | Some (_ :: _) => true
  | _ => false
  end.

Definition truthyNum (n : option Z) : bool :=
  match n with
  | Some t => negb (t =? 0)
  | None => false
  end.

Definition BOX_H : N := 9472%N.   (* U+2500 *)
Definition BOX_V : N := 9474%N.   (* U+2502 *)
Definition BOX_TL : N := 9484%N.  (* U+250C *)
Definition BOX_TR : N := 9488%N.  (* U+2510 *)
Definition BOX_BL : N := 9492%N.  (* U+2514 *)
Definition BOX_BR : N := 9496%N.  (* U+2518 *)

Definition boxRow (width : Z) (line : jsstring) : jsstring :=
  let plain := stripAnsi line in
  let pad := Z.max 0 (width - 2 - jslength plain) in
  colors.border ++ [BOX_V] ++ ansi.reset ++ lit " " ++ line
    ++ spaces (if 0 <? pad then pad - 1 else 0)
    ++ colors.border ++ [BOX_V] ++ ansi.reset.

Definition drawBox (lines : list jsstring) (width : Z)
  : result (list jsstring) :=
  top <- repeatUnit BOX_H (width - 2) ;;
  bot <- repeatUnit BOX_H (width - 2) ;;
  let topBorder := colors.border ++ [BOX_TL] ++ top ++ [BOX_TR] ++ ansi.reset in
  let botBorder := colors.border ++ [BOX_BL] ++ bot ++ [BOX_BR] ++ ansi.reset in
  Ok ([topBorder] ++ map (boxRow width) lines ++ [botBorder]).

Definition drawSeparator (width : Z) : result jsstring :=
  r <- repeatUnit BOX_H (width - 2) ;;
  Ok (colors.separator ++ r ++ ansi.reset).

(** One line of the Rate Limits section (lines 287-293, and the same for
    the other two windows). [Math.round] and the arithmetic of line 161
    keep an infinity, so that the first [repeat] of [progressBar] gets an
    infinite count and throws. *)
Definition windowLine (label : jsstring) (now : Z) (w : UsageWindow)
  : result jsstring :=
  let reset := formatResetTime now (resets_at w) in
  match utilization w with
  | Finite u =>
      let pct := Math_round u in
      bar <- progressBar (inject_Z pct) 25 ;;
      Ok (lit "  " ++ colors.label ++ label ++ ansi.reset
            ++ bar ++ lit "  " ++ formatPercent (inject_Z pct)
            ++ (match reset with
                | [] => []
                | _ => colors.dim ++ lit "  (" ++ reset ++ lit ")" ++ ansi.reset
                end))
  | PlusInfinity => Throw (InfiniteCount false)
  | MinusInfinity => Throw (InfiniteCount true)
  end.

(** [if (w) lines.push(windowLine ...)] *)
Definition pushWindow (label : jsstring) (now : Z) (w : option UsageWindow)
  : result (list jsstring) :=
  match w with
  | Some u => l <- windowLine label now u ;; Ok [l]
  | None => Ok []
  end.

Definition LABEL_5H : jsstring := lit "5h   ".
Definition LABEL_7D : jsstring := lit "7d   ".
Definition LABEL_7DS : jsstring := lit "7d-S ".

Definition noDataLine : jsstring :=
  lit "  " ++ colors.dim ++ lit "No rate limit data available" ++ ansi.reset.

Definition isSome {A} (o : option A) : bool :=
  match o with Some _ => true | None => false end.

(** Lines 284-324: the body of the Rate Limits section. *)
Definition rateLimitLines (now : Z) (data : option Metrics)
  : result (list jsstring) :=
  match data with
  | Some d =>
      l5 <- pushWindow LABEL_5H now (five_hour d) ;;
      l7 <- pushWindow LABEL_7D now (seven_day d) ;;
      ls <- pushWindow LABEL_7DS now (seven_day_sonnet d) ;;
      Ok (l5 ++ l7 ++ ls
            ++ (if negb (isSome (five_hour d)) && negb (isSome (seven_day d))
                   && negb (isSome (seven_day_sonnet d))
                then [noDataLine] else []))
  | None =>
      Ok [ lit "  " ++ colors.yellow ++ lit "Failed to fetch rate limits"
             ++ ansi.reset;
           lit "  " ++ colors.dim ++ lit "Check ~/.claude/.credentials.json"
             ++ ansi.reset ]
  end.

Definition titleLine (width : Z) : jsstring :=
  centerText (colors.title ++ ansi.bold ++ lit " Claude Dashboard "
                ++ ansi.reset ++ colors.dim ++ lit "v1.0.1" ++ ansi.reset)
             width.

(** [effortMap[state.effort] || 'H']. [otherEffort] is a level that names
    no property of an object: for the name of a property every object
    inherits ([constructor], say) the lookup finds that property. *)
Definition effortLabel (e : Effort) : jsstring :=
  match e with
  | high => lit "H"
  | medium => lit "M"
  | low => lit "L"
  | otherEffort => lit "H"
  end.

Definition modelLine (e : Effort) : jsstring :=
  lit "  " ++ colors.label ++ lit "Model: " ++ ansi.reset
    ++ colors.value ++ ansi.bold
    ++ (match e with
        | high => []
        | _ => lit "[" ++ effortLabel e ++ lit "] "
        end)
    ++ lit "Claude" ++ ansi.reset.

Definition sectionTitle (name : jsstring) : jsstring :=
  lit "  " ++ colors.title ++ ansi.bold ++ name ++ ansi.reset.

(** Lines 326-367: what follows the Rate Limits section. *)
Definition footerLines (width now : Z) (st : State)
  : result (list jsstring) :=
  sep1 <- drawSeparator (width - 3) ;;
  sep2 <- drawSeparator (width - 3) ;;
  sep3 <- drawSeparator (width - 3) ;;
  let elapsed := now - startTime st in
  Ok ([ [];
        sectionTitle (lit "Session");
        lit "  " ++ sep1;
        lit "  " ++ colors.label ++ lit "Uptime: " ++ ansi.reset
          ++ colors.value ++ formatDuration elapsed ++ ansi.reset
          ++ colors.dim ++ lit "  |  " ++ ansi.reset
          ++ colors.label ++ lit "Refreshes: " ++ ansi.reset
          ++ colors.value ++ string_of_Z (refreshCount st) ++ ansi.reset ]
      ++ (if truthyNum (lastRefresh st) then
            let ago := (now - match lastRefresh st with
                              | Some t => t
                              | None => 0
                              end) / 1000 in
            [ lit "  " ++ colors.label ++ lit "Last update: " ++ ansi.reset
                ++ colors.dim ++ string_of_Z ago ++ lit "s ago" ++ ansi.reset ]
          else [])
      ++ [ [];
           sectionTitle (lit "Account");
           lit "  " ++ sep2;
           lit "  " ++ colors.label ++ lit "Plan: " ++ ansi.reset
             ++ colors.value
             ++ (match plan (config st) with
                 | PlanMax => lit "Max"
                 | PlanOther => lit "Pro"
                 end)
             ++ ansi.reset;
           [];
           lit "  " ++ sep3;
           lit "  " ++ colors.dim
             ++ lit "[r] Refresh  [ESC] Close  [1] Compact  [2] Normal  [3] Detailed"
             ++ ansi.reset ]).

(** Lines 271-282: what precedes the body of the Rate Limits section. *)
Definition headerLines (width : Z) (st : State) : result (list jsstring) :=
  sep <- drawSeparator (width - 3) ;;
  Ok [ modelLine (effort st);
       [];
       sectionTitle (lit "Rate Limits");
       lit "  " ++ sep ].

(** Lines 251-370: the content lines of the panel. *)
Definition viewLines (width now : Z) (st : State) : result (list jsstring) :=
  let title := [ []; titleLine width; [] ] in
  if truthyStr (error st) then
    Ok (title
          ++ [ centerText (colors.red
                             ++ match error st with Some e => e | None => [] end
                             ++ ansi.reset) width;
               [];
               centerText (colors.dim ++ lit "[r] Refresh  [ESC] Close"
                             ++ ansi.reset) width ]
          ++ [ [] ])
  else if loading st then
    Ok (title
          ++ [ centerText (colors.dim ++ lit "Loading..." ++ ansi.reset) width ]
          ++ [ [] ])
  else
    hd <- headerLines width st ;;
    rl <- rateLimitLines now (data st) ;;
    ft <- footerLines width now st ;;
    Ok (title ++ hd ++ rl ++ ft ++ [ [] ]).

(** The writes of one call of [render] to stdout, in order: the screen
    clear, then one write per row of the box. *)
Definition paintRows (startRow startCol : Z) (boxed : list jsstring)
  : list jsstring :=
  map (fun ir : nat * jsstring =>
         ansi.moveTo (startRow + Z.of_nat (fst ir)) startCol
           ++ colors.bg ++ snd ir ++ ansi.reset)
      (combine (seq 0 (length boxed)) boxed).

Definition render (cols rows now : Z) (st : State)
  : result (list jsstring) :=
  let width := Z.min cols 72 in
  lines <- viewLines width now st ;;
  boxed <- drawBox lines width ;;
  let startRow := Z.max 1 ((rows - Z.of_nat (length boxed)) / 2) in
  let startCol := Z.max 1 ((cols - width) / 2) in
  Ok ((ansi.clear ++ ansi.hideCursor) :: paintRows startRow startCol boxed).

(* ================================================================== *)
(** * main (lines 387-508) as a transition system *)
(* ================================================================== *)

(** The calls to the two collaborators of [refresh]. *)
Inductive Call :=
| GetCredentials
| FetchUsageLimits (token : jsstring).

(** Where a running [refresh()] is suspended: at the [await] of line 422
    or at the one of line 429. *)
Inductive Phase :=
| AwaitCredentials
| AwaitFetch (token : jsstring).

(** Who holds the promise of a [refresh()]: [main] (line 442, a rejection
    ends in the [catch] of line 510), the timer (line 446, a rejection is
    swallowed) or the key handler (line 477, an async function nobody
    awaits: a rejection is an unhandled rejection, which ends the process). *)
Inductive Caller := ByMain | ByTimer | ByKey.

Record Task := {
  phase : Phase;
  caller : Caller
}.

(** How far [main] has come. *)
Inductive Stage :=
| NotStarted
| LoadingConfig   (* suspended at lines 412-413 *)
| FirstRefresh    (* suspended at line 442 *)
| Listening.      (* timer and stdin handler installed *)

Record World := {
  state : State;
  termCols : Z;
  termRows : Z;
  stage : Stage;
  inflight : list Task;
  timerOn : bool;
  stdout : list jsstring;
  stderr : list jsstring;
  calls : list Call;
  exited : option Z
}.

(** Functional updates of the records. *)
Definition setView (st : State) (w : World) : World :=
  {| state := st; termCols := termCols w; termRows := termRows w;
     stage := stage w; inflight := inflight w; timerOn := timerOn w;
     stdout := stdout w; stderr := stderr w; calls := calls w;
     exited := exited w |}.

Definition setSize (c r : Z) (w : World) : World :=
  {| state := state w; termCols := c; termRows := r;
     stage := stage w; inflight := inflight w; timerOn := timerOn w;
     stdout := stdout w; stderr := stderr w; calls := calls w;
     exited := exited w |}.

Definition setStage (s : Stage) (w : World) : World :=
  {| state := state w; termCols := termCols w; termRows := termRows w;
     stage := s; inflight := inflight w; timerOn := timerOn w;
     stdout := stdout w; stderr := stderr w; calls := calls w;
     exited := exited w |}.

Definition setInflight (l : list Task) (w : World) : World :=
  {| state := state w; termCols := termCols w; termRows := termRows w;
     stage := stage w; inflight := l; timerOn := timerOn w;
     stdout := stdout w; stderr := stderr w; calls := calls w;
     exited := exited w |}.

Definition setTimer (b : bool) (w : World) : World :=
  {| state := state w; termCols := termCols w; termRows := termRows w;
     stage := stage w; inflight := inflight w; timerOn := b;
     stdout := stdout w; stderr := stderr w; calls := calls w;
     exited := exited w |}.

Definition writeStdout (frames : list jsstring) (w : World) : World :=
  {| state := state w; termCols := termCols w; termRows := termRows w;
     stage := stage w; inflight := inflight w; timerOn := timerOn w;
     stdout := stdout w ++ frames; stderr := stderr w; calls := calls w;
     exited := exited w |}.

Definition writeStderr (s : jsstring) (w : World) : World :=
  {| state := state w; termCols := termCols w; termRows := termRows w;
     stage := stage w; inflight := inflight w; timerOn := timerOn w;
     stdout := stdout w; stderr := stderr w ++ [s]; calls := calls w;
     exited := exited w |}.

Definition call (c : Call) (w : World) : World :=
  {| state := state w; termCols := termCols w; termRows := termRows w;
     stage := stage w; inflight := inflight w; timerOn := timerOn w;
     stdout := stdout w; stderr := stderr w; calls := calls w ++ [c];
     exited := exited w |}.

Definition exit (code : Z) (w : World) : World :=
  {| state := state w; termCols := termCols w; termRows := termRows w;
     stage := stage w; inflight := inflight w; timerOn := timerOn w;
     stdout := stdout w; stderr := stderr w; calls := calls w;
     exited := Some code |}.

Definition withLoading (b : bool) (st : State) : State :=
  {| loading := b; error := error st; data := data st; config := config st;
     effort := effort st; startTime := startTime st;
     lastRefresh := lastRefresh st; refreshCount := refreshCount st |}.

Definition withError (e : option jsstring) (st : State) : State :=
  {| loading := loading st; error := e; data := data st; config := config st;
     effort := effort st; startTime := startTime st;
     lastRefresh := lastRefresh st; refreshCount := refreshCount st |}.

Definition withConfig (c : Config) (e : Effort) (st : State) : State :=
  {| loading := loading st; error := error st; data := data st; config := c;
     effort := e; startTime := startTime st;
     lastRefresh := lastRefresh st; refreshCount := refreshCount st |}.

Definition withDisplayMode (m : DisplayMode) (st : State) : State :=
  withConfig {| plan := plan (config st); displayMode := m |} (effort st) st.

(** Lines 430-433. *)
Definition withFetched (d : option Metrics) (now : Z) (st : State) : State :=
  {| loading := false; error := error st; data := d; config := config st;
     effort := effort st; startTime := startTime st;
     lastRefresh := Some now; refreshCount := refreshCount st + 1 |}.

(** Lines 397-406. *)
Definition initialState (now : Z) : State :=
  {| loading := true; error := None; data := None;
     config := {| plan := PlanMax; displayMode := detailed |};
     effort := high; startTime := now; lastRefresh := None;
     refreshCount := 0 |}.

(** The process before [main] runs; the size is that of lines 204-205. *)
Definition initWorld (cols rows : Z) : World :=
  {| state := initialState 0; termCols := cols; termRows := rows;
     stage := NotStarted; inflight := []; timerOn := false;
     stdout := []; stderr := []; calls := []; exited := None |}.

Definition NL : jsstring := [10%N].
Definition QUOTE : jsstring := [34%N].
Definition SENTINEL : jsstring := lit "__HECA_RPC__".

(** [sendRpc(method)] with the default [params] and [id] (lines 387-390). *)
Definition sendRpc (method : jsstring) (w : World) : World :=
  let q := QUOTE in
  let rpc := lit "{" ++ q ++ lit "jsonrpc" ++ q ++ lit ":" ++ q ++ lit "2.0" ++ q
               ++ lit "," ++ q ++ lit "method" ++ q ++ lit ":" ++ q ++ method ++ q
               ++ lit "," ++ q ++ lit "params" ++ q ++ lit ":{},"
               ++ q ++ lit "id" ++ q ++ lit ":1}" in
  writeStderr (SENTINEL ++ rpc ++ NL) w.

(** Lines 499-502. *)
Definition cleanup (w : World) : World :=
  writeStdout [ansi.showCursor ++ ansi.reset ++ ansi.clear] (setTimer false w).

(** The end of a [refresh()]: its promise is fulfilled ([None]) or rejected
    with an exception, and its holder goes on. *)
Definition settle (c : Caller) (outcome : option exn) (w : World) : World :=
  match c, outcome with
  | ByMain, None => setTimer true (setStage Listening w)   (* lines 445-507 *)
  | ByMain, Some e =>                                      (* lines 510-513 *)
      exit 1 (writeStderr (lit "Error: " ++ message e ++ NL) w)
  | ByTimer, _ => w
  | ByKey, None => w
  | ByKey, Some _ => exit 1 w
  end.

(** [render(state)] inside [refresh], after the view state became [st]:
    the frame is written, or the exception is handed to [onThrow]. *)
Definition renderOr (now : Z) (st : State) (w : World)
  (onThrow : exn -> World -> World) (onOk : World -> World) : World :=
  match render (termCols w) (termRows w) now st with
  | Ok frames => onOk (writeStdout frames (setView st w))
  | Throw e => onThrow e (setView st w)
  end.

(** Lines 435-439: the [catch] of [refresh]. *)
Definition refreshCatch (now : Z) (c : Caller) (e : exn) (w : World) : World :=
  let msg := match message e with [] => lit "unknown error" | m => m end in
  let st := withLoading false
              (withError (Some (lit "Failed to fetch: " ++ msg)) (state w)) in
  renderOr now st w (fun e' => settle c (Some e')) (settle c None).

(** Lines 417-422: [refresh()] up to its first [await]. *)
Definition refreshStart (now : Z) (c : Caller) (w : World) : World :=
  let st := withError None (withLoading true (state w)) in
  renderOr now st w (fun e => settle c (Some e))
    (fun w' =>
       setInflight (inflight w' ++ [{| phase := AwaitCredentials; caller := c |}])
         (call GetCredentials w')).

Definition falsyToken (t : option jsstring) : bool :=
  match t with
  | Some (_ :: _) => false
  | _ => true
  end.

Definition removeNth {A} (i : nat) (l : list A) : list A :=
  firstn i l ++ skipn (S i) l.

Definition replaceNth {A} (i : nat) (x : A) (l : list A) : list A :=
  firstn i l ++ x :: skipn (S i) l.

(** Lines 422-429: [getCredentials()] resolved for the [i]-th refresh. *)
Definition credentialsReady (now : Z) (i : nat) (c : Caller)
  (token : option jsstring) (w : World) : World :=
  if falsyToken token then
    let w1 := setInflight (removeNth i (inflight w)) w in
    let st := withLoading false
                (withError (Some (lit "No credentials found")) (state w1)) in
    renderOr now st w1 (refreshCatch now c) (settle c None)
  else
    let tok := match token with Some t => t | None => [] end in
    setInflight
      (replaceNth i {| phase := AwaitFetch tok; caller := c |} (inflight w))
      (call (FetchUsageLimits tok) w).

(** Lines 429-434: [fetchUsageLimits(token)] resolved for the [i]-th
    refresh. *)
Definition usageReady (now : Z) (i : nat) (c : Caller)
  (d : option Metrics) (w : World) : World :=
  let w1 := setInflight (removeNth i (inflight w)) w in
  let st := withFetched d now (state w1) in
  renderOr now st w1 (refreshCatch now c) (settle c None).

(** The message of a host envelope as the handler reads it: [method] when
    it is a string, [params] when it is truthy, and in [params] the two
    sizes, which the host sends as integers; [None] is an absent size. (A
    size of another type, a string say, would be stored as it is by lines
    466-467; such a message is outside the model.) *)
Record ResizeParams := {
  cols : option Z;
  rows : option Z
}.

Record RpcMessage := {
  method : option jsstring;
  params : option ResizeParams
}.

(** [v || old] for a size. *)
Definition orElse (v : option Z) (old : Z) : Z :=
  match v with
  | Some n => if n =? 0 then old else n
  | None => old
  end.

(** White space and line terminators, as [trim] removes them. *)
Definition isSpace (c : N) : bool :=
  ((9 <=? c) && (c <=? 13) || (c =? 32) || (c =? 160) || (c =? 5760)
   || (8192 <=? c) && (c <=? 8202) || (c =? 8232) || (c =? 8233)
   || (c =? 8239) || (c =? 8287) || (c =? 12288) || (c =? 65279))%N.

Fixpoint trimStart (s : jsstring) : jsstring :=
  match s with
  | c :: r => if isSpace c then trimStart r else s
  | [] => []
  end.

Definition trim (s : jsstring) : jsstring :=
  rev (trimStart (rev (trimStart s))).

(** The events of the event loop. [now] is the value of [Date.now()]
    during the turn; [i] names a suspended [refresh()] by its position in
    [inflight]. [Shutdown] is SIGTERM, SIGINT or the end of stdin once
    their handlers are installed. *)
Inductive Event :=
| Start (now : Z)
| ConfigLoaded (now : Z) (c : Config) (e : Effort)
| CredentialsReady (now : Z) (i : nat) (token : option jsstring)
| UsageReady (now : Z) (i : nat) (d : option Metrics)
| Tick (now : Z)
| Stdin (now : Z) (chunk : jsstring)
| Shutdown.

Section Main.

(** [JSON.parse] followed by the reads of [json.method] and [json.params]:
    [None] when the [try] of line 463 ends in its [catch] (the text is no
    JSON, or it is the JSON [null], whose [method] cannot be read). *)
Variable JSON_parse : jsstring -> option RpcMessage.

(** Lines 462-472: a chunk that starts with the sentinel. *)
Definition onEnvelope (now : Z) (key : jsstring) (w : World) : World :=
  match JSON_parse (trim (slice_from 12 key)) with
  | Some json =>
      match method json, params json with
      | Some m, Some p =>
          if jsstring_eqb m (lit "resize") then
            let w1 := setSize (orElse (cols p) (termCols w))
                              (orElse (rows p) (termRows w)) w in
            match render (termCols w1) (termRows w1) now (state w1) with
            | Ok frames => writeStdout frames w1
            | Throw _ => w1
            end
          else w
      | _, _ => w
      end
  | None => w
  end.

(** Lines 484-495: a display-mode key. *)
Definition onModeKey (now : Z) (m : DisplayMode) (w : World) : World :=
  let st := withDisplayMode m (state w) in
  renderOr now st w (fun _ => exit 1) (fun w' => w').

(** Lines 460-497: the stdin handler. *)
Definition onStdin (now : Z) (key : jsstring) (w : World) : World :=
  if startsWith SENTINEL key then onEnvelope now key w
  else if jsstring_eqb key (lit "r") || jsstring_eqb key (lit "R") then
    refreshStart now ByKey w
  else if jsstring_eqb key (lit "q") || jsstring_eqb key (lit "Q") then
    sendRpc (lit "close") (cleanup w)
  else if jsstring_eqb key (lit "1") then onModeKey now compact w
  else if jsstring_eqb key (lit "2") then onModeKey now normal w
  else if jsstring_eqb key (lit "3") then onModeKey now detailed w
  else w.

(** One turn of the event loop; [None] when the event cannot occur in [w]. *)
Definition step (w : World) (ev : Event) : option World :=
  match exited w with
  | Some _ => None
  | None =>
      match ev with
      | Start now =>
          match stage w with
          | NotStarted =>
              let st := initialState now in
              Some (renderOr now st w
                      (fun e w' =>
                         exit 1 (writeStderr (lit "Error: " ++ message e ++ NL) w'))
                      (setStage LoadingConfig))
          | _ => None
          end
      | ConfigLoaded now c e =>
          match stage w with
          | LoadingConfig =>
              Some (refreshStart now ByMain
                      (setStage FirstRefresh
                         (setView (withConfig c e (state w)) w)))
          | _ => None
          end
      | CredentialsReady now i token =>
          match nth_error (inflight w) i with
          | Some {| phase := AwaitCredentials; caller := c |} =>
              Some (credentialsReady now i c token w)
          | _ => None
          end
      | UsageReady now i d =>
          match nth_error (inflight w) i with
          | Some {| phase := AwaitFetch _; caller := c |} =>
              Some (usageReady now i c d w)
          | _ => None
          end
      | Tick now =>
          match stage w with
          | Listening =>
              if timerOn w then Some (refreshStart now ByTimer w) else None
          | _ => None
          end
      | Stdin now key =>
          match stage w with
          | Listening => Some (onStdin now key w)
          | _ => None
          end
      | Shutdown =>                               (* lines 505-507 *)
          match stage w with
          | Listening => Some (exit 0 (cleanup w))
          | _ => None
          end
      end
  end.

Fixpoint run (w : World) (evs : list Event) : option World :=
  match evs with
  | [] => Some w
  | ev :: rest =>
      match step w ev with
      | Some w' => run w' rest
      | None => None
      end
  end.

(** The worlds the process can be in. *)
Definition reachable (w : World) : Prop :=
  exists c r evs, run (initWorld c r) evs = Some w.

End Main.

(* ================================================================== *)
(** * Vocabulary of the properties *)
(* ================================================================== *)

(** A string the regular expression matches from its first to its last
    character: a recognised control span. *)
Definition isSpan (c : jsstring) : Prop := matchSGR c = Some [].

(** The cut of a string into [p] and [q] falls strictly inside a span of
    the string. *)
Definition Straddle (p q : jsstring) : Prop :=
  exists p0 a b q0,
    p = p0 ++ a /\ q = b ++ q0 /\ a <> [] /\ b <> [] /\ isSpan (a ++ b).

(** The same, decided by trying the expression at every position of [p]. *)
Definition splitsSpan (p q : jsstring) : bool :=
  existsb (fun i => match matchSGR (skipn i p ++ q) with
                    | Some r => (length r <? length q)%nat
                    | None => false
                    end)
          (seq 0 (length p)).

(** [s'] is [s] with any number of spans inserted, one after the other,
    none of them strictly inside a span of the string it is inserted in. *)
Inductive insertSpans (s : jsstring) : jsstring -> Prop :=
| insert_none : insertSpans s s
| insert_one p q c :
    insertSpans s (p ++ q) -> isSpan c -> ~ Straddle p q ->
    insertSpans s (p ++ c ++ q).

(** A string that cannot continue a match begun before it. *)
Definition inert (t : jsstring) : Prop :=
  match t with
  | [] => True
  | c :: _ => isParam c = false /\ c <> 91%N /\ c <> 109%N
  end.

(** Rounding to the nearest integer, a tie going away from zero. *)
Definition roundHalfAway (x : Q) : Z :=
  if Qle_bool 0 x then Qfloor (x + (1 # 2)) else (- Qfloor (- x + (1 # 2)))%Z.

(** The number of filled cells in the words of the specification:
    round (pct / 100 * width), in exact arithmetic. *)
Definition exactFilled (pct : Q) (width : Z) : Z :=
  roundHalfAway (pct / 100 * inject_Z width)%Q.

(** The bar of [width] cells of which [filled] are full. *)
Definition barOf (pct : Q) (width filled : Z) : jsstring :=
  colorForPercent pct ++ repeat FULL_BLOCK (Z.to_nat filled)
    ++ colors.dim ++ repeat LIGHT_SHADE (Z.to_nat (width - filled))
    ++ ansi.reset.




(** The windows a snapshot reports, with their labels, in the order of the
    panel: five-hour, seven-day, seven-day Sonnet. *)
Definition slot (label : jsstring) (o : option UsageWindow)
  : list (jsstring * UsageWindow) :=
  match o with
  | Some w => [(label, w)]
  | None => []
  end.

Definition presentWindows (d : Metrics) : list (jsstring * UsageWindow) :=
  slot LABEL_5H (five_hour d) ++ slot LABEL_7D (seven_day d)
    ++ slot LABEL_7DS (seven_day_sonnet d).

(** The rounded percentage of a window whose utilization is finite. *)
Definition percentOf (w : UsageWindow) : Z :=
  match utilization w with
  | Finite u => Math_round u
  | _ => 0
  end.

(** The line of one window with a finite utilization: label, 25-cell bar,
    percentage, and the countdown in parentheses when the window has a
    reset time. *)
Definition lineFor (now : Z) (lw : jsstring * UsageWindow) : jsstring :=
  let pct := inject_Z (percentOf (snd lw)) in
  let reset := formatResetTime now (resets_at (snd lw)) in
  lit "  " ++ colors.label ++ fst lw ++ ansi.reset
    ++ barOf pct 25 (filledCells pct 25) ++ lit "  " ++ formatPercent pct
    ++ (match reset with
        | [] => []
        | _ => colors.dim ++ lit "  (" ++ reset ++ lit ")" ++ ansi.reset
        end).

(** The view state [refresh] paints first (lines 417-419). *)
Definition loadingView (st : State) : State :=
  withError None (withLoading true st).

(** The view state of the branch without credentials (lines 424-425). *)
Definition noCredentialsView (st : State) : State :=
  withLoading false (withError (Some (lit "No credentials found")) st).

(** The events that ask for a refresh: the keys r and R, and the timer. *)
Definition trigger (ev : Event) : option (Z * Caller) :=
  match ev with
  | Stdin now key =>
      if jsstring_eqb key (lit "r") || jsstring_eqb key (lit "R")
      then Some (now, ByKey) else None
  | Tick now => Some (now, ByTimer)
  | _ => None
  end.

(** The fetches that completed in a run. *)
Fixpoint completedFetches (evs : list Event) : Z :=
  match evs with
  | [] => 0
  | UsageReady _ _ _ :: rest => 1 + completedFetches rest
  | _ :: rest => completedFetches rest
  end.

(** Before [main] starts nothing is in flight and nothing was counted. *)
Definition fresh (w : World) : Prop :=
  stage w = NotStarted -> refreshCount (state w) = 0 /\ inflight w = [].

(** Host envelopes of the examples, as the host writes them. *)
Definition jsonString (s : String.string) : jsstring := QUOTE ++ lit s ++ QUOTE.

Definition envelope (body : jsstring) : jsstring :=
  SENTINEL ++ lit "{" ++ jsonString "jsonrpc" ++ lit ":" ++ jsonString "2.0"
    ++ lit "," ++ jsonString "method" ++ lit ":" ++ jsonString "resize"
    ++ body ++ lit "}" ++ NL.

Definition resizeTo (c r : Z) : jsstring :=
  envelope (lit "," ++ jsonString "params" ++ lit ":{" ++ jsonString "cols"
              ++ lit ":" ++ string_of_Z c ++ lit "," ++ jsonString "rows"
              ++ lit ":" ++ string_of_Z r ++ lit "}").

Definition resizeBare : jsstring := envelope [].

(** An instance of [JSON_parse] that is right on the three payloads the
    examples send: a resize to 1 x 1, a resize to 100 x 30, and a resize
    without [params]. The examples give it no other text. *)
Definition hostParse (s : jsstring) : option RpcMessage :=
  let payload key := trim (slice_from 12 key) in
  let resize p := Some {| method := Some (lit "resize"); params := p |} in
  if jsstring_eqb s (payload (resizeTo 1 1)) then
    resize (Some {| cols := Some 1; rows := Some 1 |})
  else if jsstring_eqb s (payload (resizeTo 100 30)) then
    resize (Some {| cols := Some 100; rows := Some 30 |})
  else if jsstring_eqb s (payload resizeBare) then resize None
  else None.

Definition sampleMetrics : Metrics :=
  {| five_hour := Some {| utilization := Finite 42;
                          resets_at := Some (TimeValue 7200000) |};
     seven_day := Some {| utilization := Finite 58; resets_at := None |};
     seven_day_sonnet := None |}.

(** A start of the process on an 80 x 24 terminal: the first refresh finds
    a token and usage data, and [main] installs the timer and the stdin
    handler. *)
Definition bootTrace : list Event :=
  [ Start 1000;
    ConfigLoaded 1010 {| plan := PlanMax; displayMode := detailed |} high;
    CredentialsReady 1020 0 (Some (lit "token"));
    UsageReady 1300 0 (Some sampleMetrics) ].

Definition booted : option World := run hostParse (initWorld 80 24) bootTrace.

(** The world a run ends in (the initial one when the run is not possible;
    the examples say which it is). *)
Definition theWorld (o : option World) : World :=
  match o with
  | Some w => w
  | None => initWorld 0 0
  end.

(** The process after [bootTrace], with a refresh started by the timer and
    suspended at [getCredentials]. *)
Definition refreshing : option World :=
  run hostParse (initWorld 80 24) (bootTrace ++ [Tick 61300]).

(** After [bootTrace]: a key r, then a tick of the timer before the
    refresh of the key came back; both refreshes get a token and call
    [fetchUsageLimits]; then a key R. *)
Definition overlapTrace : list Event :=
  bootTrace ++ [Stdin 61200 (lit "r"); Tick 61300;
                CredentialsReady 61310 0 (Some (lit "token"));
                CredentialsReady 61320 1 (Some (lit "token"));
                Stdin 61400 (lit "R")].

(** After [bootTrace]: the timer starts a refresh; while it waits for the
    credentials the host resizes the terminal to 1 x 1; then
    [getCredentials] resolves to [null]. *)
Definition shrinkTrace : list Event :=
  bootTrace ++ [Tick 61300; Stdin 61301 (resizeTo 1 1);
                CredentialsReady 61302 0 None].
(* ================================================================== *)
(** * Further parts of the program *)
(* ================================================================== *)

(** ** formatTokens (lines 173-177) *)



(** ** The size of the terminal at the start (lines 204-205) *)

(** A decimal digit, as the constructor of its numeral. *)
Definition digitOf (c : N) : option (Decimal.uint -> Decimal.uint) :=
  match c with
  | 48%N => Some Decimal.D0
  | 49%N => Some Decimal.D1
  | 50%N => Some Decimal.D2
  | 51%N => Some Decimal.D3
  | 52%N => Some Decimal.D4
  | 53%N => Some Decimal.D5
  | 54%N => Some Decimal.D6
  | 55%N => Some Decimal.D7
  | 56%N => Some Decimal.D8
  | 57%N => Some Decimal.D9
  | _ => None
  end.

(** The longest run of digits at the head of a string. *)
Fixpoint digitsPrefix (s : jsstring) : Decimal.uint :=
  match s with
  | c :: r =>
      match digitOf c with
      | Some d => d (digitsPrefix r)
      | None => Decimal.Nil
      end
  | [] => Decimal.Nil
  end.

(** A sign at the head of a string, and what follows it. *)
Definition splitSign (s : jsstring) : Z * jsstring :=
  match s with
  | 45%N :: r => (-1, r)
  | 43%N :: r => (1, r)
  | _ => (1, s)
  end.

(** The binary64 number nearest to a natural number, itself an integer. *)
Definition nearestNumber (n : Z) : Z := Qfloor (fl (inject_Z n)).

(** [parseInt(s, 10)]: white space at the start is skipped, a sign is
    read, then the longest run of digits; what follows is ignored. The
    value of the digits is rounded to binary64, which changes nothing
    below 2^53. [None] is NaN, the result when there is no digit. (The
    digits of a terminal size stay below 2^1024, where the source would
    read an infinity.) *)
Definition parseInt10 (s : jsstring) : option Z :=
  let signed := splitSign (trimStart s) in
  match digitsPrefix (snd signed) with
  | Decimal.Nil => None
  | d => Some (fst signed * nearestNumber (Z.of_uint d))
  end.

(** [parseInt(process.env.NAME || dflt, 10)]: [v] is the variable of the
    environment, [None] when it is not set. *)
Definition envSize (v : option jsstring) (dflt : jsstring) : option Z :=
  parseInt10 (match v with
              | Some (c :: r) => c :: r
              | _ => dflt
              end).

(** ** JSON values *)

(** What [JSON.parse] returns. The fields of an object are its own
    properties, each key once; their order has no meaning here. A number
    is given by its value. *)
#[warnings="-register-all"] Inductive JSON : Type :=
| JNull
| JBool (b : bool)
| JNumber (x : Q)
| JString (s : jsstring)
| JArray (items : list JSON)
| JObject (fields : list (jsstring * JSON)).

Fixpoint lookupField (k : jsstring) (fields : list (jsstring * JSON))
  : option JSON :=
  match fields with
  | (k', v) :: rest => if jsstring_eqb k k' then Some v else lookupField k rest
  | [] => None
  end.

(** The field [k] of an object, [None] for a value that is no object or
    has no such field. For the keys the program reads ([claudeAiOauth],
    [accessToken], [plan]) this is [v.k], [None] being [undefined]: none
    of them is a property of a string, a number, a boolean or an array,
    nor of [Object.prototype]. *)
Definition getProp (k : jsstring) (v : JSON) : option JSON :=
  match v with
  | JObject fields => lookupField k fields
  | _ => None
  end.

(** [v?.k], [v] being a value or [undefined]. *)
Definition optChain (v : option JSON) (k : jsstring) : option JSON :=
  match v with
  | None | Some JNull => None
  | Some x => getProp k x
  end.

(** [v ?? null] *)
Definition orNull (v : option JSON) : JSON :=
  match v with
  | Some x => x
  | None => JNull
  end.

(** [!v] for a value. *)
Definition falsy (v : JSON) : bool :=
  match v with
  | JNull | JBool false | JString [] => true
  | JNumber x => Qeq_bool x 0
  | _ => false
  end.

(** ** Credentials (lines 67-101) and configuration (lines 135-143) *)

(** What the process finds around it: the platform, what the command
    [security] prints ([None] when [execFileSync] throws), and the text
    of the two files ([None] when reading one fails). *)
Record Host := {
  platform : jsstring;
  keychain : option jsstring;
  credentialsFile : option jsstring;
  configFile : option jsstring
}.

Section Collaborators.

(** [JSON.parse]: [None] when it throws. *)
Variable parseJSON : jsstring -> option JSON.

(** [creds?.claudeAiOauth?.accessToken ?? null] *)
Definition accessTokenOf (creds : JSON) : JSON :=
  orNull (optChain (optChain (Some creds) (lit "claudeAiOauth"))
                   (lit "accessToken")).

Definition getCredentialsFromFile (h : Host) : JSON :=
  match credentialsFile h with
  | Some content =>
      match parseJSON content with
      | Some creds => accessTokenOf creds
      | None => JNull
      end
  | None => JNull
  end.

Definition getCredentialsFromKeychain (h : Host) : JSON :=
  match keychain h with
  | Some out =>
      match parseJSON (trim out) with
      | Some creds => accessTokenOf creds
      | None => getCredentialsFromFile h
      end
  | None => getCredentialsFromFile h
  end.

Definition getCredentials (h : Host) : JSON :=
  if jsstring_eqb (platform h) (lit "darwin") then getCredentialsFromKeychain h
  else getCredentialsFromFile h.

(** The own enumerable properties that [...v] copies: the fields of an
    object, the elements of an array and the code units of a string under
    their indices; nothing for another value. *)
Definition indexed (items : list JSON) : list (jsstring * JSON) :=
  combine (map (fun i => string_of_Z (Z.of_nat i)) (seq 0 (length items))) items.

Definition spreadProps (v : JSON) : list (jsstring * JSON) :=
  match v with
  | JObject fields => fields
  | JArray items => indexed items
  | JString s => indexed (map (fun c => JString [c]) s)
  | _ => []
  end.

(** Defining the property [k] of an object literal: the value of a key it
    has already is replaced. *)
Fixpoint setField (k : jsstring) (v : JSON) (fields : list (jsstring * JSON))
  : list (jsstring * JSON) :=
  match fields with
  | (k', v') :: rest =>
      if jsstring_eqb k k' then (k', v) :: rest
      else (k', v') :: setField k v rest
  | [] => [(k, v)]
  end.

Definition assignFields (base props : list (jsstring * JSON))
  : list (jsstring * JSON) :=
  fold_left (fun acc kv => setField (fst kv) (snd kv) acc) props base.

Definition loadConfig (h : Host) : JSON :=
  let defaults := [ (lit "plan", JString (lit "max"));
                    (lit "displayMode", JString (lit "detailed")) ] in
  match configFile h with
  | Some content =>
      match parseJSON content with
      | Some v => JObject (assignFields defaults (spreadProps v))
      | None => JObject (defaults ++ [(lit "language", JString (lit "auto"))])
      end
  | None => JObject (defaults ++ [(lit "language", JString (lit "auto"))])
  end.

(** [state.config.plan === 'max'], as line 356 reads it. *)
Definition planOf (cfg : JSON) : Plan :=
  match getProp (lit "plan") cfg with
  | Some (JString s) => if jsstring_eqb s (lit "max") then PlanMax else PlanOther
  | _ => PlanOther
  end.

End Collaborators.

(** The token as the events of the transition system carry it: a string,
    or [null]. *)
Definition tokenEvent (v : JSON) : option (option jsstring) :=
  match v with
  | JNull => Some None
  | JString s => Some (Some s)
  | _ => None
  end.

(* ================================================================== *)
(** * Vocabulary of the further properties *)
(* ================================================================== *)

(** A window whose rounded percentage the 25 cells of the bar can show. *)
Definition paintable (w : UsageWindow) : bool :=
  match utilization w with
  | Finite u => (-2 <=? Math_round u) && (Math_round u <=? 101)
  | _ => false
  end.

Definition paintableSlot (o : option UsageWindow) : bool :=
  match o with
  | Some w => paintable w
  | None => true
  end.

Definition paintableData (data : option Metrics) : bool :=
  match data with
  | Some d =>
      paintableSlot (five_hour d) && paintableSlot (seven_day d)
        && paintableSlot (seven_day_sonnet d)
  | None => true
  end.

(** The exceptions of [render]: the RangeError of [repeat] on a negative
    count (of dashes on a narrow terminal, of cells for a window that is
    not paintable), that of [repeat] on an infinite count of cells, and
    that of more full cells than a string can hold. *)
Definition renderError (e : exn) : Prop :=
  (exists n, n < 0 /\ e = RangeError n)
  \/ (exists negative, e = InfiniteCount negative)
  \/ e = InvalidStringLength.

(** The message of an exception of [render], as [refresh] puts it in its
    error text. The count of a RangeError is written by its digits for a
    count above -2^53, as far as the integers of the model are those of
    the source; from 10^21 on JavaScript writes a number with an
    exponent. *)
Definition messageOf (e : exn) (text : jsstring) : Prop :=
  match e with
  | RangeError n =>
      exists digits,
        text = lit "Invalid count value: " ++ digits
        /\ (- 2 ^ 53 < n -> digits = string_of_Z n)
  | InfiniteCount false => text = lit "Invalid count value: Infinity"
  | InfiniteCount true => text = lit "Invalid count value: -Infinity"
  | InvalidStringLength => text = lit "Invalid string length"
  end.

(** The third branch of [render] (line 268): neither an error nor loading. *)
Definition dataView (st : State) : bool :=
  negb (truthyStr (error st)) && negb (loading st).

(** What the fields of the view state have to do with each other. *)
Definition viewConsistent (st : State) : Prop :=
  (loading st = true -> error st = None)
  /\ 0 <= refreshCount st
  /\ (lastRefresh st = None <-> refreshCount st = 0)
  /\ (data st <> None -> lastRefresh st <> None).

(** A call of [fetchUsageLimits] carries a token that is not empty; a
    refresh suspended at that call holds one. *)
Definition withToken (c : Call) : Prop :=
  match c with
  | FetchUsageLimits t => t <> []
  | GetCredentials => True
  end.

Definition holdsToken (t : Task) : Prop :=
  match phase t with
  | AwaitFetch tok => tok <> []
  | AwaitCredentials => True
  end.

(** Counting the calls and the suspended refreshes. *)
Definition isGet (c : Call) : bool :=
  match c with GetCredentials => true | FetchUsageLimits _ => false end.

Definition isFetch (c : Call) : bool :=
  match c with GetCredentials => false | FetchUsageLimits _ => true end.

Definition awaitsCredentials (t : Task) : bool :=
  match phase t with AwaitCredentials => true | AwaitFetch _ => false end.

Definition awaitsFetch (t : Task) : bool :=
  match phase t with AwaitCredentials => false | AwaitFetch _ => true end.

Definition count {A} (f : A -> bool) (l : list A) : Z :=
  Z.of_nat (length (filter f l)).

(** What every turn keeps. *)
Definition kept (w : World) : Prop :=
  viewConsistent (state w)
  /\ Forall withToken (calls w)
  /\ Forall holdsToken (inflight w)
  /\ count isFetch (calls w) + count awaitsCredentials (inflight w)
     <= count isGet (calls w)
  /\ count awaitsFetch (inflight w) <= count isFetch (calls w).

(** The data view holds nothing that its bars cannot show. *)
Definition showable (st : State) : Prop :=
  dataView st = true -> paintableData (data st) = true.

(** A turn that belongs to a refresh the timer started: a tick, or the
    return of [getCredentials] or of [fetchUsageLimits] to such a refresh. *)
Definition timerTurn (w : World) (ev : Event) : Prop :=
  match ev with
  | Tick _ => True
  | CredentialsReady _ i _ | UsageReady _ i _ =>
      match nth_error (inflight w) i with
      | Some t => caller t = ByTimer
      | None => False
      end
  | _ => False
  end.

(** The display mode a key asks for (lines 484-495). *)
Definition modeOfKey (key : jsstring) : option DisplayMode :=
  if jsstring_eqb key (lit "1") then Some compact
  else if jsstring_eqb key (lit "2") then Some normal
  else if jsstring_eqb key (lit "3") then Some detailed
  else None.

(** The request that asks the host to close the panel, as the host reads
    it on stderr between the sentinel and the end of the line. *)
Definition closeRequest : jsstring :=
  lit "{" ++ jsonString "jsonrpc" ++ lit ":" ++ jsonString "2.0" ++ lit ","
    ++ jsonString "method" ++ lit ":" ++ jsonString "close" ++ lit ","
    ++ jsonString "params" ++ lit ":{}," ++ jsonString "id" ++ lit ":1}".

(** The two lines the panel shows in place of the bars when the view state
    holds no data (lines 322-323). *)
Definition noFetchNotice : list jsstring :=
  [ lit "  " ++ colors.yellow ++ lit "Failed to fetch rate limits" ++ ansi.reset;
    lit "  " ++ colors.dim ++ lit "Check ~/.claude/.credentials.json"
      ++ ansi.reset ].

(** A snapshot with a five-hour window at 150 percent. *)
Definition overdrawn : Metrics :=
  {| five_hour := Some {| utilization := Finite 150; resets_at := None |};
     seven_day := None;
     seven_day_sonnet := None |}.

(** The process after [bootTrace], with a refresh of the timer suspended at
    [fetchUsageLimits]. *)
Definition fetching : option World :=
  run hostParse (initWorld 80 24)
    (bootTrace ++ [Tick 61300; CredentialsReady 61310 0 (Some (lit "token"))]).



(* ================================================================== *)
(** * Text metrics: properties *)
(* ================================================================== *)

Lemma stripAnsi_cons c r :
  stripAnsi (c :: r) =
  match matchSGR (c :: r) with
  | Some rest => stripAnsi rest
  | None => c :: stripAnsi r
  end.
Proof.
  simp stripAnsi.
  destruct (inspect (matchSGR (c :: r))) as [[rest|] H];
    simp stripAnsi; rewrite H; reflexivity.
Qed.

Lemma dropParams_app r m rest t :
  dropParams r = m :: rest -> dropParams (r ++ t) = m :: rest ++ t.
Proof.
  induction r as [|c r IH]; simpl; [discriminate|].
  destruct (isParam c); [exact IH|].
  intros [= <- <-]. reflexivity.
Qed.

Lemma dropParams_split r :
  exists ps, r = ps ++ dropParams r /\ forallb isParam ps = true.
Proof.
  induction r as [|c r [ps [E F]]]; simpl.
  - exists []. split; reflexivity.
  - destruct (isParam c) eqn:P.
    + exists (c :: ps). simpl. rewrite P, F. split; [now f_equal|reflexivity].
    + exists []. split; reflexivity.
Qed.

Lemma dropParams_params ps t :
  forallb isParam ps = true -> dropParams (ps ++ t) = dropParams t.
Proof.
  induction ps as [|c ps IH]; simpl; [reflexivity|].
  intros H. apply andb_true_iff in H as [P F]. rewrite P. auto.
Qed.

Lemma matchSGR_app s rest t :
  matchSGR s = Some rest -> matchSGR (s ++ t) = Some (rest ++ t).
Proof.
  destruct s as [|e [|b r]]; simpl; try discriminate.
  destruct ((e =? 27) && (b =? 91))%N; try discriminate.
  destruct (dropParams r) as [|m rest'] eqn:D; try discriminate.
  rewrite (dropParams_app _ _ _ t D).
  destruct (m =? 109)%N; try discriminate.
  intros [= <-]. reflexivity.
Qed.

Lemma matchSGR_app_inert s t :
  s <> [] -> matchSGR s = None -> inert t -> matchSGR (s ++ t) = None.
Proof.
  intros Hs Hm Ht.
  destruct s as [|e [|b r]]; [congruence| |].
  - simpl. destruct t as [|c t]; [reflexivity|].
    destruct Ht as (_ & Hc & _).
    destruct (e =? 27)%N; simpl; [|reflexivity].
    destruct (N.eqb_spec c 91); [contradiction|reflexivity].
  - simpl in *. destruct ((e =? 27) && (b =? 91))%N; [|reflexivity].
    destruct (dropParams r) as [|m rest] eqn:D.
    + destruct (dropParams_split r) as [ps [E F]]. rewrite D, app_nil_r in E.
      subst r. rewrite (dropParams_params _ _ F).
      destruct t as [|c t]; [reflexivity|].
      destruct Ht as (Hp & _ & Hc). simpl. rewrite Hp.
      destruct (N.eqb_spec c 109); [contradiction|reflexivity].
    + rewrite (dropParams_app _ _ _ t D).
      destruct (m =? 109)%N; [discriminate|reflexivity].
Qed.

(** The shape of a match: a span, then the rest. *)
Lemma matchSGR_span s rest :
  matchSGR s = Some rest -> exists c, s = c ++ rest /\ isSpan c.
Proof.
  destruct s as [|e [|b r]]; simpl; try discriminate.
  destruct ((e =? 27) && (b =? 91))%N eqn:H; try discriminate.
  destruct (dropParams r) as [|m rest'] eqn:D; try discriminate.
  destruct (N.eqb_spec m 109) as [->|]; try discriminate.
  intros [= <-].
  destruct (dropParams_split r) as [ps [E F]]. rewrite D in E.
  exists (e :: b :: ps ++ [109%N]). split.
  - simpl. rewrite <- app_assoc. simpl. now rewrite <- E.
  - unfold isSpan. simpl. rewrite H, (dropParams_params _ _ F). reflexivity.
Qed.

Lemma isSpan_app c t : isSpan c -> matchSGR (c ++ t) = Some t.
Proof. intros H. apply (matchSGR_app _ _ t) in H. exact H. Qed.

Lemma isSpan_inert c t : isSpan c -> inert (c ++ t).
Proof.
  unfold isSpan. destruct c as [|e [|b r]]; simpl; try discriminate.
  destruct (N.eqb_spec e 27) as [->|]; simpl; [|discriminate].
  intros _. repeat split; discriminate.
Qed.

(** The expression has the shape ESC [ parameters m. *)
Lemma isSpan_iff c :
  isSpan c <->
  exists ps, c = ESC ++ lit "[" ++ ps ++ lit "m" /\ forallb isParam ps = true.
Proof.
  split.
  - unfold isSpan. destruct c as [|e [|b r]]; simpl; try discriminate.
    destruct (N.eqb_spec e 27) as [->|]; simpl; [|discriminate].
    destruct (N.eqb_spec b 91) as [->|]; simpl; [|discriminate].
    destruct (dropParams r) as [|m rest'] eqn:D; try discriminate.
    destruct (N.eqb_spec m 109) as [->|]; try discriminate.
    intros [= ->].
    destruct (dropParams_split r) as [ps [E F]]. rewrite D in E.
    exists ps. split; [|exact F]. now rewrite E.
  - intros [ps [-> F]]. unfold isSpan. cbn.
    rewrite (dropParams_params _ _ F). reflexivity.
Qed.

Lemma stripAnsi_app_inert_aux n : forall s t,
  (length s <= n)%nat -> inert t ->
  stripAnsi (s ++ t) = stripAnsi s ++ stripAnsi t.
Proof.
  induction n as [|n IH]; intros s t Hn Ht.
  - destruct s; [reflexivity|simpl in Hn; lia].
  - destruct s as [|c r]; [reflexivity|].
    change ((c :: r) ++ t) with (c :: (r ++ t)).
    rewrite !stripAnsi_cons.
    change (c :: (r ++ t)) with ((c :: r) ++ t).
    destruct (matchSGR (c :: r)) as [rest|] eqn:M.
    + rewrite (matchSGR_app _ _ t M).
      apply IH; [|exact Ht].
      apply matchSGR_length in M. simpl in *. lia.
    + rewrite (matchSGR_app_inert (c :: r) t); [|discriminate|exact M|exact Ht].
      simpl. f_equal. apply IH; [simpl in Hn; lia|exact Ht].
Qed.

Lemma stripAnsi_app_inert s t :
  inert t -> stripAnsi (s ++ t) = stripAnsi s ++ stripAnsi t.
Proof. apply (stripAnsi_app_inert_aux (length s)). lia. Qed.

Lemma stripAnsi_repeat c n :
  c <> 27%N -> stripAnsi (repeat c n) = repeat c n.
Proof.
  intros Hc. induction n as [|n IH]; [reflexivity|].
  simpl. rewrite stripAnsi_cons.
  assert (M : matchSGR (c :: repeat c n) = None).
  { simpl. destruct (repeat c n); [reflexivity|].
    destruct (N.eqb_spec c 27); [contradiction|reflexivity]. }
  rewrite M, IH. reflexivity.
Qed.

Lemma inert_spaces n : inert (spaces n).
Proof.
  unfold spaces. destruct (Z.to_nat n); simpl; [exact I|].
  repeat split; discriminate.
Qed.

Lemma stripAnsi_spaces s n :
  stripAnsi (s ++ spaces n) = stripAnsi s ++ spaces n.
Proof.
  rewrite (stripAnsi_app_inert _ _ (inert_spaces n)).
  unfold spaces. now rewrite stripAnsi_repeat.
Qed.

Lemma jslength_app a b : jslength (a ++ b) = jslength a + jslength b.
Proof. unfold jslength. rewrite length_app. lia. Qed.

Lemma jslength_spaces n : jslength (spaces n) = Z.max 0 n.
Proof. unfold jslength, spaces. rewrite repeat_length. lia. Qed.

(** C7, as amended. Where [s] and its filler together are not longer than
    the longest string of the engine, [padRight s w] is [s] followed by
    [max 0 (w - displayWidth s)] spaces; its display width is
    [max w (displayWidth s)], and it starts with [s]. Where they are
    longer, [padRight] throws the RangeError of an invalid string length:
    from [repeat] when the filler alone is too long, from [+] otherwise. *)
Theorem padRight_spec (s : jsstring) (w : Z) :
  let pad := Z.max 0 (w - displayWidth s) in
  (jslength s + pad <= MAX_STRING_LENGTH ->
   padRight s w = Ok (s ++ spaces pad)
   /\ displayWidth (s ++ spaces pad) = Z.max w (displayWidth s)
   /\ firstn (length s) (s ++ spaces pad) = s)
  /\ (MAX_STRING_LENGTH < jslength s + pad ->
      padRight s w = Throw InvalidStringLength).
Proof.
  intros pad.
  assert (P0 : 0 <= pad) by (unfold pad; lia).
  assert (L0 : 0 <= jslength s) by (unfold jslength; lia).
  assert (E : padRight s w
              = (filler <- repeatUnit 32%N pad ;; strcat s filler))
    by reflexivity.
  rewrite E. unfold repeatUnit, strcat.
  destruct (Z.ltb_spec pad 0) as [N|_]; [lia|].
  split.
  - intros B.
    destruct (Z.ltb_spec MAX_STRING_LENGTH pad) as [N|_]; [lia|].
    cbn [bind]. fold (spaces pad). rewrite jslength_spaces.
    destruct (Z.ltb_spec MAX_STRING_LENGTH (jslength s + Z.max 0 pad))
      as [N|_]; [lia|].
    repeat split.
    + unfold displayWidth.
      rewrite stripAnsi_spaces, jslength_app, jslength_spaces.
      unfold pad, displayWidth. lia.
    + rewrite firstn_app, Nat.sub_diag, firstn_all. simpl. apply app_nil_r.
  - intros B.
    destruct (Z.ltb_spec MAX_STRING_LENGTH pad) as [_|S]; [reflexivity|].
    cbn [bind]. fold (spaces pad). rewrite jslength_spaces.
    destruct (Z.ltb_spec MAX_STRING_LENGTH (jslength s + Z.max 0 pad))
      as [_|N]; [reflexivity|lia].
Qed.

(** A label of two characters on a field of five, and one that is wider
    than its field. *)
Lemma padRight_spec_witness :
  padRight (lit "ab") 5 = Ok (lit "ab   ")
  /\ padRight (lit "abcdef") 5 = Ok (lit "abcdef").
Proof.
  split.
  - apply (proj1 (padRight_spec (lit "ab") 5)). vm_compute. discriminate.
  - apply (proj1 (padRight_spec (lit "abcdef") 5)). vm_compute. discriminate.
Defined.

(** C7 as stated fails for a wide field: on a width of 2^30 the filler
    would be 2^30 - 2 spaces, more than a string can hold, and [padRight]
    throws where the claim names a string. *)
Lemma padRight_overlong :
  Z.max 0 (2 ^ 30 - displayWidth (lit "ab")) = 2 ^ 30 - 2
  /\ MAX_STRING_LENGTH < 2 ^ 30 - 2
  /\ padRight (lit "ab") (2 ^ 30) = Throw InvalidStringLength
  /\ forall out, padRight (lit "ab") (2 ^ 30) <> Ok out.
Proof.
  assert (E : padRight (lit "ab") (2 ^ 30) = Throw InvalidStringLength)
    by (vm_compute; reflexivity).
  split; [vm_compute; reflexivity|].
  split; [vm_compute; reflexivity|].
  split; [exact E|].
  intros out. rewrite E. discriminate.
Qed.

(** C10. When the visible text is longer than [maxLen] and [maxLen < 4],
    [truncate] returns the three dots alone: the end index [maxLen - 3] of
    [substring] is not positive and counts as 0. The function is total. *)
Theorem truncate_below_4 (text : jsstring) (maxLen : Z) :
  maxLen < displayWidth text -> maxLen < 4 ->
  truncate text maxLen = lit "...".
Proof.
  intros Hlong Hsmall. unfold truncate, substring0.
  fold (displayWidth text).
  destruct (Z.leb_spec (displayWidth text) maxLen); [lia|].
  replace (Z.max 0 (maxLen - 3)) with 0 by lia. reflexivity.
Qed.

Lemma truncate_below_4_witness :
  truncate (lit "hello") 2 = lit "..."
  /\ truncate (lit "hello") (-7) = lit "...".
Proof.
  split.
  - apply (truncate_below_4 (lit "hello") 2); vm_compute; reflexivity.
  - apply (truncate_below_4 (lit "hello") (-7)); vm_compute; reflexivity.
Defined.

Lemma Straddle_suffix pre p q : Straddle p q -> Straddle (pre ++ p) q.
Proof.
  intros (p0 & a & b & q0 & -> & -> & Ha & Hb & S).
  exists (pre ++ p0), a, b, q0. rewrite app_assoc. auto.
Qed.

(** A match that begins in [p] and is not a match of [p] alone ends in [q]. *)
Lemma matchSGR_straddle p q r :
  p <> [] -> matchSGR p = None -> matchSGR (p ++ q) = Some r -> Straddle p q.
Proof.
  intros Hp Hn Hm.
  destruct (matchSGR_span _ _ Hm) as [c [E S]].
  apply app_eq_app in E as [l [[-> ->]|[-> ->]]].
  - rewrite (isSpan_app c l S) in Hn. discriminate.
  - exists [], p, l, r. repeat split; auto.
    intros ->. rewrite app_nil_r in S. unfold isSpan in S. congruence.
Qed.

Lemma stripAnsi_app_cut_aux n : forall p q,
  (length p <= n)%nat -> ~ Straddle p q ->
  stripAnsi (p ++ q) = stripAnsi p ++ stripAnsi q.
Proof.
  induction n as [|n IH]; intros p q Hn Hs.
  - destruct p; [reflexivity|simpl in Hn; lia].
  - destruct p as [|c r]; [reflexivity|].
    change ((c :: r) ++ q) with (c :: (r ++ q)).
    rewrite !stripAnsi_cons.
    change (c :: (r ++ q)) with ((c :: r) ++ q).
    destruct (matchSGR (c :: r)) as [rest|] eqn:M.
    + rewrite (matchSGR_app _ _ q M).
      destruct (matchSGR_span _ _ M) as [sp [E _]].
      apply IH.
      * apply matchSGR_length in M. simpl in *. lia.
      * intros S. apply Hs. rewrite E. now apply Straddle_suffix.
    + destruct (matchSGR ((c :: r) ++ q)) as [r'|] eqn:M'.
      * exfalso. apply Hs.
        apply (matchSGR_straddle (c :: r) q r'); [discriminate|exact M|exact M'].
      * simpl. f_equal. apply IH; [simpl in Hn; lia|].
        intros S. apply Hs. now apply (Straddle_suffix [c]).
Qed.

(** Away from the inside of a span, stripping commutes with cutting. *)
Lemma stripAnsi_app_cut p q :
  ~ Straddle p q -> stripAnsi (p ++ q) = stripAnsi p ++ stripAnsi q.
Proof. apply (stripAnsi_app_cut_aux (length p)). lia. Qed.

Lemma stripAnsi_span c q : isSpan c -> stripAnsi (c ++ q) = stripAnsi q.
Proof.
  intros S. pose proof (isSpan_app c q S) as M.
  destruct c as [|e r]; [discriminate|].
  change ((e :: r) ++ q) with (e :: (r ++ q)) in *.
  now rewrite stripAnsi_cons, M.
Qed.

(** One insertion leaves the printable characters as they were. *)
Lemma stripAnsi_insert p q c :
  isSpan c -> ~ Straddle p q -> stripAnsi (p ++ c ++ q) = stripAnsi (p ++ q).
Proof.
  intros S Hs.
  rewrite (stripAnsi_app_inert p (c ++ q) (isSpan_inert c q S)).
  rewrite (stripAnsi_span c q S). symmetry. now apply stripAnsi_app_cut.
Qed.

Lemma Straddle_splitsSpan p q : Straddle p q -> splitsSpan p q = true.
Proof.
  intros (p0 & a & b & q0 & -> & -> & Ha & Hb & S).
  unfold splitsSpan. apply existsb_exists. exists (length p0). split.
  - apply in_seq. rewrite length_app. destruct a; [congruence|simpl; lia].
  - rewrite skipn_app, skipn_all, Nat.sub_diag. simpl.
    rewrite app_assoc, (isSpan_app _ q0 S).
    apply Nat.ltb_lt. rewrite length_app. destruct b; [congruence|simpl; lia].
Qed.

Lemma splitsSpan_false p q : splitsSpan p q = false -> ~ Straddle p q.
Proof.
  intros H S. apply Straddle_splitsSpan in S. congruence.
Qed.

(** C8, as amended. Inserting recognised spans, each at a position that is
    not strictly inside a span of the string it goes into, leaves the
    printable characters, and so the display width, unchanged. *)
Theorem displayWidth_insertSpans (s s' : jsstring) :
  insertSpans s s' ->
  stripAnsi s' = stripAnsi s /\ displayWidth s' = displayWidth s.
Proof.
  intros H.
  assert (E : stripAnsi s' = stripAnsi s).
  { induction H as [|p q c _ IH S Hs]; [reflexivity|].
    rewrite <- IH. now apply stripAnsi_insert. }
  split; [exact E|]. unfold displayWidth. now rewrite E.
Qed.

(** Two insertions into a string that has a span already: one at the very
    start of that span, one at the end of the string. *)
Lemma displayWidth_insertSpans_witness :
  displayWidth
    (lit "ab" ++ (ESC ++ lit "[1m") ++ (ESC ++ lit "[0;31m") ++ lit "cd"
       ++ (ESC ++ lit "[m"))
  = displayWidth (lit "ab" ++ (ESC ++ lit "[0;31m") ++ lit "cd").
Proof.
  refine (proj2 (displayWidth_insertSpans
                   (lit "ab" ++ (ESC ++ lit "[0;31m") ++ lit "cd") _ _)).
  apply (insert_one _ (lit "ab") _ (ESC ++ lit "[1m"));
    [|reflexivity|apply splitsSpan_false; reflexivity].
  apply (insert_one _ (lit "ab" ++ (ESC ++ lit "[0;31m") ++ lit "cd") []
                    (ESC ++ lit "[m"));
    [|reflexivity|apply splitsSpan_false; reflexivity].
  rewrite app_nil_r. apply insert_none.
Defined.

(** C8 as stated fails: a span put inside a span breaks it, and the pieces
    are printable. Here ESC [ 0 m goes between the bracket and the m of
    ESC [ m: the width goes from 0 to 3. *)
Lemma displayWidth_insert_inside_span :
  isSpan (ESC ++ lit "[0m")
  /\ displayWidth ((ESC ++ lit "[") ++ lit "m") = 0
  /\ displayWidth ((ESC ++ lit "[") ++ (ESC ++ lit "[0m") ++ lit "m") = 3.
Proof. repeat split. Qed.

(* ================================================================== *)
(** * Widgets: properties *)
(* ================================================================== *)

Open Scope Q_scope.

(** C9. [colorForPercent] returns the ok colour (green) exactly when
    [pct <= 50], the warn colour (yellow) exactly when [50 < pct <= 80] and
    the danger colour (red) exactly when [80 < pct], for every number: it
    is total and leaves a value outside [0,100] as it is (150 is red, -20
    is green). *)
Theorem colorForPercent_spec (pct : Q) :
  (colorForPercent pct = colors.green <-> pct <= 50)
  /\ (colorForPercent pct = colors.yellow <-> 50 < pct /\ pct <= 80)
  /\ (colorForPercent pct = colors.red <-> 80 < pct)
  /\ colorForPercent 150 = colors.red
  /\ colorForPercent (-20) = colors.green.
Proof.
  unfold colorForPercent.
  destruct (Qle_bool pct 50) eqn:H50; [|destruct (Qle_bool pct 80) eqn:H80].
  - apply Qle_bool_iff in H50.
    repeat split; try reflexivity; try discriminate; auto.
    + intros [H _]. exfalso. apply (Qlt_not_le _ _ H H50).
    + intros H. exfalso. apply (Qlt_not_le 80 pct H).
      apply Qle_trans with 50; [exact H50|discriminate].
  - apply Qle_bool_iff in H80.
    assert (L : 50 < pct).
    { apply Qnot_le_lt. intros C. apply Qle_bool_iff in C. congruence. }
    repeat split; try reflexivity; try discriminate; auto.
    + intros C. exfalso. apply (Qlt_not_le _ _ L C).
    + intros H. exfalso. apply (Qlt_not_le _ _ H H80).
  - assert (L : 80 < pct).
    { apply Qnot_le_lt. intros C. apply Qle_bool_iff in C. congruence. }
    repeat split; try reflexivity; try discriminate; auto.
    + intros C. exfalso. apply (Qlt_not_le 80 pct L).
      apply Qle_trans with 50; [exact C|discriminate].
    + intros [_ C]. exfalso. apply (Qlt_not_le _ _ L C).
Qed.

Close Scope Q_scope.





(* ================================================================== *)
(** * Rounding to binary64 stays below an integer bound *)
(* ================================================================== *)

Open Scope Q_scope.

Lemma inject_Z_nonneg z : (0 <= z)%Z -> 0 <= inject_Z z.
Proof. unfold Qle. simpl. lia. Qed.

Lemma inject_Z_pos z : (0 < z)%Z -> 0 < inject_Z z.
Proof. unfold Qlt. simpl. lia. Qed.

Lemma inject_Z_le a b : (a <= b)%Z <-> inject_Z a <= inject_Z b.
Proof. unfold Qle. simpl. lia. Qed.

Lemma inject_Z_lt a b : (a < b)%Z <-> inject_Z a < inject_Z b.
Proof. unfold Qlt. simpl. lia. Qed.

Lemma pow2_pos k : 0 < pow2 k.
Proof.
  unfold pow2. destruct (Z.leb_spec 0 k).
  - apply inject_Z_pos. apply Z.pow_pos_nonneg; lia.
  - reflexivity.
Qed.

Lemma pow2_inv k : (k <= 0)%Z -> pow2 k * inject_Z (2 ^ (- k)) == 1.
Proof.
  intros H. unfold pow2. destruct (Z.leb_spec 0 k).
  - replace k with 0%Z by lia. reflexivity.
  - assert (0 < 2 ^ (- k))%Z by (apply Z.pow_pos_nonneg; lia).
    unfold Qeq, Qmult, inject_Z. cbn [Qnum Qden].
    destruct (2 ^ (- k))%Z as [|p|p]; simpl; lia.
Qed.

Lemma roundHalfEven_bounds y M :
  0 <= y -> y <= inject_Z M -> (0 <= roundHalfEven y <= M)%Z.
Proof.
  intros H0 HM. unfold roundHalfEven.
  pose proof (Qfloor_le y) as Hf. pose proof (Qlt_floor y) as Hc.
  assert (F0 : (0 <= Qfloor y)%Z).
  { change 0%Z with (Qfloor 0). now apply Qfloor_resp_le. }
  assert (FM : (Qfloor y <= M)%Z).
  { rewrite <- (Qfloor_Z M). now apply Qfloor_resp_le. }
  assert (Up : inject_Z (Qfloor y) < y -> (Qfloor y + 1 <= M)%Z).
  { intros L. assert (inject_Z (Qfloor y) < inject_Z M) as L'
      by (eapply Qlt_le_trans; eauto).
    apply (proj2 (inject_Z_lt _ _)) in L'. lia. }
  destruct (Qcompare (y - inject_Z (Qfloor y)) (1 # 2)) eqn:C.
  - destruct (Z.even (Qfloor y)); [lia|].
    apply Qeq_alt in C. split; [lia|]. apply Up.
    apply Qlt_minus_iff. rewrite C. reflexivity.
  - lia.
  - apply Qgt_alt in C. split; [lia|]. apply Up.
    apply Qlt_minus_iff. eapply Qlt_trans; [|exact C]. reflexivity.
Qed.

Lemma ilog2_le x N :
  0 < x -> x <= inject_Z N -> (N < 2 ^ 53)%Z -> (ilog2 x <= 52)%Z.
Proof.
  intros Hx HN HB. unfold ilog2.
  destruct x as [n d]. unfold Qlt in Hx. unfold Qle in HN.
  cbn [Qnum Qden inject_Z] in *. rewrite Z.mul_1_r in Hx, HN.
  set (a := Z.log2 n). set (b := Z.log2 (Z.pos d)).
  destruct (Qle_bool (pow2 (a - b)) (n # d)) eqn:T.
  - destruct (Z.le_gt_cases (a - b) 52) as [|G]; [assumption|exfalso].
    apply Qle_bool_iff in T. unfold pow2 in T.
    destruct (Z.leb_spec 0 (a - b)); [|lia].
    assert (L : inject_Z (2 ^ (a - b)) <= inject_Z N).
    { eapply Qle_trans; [exact T|]. unfold Qle. simpl. lia. }
    apply (proj2 (inject_Z_le _ _)) in L.
    assert (2 ^ 53 <= 2 ^ (a - b))%Z by (apply Z.pow_le_mono_r; lia).
    lia.
  - destruct (Z.le_gt_cases (a - b - 1) 52) as [|G]; [assumption|exfalso].
    destruct (Z.log2_spec n Hx) as [An _]. fold a in An.
    destruct (Z.log2_spec (Z.pos d) ltac:(lia)) as [_ Bd]. fold b in Bd.
    assert (0 <= b)%Z by apply Z.log2_nonneg.
    assert (E : (2 ^ 53 * 2 ^ (Z.succ b) <= 2 ^ a)%Z).
    { rewrite <- Z.pow_add_r by lia. apply Z.pow_le_mono_r; lia. }
    assert (0 < 2 ^ (Z.succ b))%Z by (apply Z.pow_pos_nonneg; lia).
    nia.
Qed.

(** A number between 0 and an integer below 2^53 rounds to a number
    between the same two: both are binary64 numbers. *)
Lemma fl_range x N :
  0 <= x -> x <= inject_Z N -> (N < 2 ^ 53)%Z ->
  0 <= fl x /\ fl x <= inject_Z N.
Proof.
  intros H0 HN HB. unfold fl.
  assert (N0 : 0 <= inject_Z N) by (eapply Qle_trans; eauto).
  destruct (Qeq_bool x 0) eqn:Z0; [split; [apply Qle_refl|exact N0]|].
  assert (Hx : 0 < x).
  { apply Qle_lt_or_eq in H0 as [|E]; [assumption|].
    symmetry in E. apply Qeq_bool_iff in E. congruence. }
  assert (A : Qabs x = x).
  { destruct x as [n d]. unfold Qlt in Hx. simpl in Hx. unfold Qabs.
    f_equal. apply Z.abs_eq. lia. }
  rewrite A.
  assert (S : Qle_bool 0 x = true) by now apply Qle_bool_iff.
  rewrite S.
  pose proof (ilog2_le x N Hx HN HB) as HL.
  set (k := Z.max (ilog2 x - 52) (-1074)).
  assert (K : (k <= 0)%Z) by (unfold k; lia).
  pose proof (pow2_inv k K) as PI. pose proof (pow2_pos k) as PP.
  set (P := (2 ^ (- k))%Z) in *.
  assert (P0 : (0 < P)%Z) by (apply Z.pow_pos_nonneg; lia).
  assert (Y : x / pow2 k == x * inject_Z P).
  { rewrite <- (Qmult_1_r (x / pow2 k)), <- PI.
    rewrite Qmult_assoc. unfold Qdiv. rewrite <- (Qmult_assoc x).
    rewrite (Qmult_comm (/ pow2 k)), Qmult_inv_r; [now rewrite Qmult_1_r|].
    intros E. rewrite E in PP. discriminate. }
  assert (Y0 : 0 <= x / pow2 k).
  { rewrite Y. apply Qmult_le_0_compat; [exact H0|].
    apply inject_Z_nonneg. lia. }
  assert (YM : x / pow2 k <= inject_Z (N * P)).
  { rewrite Y, inject_Z_mult. apply Qmult_le_compat_r; [exact HN|].
    apply inject_Z_nonneg. lia. }
  destruct (roundHalfEven_bounds _ _ Y0 YM) as [M0 MM].
  set (m := roundHalfEven (x / pow2 k)) in *.
  rewrite Qmult_1_l. split.
  - apply Qmult_le_0_compat; [apply inject_Z_nonneg; exact M0|].
    now apply Qlt_le_weak.
  - apply Qle_trans with (inject_Z (N * P) * pow2 k).
    + apply Qmult_le_compat_r; [apply (proj1 (inject_Z_le _ _)); exact MM|now apply Qlt_le_weak].
    + rewrite inject_Z_mult, <- Qmult_assoc, (Qmult_comm (inject_Z P)), PI.
      rewrite Qmult_1_r. apply Qle_refl.
Qed.

(** The number of filled cells lies between 0 and the width. *)
Lemma filledCells_range pct w :
  0 <= pct -> pct <= 100 -> (0 <= w < 2 ^ 53)%Z ->
  0 <= js_mul (js_div pct 100) (inject_Z w)
  /\ (0 <= filledCells pct w <= w)%Z.
Proof.
  intros H0 H100 [W0 WB].
  assert (D : 0 <= js_div pct 100 /\ js_div pct 100 <= inject_Z 1).
  { apply fl_range; [| |reflexivity].
    - apply Qle_shift_div_l; [reflexivity|]. now rewrite Qmult_0_l.
    - apply Qle_shift_div_r; [reflexivity|]. exact H100. }
  destruct D as [D0 D1].
  assert (M : 0 <= js_mul (js_div pct 100) (inject_Z w)
              /\ js_mul (js_div pct 100) (inject_Z w) <= inject_Z w).
  { apply fl_range; [| |exact WB].
    - apply Qmult_le_0_compat; [exact D0|]. now apply inject_Z_nonneg.
    - rewrite <- (Qmult_1_l (inject_Z w)) at 2.
      apply Qmult_le_compat_r; [exact D1|]. now apply inject_Z_nonneg. }
  destruct M as [M0 M1]. split; [exact M0|].
  unfold filledCells, Math_round. split.
  - change 0%Z with (Qfloor 0). apply Qfloor_resp_le.
    rewrite <- (Qplus_0_r 0). apply Qplus_le_compat; [exact M0|discriminate].
  - assert (L : (Qfloor (js_mul (js_div pct 100) (inject_Z w) + (1 # 2))
                 < w + 1)%Z); [|lia].
    apply (proj2 (inject_Z_lt _ _)). eapply Qle_lt_trans; [apply Qfloor_le|].
    rewrite inject_Z_plus.
    rewrite (Qplus_comm _ (1 # 2)), (Qplus_comm (inject_Z w)).
    apply Qplus_lt_le_compat; [reflexivity|exact M1].
Qed.

Close Scope Q_scope.

(* ================================================================== *)
(** * progressBar *)
(* ================================================================== *)

Lemma isSpan_colorForPercent pct : isSpan (colorForPercent pct).
Proof.
  unfold colorForPercent.
  destruct (Qle_bool pct 50); [reflexivity|].
  destruct (Qle_bool pct 80); reflexivity.
Qed.

Lemma stripAnsi_barOf pct w f :
  stripAnsi (barOf pct w f)
  = repeat FULL_BLOCK (Z.to_nat f) ++ repeat LIGHT_SHADE (Z.to_nat (w - f)).
Proof.
  unfold barOf.
  rewrite (stripAnsi_span _ _ (isSpan_colorForPercent pct)).
  rewrite stripAnsi_app_inert by (apply isSpan_inert; reflexivity).
  rewrite stripAnsi_repeat by discriminate.
  rewrite stripAnsi_span by reflexivity.
  rewrite stripAnsi_app_inert by (cbn; repeat split; discriminate).
  rewrite stripAnsi_repeat by discriminate.
  change (stripAnsi ansi.reset) with (@nil N).
  now rewrite app_nil_r.
Qed.

Lemma roundHalfAway_nonneg x : (0 <= x)%Q -> roundHalfAway x = Math_round x.
Proof.
  intros H. unfold roundHalfAway, Math_round.
  apply Qle_bool_iff in H. now rewrite H.
Qed.

Lemma jslength_repeat c n : 0 <= n -> jslength (repeat c (Z.to_nat n)) = n.
Proof. intros H. unfold jslength. rewrite repeat_length. lia. Qed.

Lemma jslength_colorForPercent pct : jslength (colorForPercent pct) = 19.
Proof.
  unfold colorForPercent.
  destruct (Qle_bool pct 50); [reflexivity|].
  destruct (Qle_bool pct 80); reflexivity.
Qed.

Lemma repeatUnit_ok c n :
  0 <= n <= MAX_STRING_LENGTH ->
  repeatUnit c n = Ok (repeat c (Z.to_nat n)).
Proof.
  intros H. unfold repeatUnit.
  destruct (Z.ltb_spec n 0); [lia|].
  destruct (Z.ltb_spec MAX_STRING_LENGTH n); [lia|]. reflexivity.
Qed.

Lemma repeatUnit_negative c n : n < 0 -> repeatUnit c n = Throw (RangeError n).
Proof.
  intros H. unfold repeatUnit. destruct (Z.ltb_spec n 0); [reflexivity|lia].
Qed.

Lemma repeatUnit_long c n :
  MAX_STRING_LENGTH < n -> repeatUnit c n = Throw InvalidStringLength.
Proof.
  intros H. unfold repeatUnit.
  destruct (Z.ltb_spec n 0); [unfold MAX_STRING_LENGTH in H; lia|].
  destruct (Z.ltb_spec MAX_STRING_LENGTH n); [reflexivity|lia].
Qed.

Lemma strcat_ok a b :
  jslength a + jslength b <= MAX_STRING_LENGTH -> strcat a b = Ok (a ++ b).
Proof.
  intros H. unfold strcat.
  destruct (Z.ltb_spec MAX_STRING_LENGTH (jslength a + jslength b));
    [lia|reflexivity].
Qed.

Lemma strcat_long a b :
  MAX_STRING_LENGTH < jslength a + jslength b ->
  strcat a b = Throw InvalidStringLength.
Proof.
  intros H. unfold strcat.
  destruct (Z.ltb_spec MAX_STRING_LENGTH (jslength a + jslength b));
    [reflexivity|lia].
Qed.

(** What line 164 comes to, by the number [f] of filled cells: the first
    [repeat] and the two concatenations after it need [0 <= f] and room for
    [f] cells and the two colours (19 and 18 units), the second [repeat]
    and the last two concatenations [f <= w] and room for the whole bar,
    [w] cells and 41 units of escape codes. *)
Lemma progressBar_cases pct w :
  let f := filledCells pct w in
  progressBar pct w
  = if f <? 0 then Throw (RangeError f)
    else if MAX_STRING_LENGTH <? f + 37 then Throw InvalidStringLength
    else if w - f <? 0 then Throw (RangeError (w - f))
    else if MAX_STRING_LENGTH <? w + 41 then Throw InvalidStringLength
    else Ok (barOf pct w f).
Proof.
  intros f. unfold progressBar. fold f.
  pose proof (jslength_colorForPercent pct) as LC.
  assert (LD : jslength colors.dim = 18) by reflexivity.
  assert (LR : jslength ansi.reset = 4) by reflexivity.
  destruct (Z.ltb_spec f 0) as [F0|F0].
  { now rewrite repeatUnit_negative. }
  destruct (Z.ltb_spec MAX_STRING_LENGTH (f + 37)) as [F1|F1].
  { destruct (Z.lt_ge_cases MAX_STRING_LENGTH f) as [G|G].
    { now rewrite repeatUnit_long. }
    rewrite repeatUnit_ok by lia. cbn [bind].
    destruct (Z.lt_ge_cases MAX_STRING_LENGTH (19 + f)) as [G1|G1].
    { rewrite strcat_long; [reflexivity|]. rewrite LC, jslength_repeat; lia. }
    rewrite strcat_ok by (rewrite LC, jslength_repeat; lia). cbn [bind].
    rewrite strcat_long; [reflexivity|].
    rewrite jslength_app, LC, jslength_repeat, LD; lia. }
  rewrite repeatUnit_ok by lia. cbn [bind].
  rewrite strcat_ok by (rewrite LC, jslength_repeat; lia). cbn [bind].
  rewrite strcat_ok by (rewrite jslength_app, LC, jslength_repeat, LD; lia).
  cbn [bind].
  destruct (Z.ltb_spec (w - f) 0) as [E0|E0].
  { now rewrite repeatUnit_negative. }
  destruct (Z.ltb_spec MAX_STRING_LENGTH (w + 41)) as [E1|E1].
  { destruct (Z.lt_ge_cases MAX_STRING_LENGTH (w - f)) as [G|G].
    { now rewrite repeatUnit_long. }
    rewrite repeatUnit_ok by lia. cbn [bind].
    destruct (Z.lt_ge_cases MAX_STRING_LENGTH (37 + w)) as [G1|G1].
    { rewrite strcat_long; [reflexivity|].
      rewrite !jslength_app, LC, !jslength_repeat, LD; lia. }
    rewrite strcat_ok
      by (rewrite !jslength_app, LC, !jslength_repeat, LD; lia).
    cbn [bind]. rewrite strcat_long; [reflexivity|].
    rewrite !jslength_app, LC, !jslength_repeat, LD, LR; lia. }
  rewrite repeatUnit_ok by lia. cbn [bind].
  rewrite strcat_ok by (rewrite !jslength_app, LC, !jslength_repeat, LD; lia).
  cbn [bind].
  rewrite strcat_ok
    by (rewrite !jslength_app, LC, !jslength_repeat, LD, LR; lia).
  unfold barOf. now rewrite <- !app_assoc.
Qed.

(** Inside the range the two [repeat] calls get non-negative counts, and
    the bar is returned when it is not longer than the longest string. *)
Lemma progressBar_in_range pct w :
  (0 <= pct)%Q -> (pct <= 100)%Q -> 0 <= w < 2 ^ 53 ->
  0 <= filledCells pct w <= w
  /\ (w + 41 <= MAX_STRING_LENGTH ->
      progressBar pct w = Ok (barOf pct w (filledCells pct w)))
  /\ (MAX_STRING_LENGTH < w + 41 ->
      progressBar pct w = Throw InvalidStringLength).
Proof.
  intros H0 H100 HW.
  destruct (filledCells_range pct w H0 H100 HW) as [_ R].
  split; [exact R|].
  pose proof (progressBar_cases pct w) as C. cbv zeta in C. rewrite C.
  destruct (Z.ltb_spec (filledCells pct w) 0); [lia|].
  destruct (Z.ltb_spec (w - filledCells pct w) 0); [lia|].
  split; intros B.
  - destruct (Z.ltb_spec MAX_STRING_LENGTH (filledCells pct w + 37)); [lia|].
    destruct (Z.ltb_spec MAX_STRING_LENGTH (w + 41)); [lia|]. reflexivity.
  - destruct (Z.ltb_spec MAX_STRING_LENGTH (filledCells pct w + 37));
      [reflexivity|].
    destruct (Z.ltb_spec MAX_STRING_LENGTH (w + 41)); [reflexivity|lia].
Qed.

(** On the 25 cells of [render], 58 is the only whole percentage whose
    bar differs from the exactly rounded one. *)
Lemma filledCells_25_exact (p : Z) :
  0 <= p <= 100 -> p <> 58 ->
  filledCells (inject_Z p) 25 = exactFilled (inject_Z p) 25.
Proof.
  intros R D.
  assert (A : forallb (fun n => let q := inject_Z (Z.of_nat n) in
                         (Z.of_nat n =? 58)
                         || (filledCells q 25 =? exactFilled q 25))
                      (seq 0 101) = true) by (vm_compute; reflexivity).
  rewrite forallb_forall in A.
  specialize (A (Z.to_nat p)). rewrite Z2Nat.id in A by lia.
  cbv zeta in A.
  destruct (orb_true_iff (p =? 58) (filledCells (inject_Z p) 25
                                     =? exactFilled (inject_Z p) 25))
    as [H _].
  destruct H as [H|H].
  - apply A. apply in_seq. lia.
  - apply Z.eqb_eq in H. contradiction.
  - now apply Z.eqb_eq.
Qed.

(** C3, as amended. For a percentage in [0,100] and an integer width in
    [0, 2^53), the bar of [progressBar] has [width] cells: f full blocks in
    the colour of the percentage, then [width - f] shaded blocks in the dim
    colour, where f is the binary64 value of [(pct / 100) * width] rounded
    to the nearest integer, a tie going away from zero. The bar is
    returned when, with its 41 units of escape codes, it is not longer
    than the longest string of the engine; for a wider one [progressBar]
    throws the RangeError of an invalid string length. In particular
    (0, 20), (50, 20) and (100, 20) give 0, 10 and 20 full blocks; and on
    25 cells every whole percentage but 58 gets the number of full blocks
    that rounding the exact product gives. *)
Theorem progressBar_spec :
  (forall (pct : Q) (w : Z),
      (0 <= pct)%Q -> (pct <= 100)%Q -> 0 <= w < 2 ^ 53 ->
      let f := roundHalfAway (js_mul (js_div pct 100) (inject_Z w)) in
      0 <= f <= w
      /\ stripAnsi (barOf pct w f)
         = repeat FULL_BLOCK (Z.to_nat f)
             ++ repeat LIGHT_SHADE (Z.to_nat (w - f))
      /\ displayWidth (barOf pct w f) = w
      /\ (w + 41 <= MAX_STRING_LENGTH ->
          progressBar pct w = Ok (barOf pct w f))
      /\ (MAX_STRING_LENGTH < w + 41 ->
          progressBar pct w = Throw InvalidStringLength))
  /\ progressBar 0 20 = Ok (barOf 0 20 0)
  /\ progressBar 50 20 = Ok (barOf 50 20 10)
  /\ progressBar 100 20 = Ok (barOf 100 20 20)
  /\ progressBar 50 (2 ^ 29) = Throw InvalidStringLength
  /\ (forall p : Z,
        0 <= p <= 100 -> p <> 58 ->
        filledCells (inject_Z p) 25 = exactFilled (inject_Z p) 25).
Proof.
  split; [|split; [reflexivity|split; [reflexivity|split; [reflexivity|]]]].
  2:{ split; [|apply filledCells_25_exact].
      apply (progressBar_in_range 50 (2 ^ 29)); [discriminate|discriminate| |];
        unfold MAX_STRING_LENGTH; lia. }
  intros pct w H0 H100 HW f.
  destruct (filledCells_range pct w H0 H100 HW) as [V0 R].
  assert (E : filledCells pct w = f).
  { unfold f. now rewrite roundHalfAway_nonneg. }
  destruct (progressBar_in_range pct w H0 H100 HW) as (_ & P & T).
  rewrite E in R, P. split; [exact R|]. split; [apply stripAnsi_barOf|].
  split; [|split; [exact P|exact T]].
  unfold displayWidth, jslength.
  rewrite stripAnsi_barOf, length_app, !repeat_length. lia.
Qed.

(** The bar of the specification's scenario: 42 percent on 25 cells. *)
Lemma progressBar_spec_witness :
  progressBar 42 25 = Ok (barOf 42 25 11)
  /\ displayWidth (barOf 42 25 11) = 25.
Proof.
  pose proof (proj1 progressBar_spec 42%Q 25
                ltac:(discriminate) ltac:(discriminate) ltac:(lia)) as H.
  cbv zeta in H. destruct H as (_ & _ & D & P & _).
  split; [apply P; vm_compute; discriminate|exact D].
Defined.

(** C3 as stated fails at 58 percent on 25 cells, the width [render]
    uses: 58/100 is not a binary64 number, the product with 25 falls just
    under 14.5, and the bar has 14 full blocks where round (58/100 * 25)
    is 15. The kernel's binary64 arithmetic gives the same product. *)
Lemma progressBar_58_of_25 :
  exactFilled 58 25 = 15
  /\ filledCells 58 25 = 14
  /\ progressBar 58 25 = Ok (barOf 58 25 14)
  /\ agrees_with_binary64 58 25 = true
  /\ PrimFloat.ltb (float_fraction 58 25) 14.5%float = true.
Proof. repeat split; vm_compute; reflexivity. Qed.

(** [fl] against the kernel's floats on every whole percentage and every
    width up to 72, the widest panel. *)
Lemma fl_agrees_with_binary64 :
  forallb (fun w => forallb (fun p => agrees_with_binary64 (Z.of_nat p) (Z.of_nat w))
                            (seq 0 101))
          (seq 0 73) = true.
Proof. vm_compute. reflexivity. Qed.

(* ================================================================== *)
(** * The Rate Limits section *)
(* ================================================================== *)




Lemma drawSeparator_ok width :
  2 <= width <= MAX_STRING_LENGTH ->
  drawSeparator width
  = Ok (colors.separator ++ repeat BOX_H (Z.to_nat (width - 2)) ++ ansi.reset).
Proof.
  intros H. unfold drawSeparator.
  rewrite repeatUnit_ok by lia. reflexivity.
Qed.

Lemma drawSeparator_narrow width :
  width < 2 -> drawSeparator width = Throw (RangeError (width - 2)).
Proof.
  intros H. unfold drawSeparator.
  rewrite repeatUnit_negative by lia. reflexivity.
Qed.


(* ================================================================== *)
(** * The refresh controller *)
(* ================================================================== *)

Arguments render : simpl never.

Lemma jsstring_eqb_eq a b : jsstring_eqb a b = true <-> a = b.
Proof.
  unfold jsstring_eqb. destruct (list_eq_dec N.eq_dec a b); split;
    congruence.
Qed.

Lemma state_settle c o w : state (settle c o w) = state w.
Proof. destruct c, o; reflexivity. Qed.

Lemma calls_settle c o w : calls (settle c o w) = calls w.
Proof. destruct c, o; reflexivity. Qed.

Lemma inflight_settle c o w : inflight (settle c o w) = inflight w.
Proof. destruct c, o; reflexivity. Qed.

Lemma stdout_settle c o w : stdout (settle c o w) = stdout w.
Proof. destruct c, o; reflexivity. Qed.

Lemma refreshCount_refreshCatch now c e w :
  refreshCount (state (refreshCatch now c e w)) = refreshCount (state w).
Proof.
  unfold refreshCatch, renderOr.
  destruct (render _ _ _ _); rewrite state_settle; reflexivity.
Qed.

Lemma refreshCount_refreshStart now c w :
  refreshCount (state (refreshStart now c w)) = refreshCount (state w).
Proof.
  unfold refreshStart, renderOr.
  destruct (render _ _ _ _); [reflexivity|]. now rewrite state_settle.
Qed.

Lemma stage_refreshStart now c w :
  stage w <> NotStarted -> stage (refreshStart now c w) <> NotStarted.
Proof.
  unfold refreshStart, renderOr.
  destruct (render _ _ _ _); [auto|]. destruct c; simpl; auto.
Qed.

(** What a painted start of [refresh] leaves: one more suspended refresh
    and one more call of [getCredentials]. *)
Lemma refreshStart_painted now c w frames :
  render (termCols w) (termRows w) now (loadingView (state w)) = Ok frames ->
  refreshStart now c w
  = setInflight (inflight w ++ [{| phase := AwaitCredentials; caller := c |}])
      (call GetCredentials
         (writeStdout frames (setView (loadingView (state w)) w))).
Proof.
  intros H. unfold refreshStart, renderOr.
  fold (loadingView (state w)). now rewrite H.
Qed.

Section Runs.

Variable JSON_parse : jsstring -> option RpcMessage.

Lemma refreshCount_onStdin now key w :
  refreshCount (state (onStdin JSON_parse now key w)) = refreshCount (state w).
Proof.
  unfold onStdin, onEnvelope, onModeKey, renderOr.
  destruct (startsWith SENTINEL key).
  - destruct (JSON_parse _) as [[[m|] [p|]]|]; try reflexivity.
    cbn [method params]. destruct (jsstring_eqb m _); [|reflexivity].
    cbn [setSize state termCols termRows].
    destruct (render _ _ _ _); reflexivity.
  - destruct (_ || _); [apply refreshCount_refreshStart|].
    destruct (_ || _); [reflexivity|].
    repeat (destruct (jsstring_eqb key _);
            [destruct (render _ _ _ _); reflexivity|]).
    reflexivity.
Qed.

Lemma stage_onStdin now key w :
  stage w = Listening -> stage (onStdin JSON_parse now key w) = Listening.
Proof.
  intros L. unfold onStdin, onEnvelope, onModeKey, refreshStart, renderOr.
  destruct (startsWith SENTINEL key).
  - destruct (JSON_parse _) as [[[m|] [p|]]|]; try assumption.
    cbn [method params]. destruct (jsstring_eqb m _); [|assumption].
    cbn [setSize state termCols termRows].
    destruct (render _ _ _ _); assumption.
  - destruct (_ || _); [destruct (render _ _ _ _); assumption|].
    destruct (_ || _); [assumption|].
    repeat (destruct (jsstring_eqb key _);
            [destruct (render _ _ _ _); assumption|]).
    assumption.
Qed.

(** One turn adds one to [refreshCount] when it is the completion of a
    fetch, and nothing otherwise. *)
Lemma step_refreshCount w ev w' :
  fresh w -> step JSON_parse w ev = Some w' ->
  fresh w'
  /\ refreshCount (state w')
     = refreshCount (state w)
       + match ev with UsageReady _ _ _ => 1 | _ => 0 end.
Proof.
  unfold fresh, step. intros F.
  destruct (exited w); [discriminate|].
  destruct ev as [now|now c e|now i tok|now i d|now|now key|].
  - destruct (stage w) eqn:S; try discriminate. intros [= <-].
    destruct (F eq_refl) as [F0 F1].
    unfold renderOr. destruct (render _ _ _ _); cbn; (split; [|lia]).
    + intros C. discriminate C.
    + intros _. split; [reflexivity|exact F1].
  - destruct (stage w) eqn:S; try discriminate. intros [= <-].
    rewrite refreshCount_refreshStart. cbn. split; [|lia].
    intros C. exfalso. revert C. apply stage_refreshStart. discriminate.
  - destruct (nth_error (inflight w) i) as [[[|tk] c]|] eqn:N; try discriminate.
    intros [= <-].
    assert (S : stage w <> NotStarted).
    { intros C. destruct (F C) as [_ I]. rewrite I in N.
      destruct i; discriminate. }
    unfold credentialsReady, renderOr. destruct (falsyToken tok).
    + destruct (render _ _ _ _).
      * rewrite state_settle. cbn. split; [|lia].
        destruct c; cbn; intros C; congruence.
      * rewrite refreshCount_refreshCatch. cbn. split; [|lia].
        unfold refreshCatch, renderOr. destruct (render _ _ _ _);
          destruct c; cbn; intros C; congruence.
    + cbn. split; [|lia]. intros C; congruence.
  - destruct (nth_error (inflight w) i) as [[[|tk] c]|] eqn:N; try discriminate.
    intros [= <-].
    assert (S : stage w <> NotStarted).
    { intros C. destruct (F C) as [_ I]. rewrite I in N.
      destruct i; discriminate. }
    unfold usageReady, renderOr. destruct (render _ _ _ _).
    + rewrite state_settle. cbn. split; [|lia].
      destruct c; cbn; intros C; congruence.
    + rewrite refreshCount_refreshCatch. cbn. split; [|lia].
      unfold refreshCatch, renderOr. destruct (render _ _ _ _);
        destruct c; cbn; intros C; congruence.
  - destruct (stage w) eqn:S; try discriminate.
    destruct (timerOn w); [|discriminate]. intros [= <-].
    rewrite refreshCount_refreshStart. split; [|lia].
    intros C. exfalso. revert C. apply stage_refreshStart. congruence.
  - destruct (stage w) eqn:S; try discriminate. intros [= <-].
    rewrite refreshCount_onStdin. split; [|lia].
    rewrite (stage_onStdin now key w S). discriminate.
  - destruct (stage w) eqn:S; try discriminate. intros [= <-].
    cbn. split; [|lia]. rewrite S. discriminate.
Qed.

Lemma completedFetches_cons ev evs :
  completedFetches (ev :: evs)
  = match ev with UsageReady _ _ _ => 1 | _ => 0 end + completedFetches evs.
Proof. destruct ev; reflexivity. Qed.

Lemma run_refreshCount evs : forall w w',
  fresh w -> run JSON_parse w evs = Some w' ->
  refreshCount (state w') = refreshCount (state w) + completedFetches evs.
Proof.
  induction evs as [|ev evs IH]; intros w w' F.
  - simpl. intros [= <-]. lia.
  - rewrite completedFetches_cons. cbn [run].
    destruct (step JSON_parse w ev) as [w1|] eqn:S; [|discriminate].
    destruct (step_refreshCount _ _ _ F S) as [F1 E1].
    intros R. rewrite (IH _ _ F1 R), E1. lia.
Qed.

End Runs.

(** C1, as amended. [refresh] has no guard. A key r or R, or a tick of the
    timer, that reaches the listening process starts one more [refresh()]
    whatever is in flight already: when the loading view can be painted,
    one more refresh is suspended at [getCredentials], which was called
    once more, and [refreshCount] is as before. Over any run of the
    process [refreshCount] is the number of fetches that completed: one
    per refresh that got a credential and came back from its fetch, none
    per trigger. *)
Theorem refresh_not_guarded (JSON_parse : jsstring -> option RpcMessage) :
  (forall w ev now c frames,
      trigger ev = Some (now, c) ->
      stage w = Listening -> exited w = None ->
      (c = ByTimer -> timerOn w = true) ->
      render (termCols w) (termRows w) now (loadingView (state w)) = Ok frames ->
      exists w',
        step JSON_parse w ev = Some w'
        /\ inflight w'
           = inflight w ++ [{| phase := AwaitCredentials; caller := c |}]
        /\ length (inflight w') = S (length (inflight w))
        /\ calls w' = calls w ++ [GetCredentials]
        /\ stdout w' = stdout w ++ frames
        /\ refreshCount (state w') = refreshCount (state w))
  /\ (forall c r evs w,
        run JSON_parse (initWorld c r) evs = Some w ->
        refreshCount (state w) = completedFetches evs).
Proof.
  split.
  - intros w ev now c frames T L X Tm R.
    exists (refreshStart now c w).
    rewrite (refreshStart_painted now c w frames R). cbn.
    repeat split; try reflexivity.
    + unfold step. rewrite X.
      destruct ev as [| | | |t|t key|]; try discriminate; unfold trigger in T.
      * injection T as -> <-. rewrite L, (Tm eq_refl).
        rewrite (refreshStart_painted now ByTimer w frames R). reflexivity.
      * destruct (jsstring_eqb key (lit "r") || jsstring_eqb key (lit "R"))
          eqn:K; [|discriminate].
        injection T as -> <-. rewrite L. unfold onStdin.
        assert (S : startsWith SENTINEL key = false).
        { apply orb_true_iff in K as [K|K]; apply jsstring_eqb_eq in K;
            subst key; reflexivity. }
        rewrite S, K, (refreshStart_painted now ByKey w frames R). reflexivity.
    + rewrite length_app. simpl. lia.
  - intros c r evs w R.
    assert (F : fresh (initWorld c r)) by (intros _; split; reflexivity).
    rewrite (run_refreshCount JSON_parse evs _ _ F R). reflexivity.
Qed.

(** A key r while the timer's refresh is in flight: two are in flight. *)
Lemma refresh_not_guarded_witness :
  refreshing = Some (theWorld refreshing)
  /\ length (inflight (theWorld refreshing)) = 1%nat
  /\ exists w',
       step hostParse (theWorld refreshing) (Stdin 61400 (lit "r")) = Some w'
       /\ length (inflight w') = 2%nat.
Proof.
  split; [vm_compute; reflexivity|]. split; [vm_compute; reflexivity|].
  pose (frames :=
    match render 80 24 61400 (loadingView (state (theWorld refreshing))) with
    | Ok f => f
    | Throw _ => []
    end).
  assert (T : trigger (Stdin 61400 (lit "r")) = Some (61400, ByKey))
    by (vm_compute; reflexivity).
  assert (L : stage (theWorld refreshing) = Listening)
    by (vm_compute; reflexivity).
  assert (X : exited (theWorld refreshing) = None)
    by (vm_compute; reflexivity).
  assert (R : render (termCols (theWorld refreshing))
                (termRows (theWorld refreshing)) 61400
                (loadingView (state (theWorld refreshing))) = Ok frames)
    by (vm_compute; reflexivity).
  assert (E : length (inflight (theWorld refreshing)) = 1%nat)
    by (vm_compute; reflexivity).
  destruct (proj1 (refresh_not_guarded hostParse) _ _ _ _ _
              T L X ltac:(discriminate) R) as (w' & S & _ & Ln & _).
  exists w'. split; [exact S|]. rewrite E in Ln. exact Ln.
Defined.

(** C1 as stated fails: a key r, a tick of the timer and a key R, while
    no refresh comes back, leave three refreshes in flight: two of them
    wait for their own call of [fetchUsageLimits] at the same time, the
    third for [getCredentials]. *)
Lemma three_refreshes_in_flight :
  exists w,
    reachable hostParse w
    /\ exited w = None
    /\ inflight w
       = [ {| phase := AwaitFetch (lit "token"); caller := ByKey |};
           {| phase := AwaitFetch (lit "token"); caller := ByTimer |};
           {| phase := AwaitCredentials; caller := ByKey |} ]
    /\ calls w = [GetCredentials; FetchUsageLimits (lit "token");
                  GetCredentials; GetCredentials;
                  FetchUsageLimits (lit "token");
                  FetchUsageLimits (lit "token"); GetCredentials].
Proof.
  exists (theWorld (run hostParse (initWorld 80 24) overlapTrace)).
  split; [exists 80, 24, overlapTrace; vm_compute; reflexivity|].
  split; [vm_compute; reflexivity|].
  split; vm_compute; reflexivity.
Qed.

(** The branch without credentials when the view can be painted: the error
    text, the frame, and nothing else; the fetch is not called. *)
Lemma refresh_no_credentials JSON_parse w now i c token frames :
  exited w = None ->
  nth_error (inflight w) i = Some {| phase := AwaitCredentials; caller := c |} ->
  falsyToken token = true ->
  render (termCols w) (termRows w) now (noCredentialsView (state w)) = Ok frames ->
  exists w',
    step JSON_parse w (CredentialsReady now i token) = Some w'
    /\ state w' = noCredentialsView (state w)
    /\ error (state w') = Some (lit "No credentials found")
    /\ loading (state w') = false
    /\ data (state w') = data (state w)
    /\ lastRefresh (state w') = lastRefresh (state w)
    /\ refreshCount (state w') = refreshCount (state w)
    /\ stdout w' = stdout w ++ frames
    /\ calls w' = calls w
    /\ inflight w' = removeNth i (inflight w).
Proof.
  intros X N F R. unfold step. rewrite X, N.
  eexists. split; [reflexivity|].
  unfold credentialsReady, renderOr. rewrite F.
  cbn [setInflight state termCols termRows].
  fold (noCredentialsView (state w)). rewrite R.
  rewrite state_settle, stdout_settle, calls_settle, inflight_settle.
  repeat split.
Qed.

(** C5 on a terminal that shrank to one column while [getCredentials] was
    pending: the branch without credentials sets its error text and calls
    [render], which throws in [drawBox] (a negative count for [repeat]);
    the [catch] of [refresh] replaces the error text, and its own [render]
    throws again. Nothing is painted, the error is not the text of the
    branch, and it is the other text that the panel shows once the
    terminal is wide again. *)
Theorem no_credentials_on_one_column :
  exists w0 w,
    run hostParse (initWorld 80 24) (removelast shrinkTrace) = Some w0
    /\ step hostParse w0 (CredentialsReady 61302 0 None) = Some w
    /\ reachable hostParse w
    /\ nth_error (inflight w0) 0
       = Some {| phase := AwaitCredentials; caller := ByTimer |}
    /\ termCols w0 = 1
    /\ error (state w) = Some (lit "Failed to fetch: Invalid count value: -1")
    /\ loading (state w) = false
    /\ stdout w = stdout w0
    /\ calls w = calls w0
    /\ exited w = None
    /\ viewLines 72 61400 (state w)
       = Ok [ []; titleLine 72; [];
              centerText (colors.red
                            ++ lit "Failed to fetch: Invalid count value: -1"
                            ++ ansi.reset) 72;
              [];
              centerText (colors.dim ++ lit "[r] Refresh  [ESC] Close"
                            ++ ansi.reset) 72;
              [] ].
Proof.
  exists (theWorld (run hostParse (initWorld 80 24) (removelast shrinkTrace))).
  exists (theWorld (run hostParse (initWorld 80 24) shrinkTrace)).
  split; [vm_compute; reflexivity|]. split; [vm_compute; reflexivity|].
  split; [exists 80, 24, shrinkTrace; vm_compute; reflexivity|].
  split; [vm_compute; reflexivity|]. split; [vm_compute; reflexivity|].
  split; [vm_compute; reflexivity|]. split; [vm_compute; reflexivity|].
  split; [vm_compute; reflexivity|]. split; [vm_compute; reflexivity|].
  split; vm_compute; reflexivity.
Qed.

(* ================================================================== *)
(** * The host channel *)
(* ================================================================== *)

Section Envelopes.

Variable JSON_parse : jsstring -> option RpcMessage.

(** What no envelope touches. *)
Lemma onEnvelope_frame now key w :
  let w' := onEnvelope JSON_parse now key w in
  exited w' = exited w /\ state w' = state w /\ inflight w' = inflight w
  /\ calls w' = calls w /\ stderr w' = stderr w /\ timerOn w' = timerOn w.
Proof.
  unfold onEnvelope.
  destruct (JSON_parse _) as [[[m|] [p|]]|]; cbn [method params];
    try (repeat split; reflexivity).
  destruct (jsstring_eqb m _); [|repeat split; reflexivity].
  destruct (render _ _ _ _); repeat split; reflexivity.
Qed.

Lemma onEnvelope_resize now key w p :
  JSON_parse (trim (slice_from 12 key))
  = Some {| method := Some (lit "resize"); params := Some p |} ->
  let w1 := setSize (orElse (cols p) (termCols w))
                    (orElse (rows p) (termRows w)) w in
  onEnvelope JSON_parse now key w
  = match render (termCols w1) (termRows w1) now (state w) with
    | Ok frames => writeStdout frames w1
    | Throw _ => w1
    end.
Proof. intros H. unfold onEnvelope. rewrite H. reflexivity. Qed.

Lemma onEnvelope_ignored now key w :
  JSON_parse (trim (slice_from 12 key)) = None
  \/ (exists msg,
        JSON_parse (trim (slice_from 12 key)) = Some msg
        /\ (method msg <> Some (lit "resize") \/ params msg = None)) ->
  onEnvelope JSON_parse now key w = w.
Proof.
  unfold onEnvelope. intros [H|(msg & H & C)]; rewrite H; [reflexivity|].
  destruct msg as [[m|] [p|]]; cbn [method params] in *; try reflexivity.
  destruct (jsstring_eqb m (lit "resize")) eqn:E; [|reflexivity].
  apply jsstring_eqb_eq in E. subst m.
  destruct C as [C|C]; [now contradiction C|discriminate C].
Qed.

End Envelopes.

Lemma orElse_keeps v old : v = None \/ v = Some 0 -> orElse v old = old.
Proof. intros [->| ->]; reflexivity. Qed.

Lemma orElse_takes n old : n <> 0 -> orElse (Some n) old = n.
Proof.
  intros H. unfold orElse. destruct (Z.eqb_spec n 0); [contradiction|reflexivity].
Qed.

(** C6, as amended. A chunk that starts with the sentinel never changes
    the view state, the refreshes in flight or the timer, and never ends
    the process. When its message has the method resize and a [params]
    object, a size that is present and not 0 replaces the old one, a size
    that is absent or 0 leaves it, and [render] is called with the new
    size: its frame, when it returns one, is written. Every other
    envelope (text that is no JSON, another method, no [params]) leaves
    the process as it was, without a repaint. *)
Theorem stdin_envelope_spec (JSON_parse : jsstring -> option RpcMessage)
  (w : World) (now : Z) (key : jsstring) :
  stage w = Listening -> exited w = None -> startsWith SENTINEL key = true ->
  exists w',
    step JSON_parse w (Stdin now key) = Some w'
    /\ exited w' = None /\ state w' = state w /\ inflight w' = inflight w
    /\ calls w' = calls w /\ stderr w' = stderr w /\ timerOn w' = timerOn w
    /\ (forall p,
          JSON_parse (trim (slice_from 12 key))
          = Some {| method := Some (lit "resize"); params := Some p |} ->
          (cols p = None \/ cols p = Some 0 -> termCols w' = termCols w)
          /\ (forall n, cols p = Some n -> n <> 0 -> termCols w' = n)
          /\ (rows p = None \/ rows p = Some 0 -> termRows w' = termRows w)
          /\ (forall n, rows p = Some n -> n <> 0 -> termRows w' = n)
          /\ (forall frames,
                render (termCols w') (termRows w') now (state w) = Ok frames ->
                stdout w' = stdout w ++ frames))
    /\ (JSON_parse (trim (slice_from 12 key)) = None -> w' = w)
    /\ (forall msg,
          JSON_parse (trim (slice_from 12 key)) = Some msg ->
          method msg <> Some (lit "resize") \/ params msg = None -> w' = w).
Proof.
  intros L X S. exists (onEnvelope JSON_parse now key w).
  destruct (onEnvelope_frame JSON_parse now key w) as (F1 & F2 & F3 & F4 & F5 & F6).
  split; [unfold step, onStdin; now rewrite X, L, S|].
  split; [congruence|]. do 5 (split; [assumption|]).
  split; [|split].
  - intros p H. rewrite (onEnvelope_resize JSON_parse now key w p H).
    assert (C : forall w1, termCols
                 match render (termCols w1) (termRows w1) now (state w) with
                 | Ok frames => writeStdout frames w1
                 | Throw _ => w1
                 end = termCols w1
               /\ termRows
                 match render (termCols w1) (termRows w1) now (state w) with
                 | Ok frames => writeStdout frames w1
                 | Throw _ => w1
                 end = termRows w1).
    { intros w1. destruct (render _ _ _ _); split; reflexivity. }
    cbv zeta. destruct (C (setSize (orElse (cols p) (termCols w))
                            (orElse (rows p) (termRows w)) w)) as [-> ->].
    cbn [setSize termCols termRows]. repeat split.
    + apply orElse_keeps.
    + intros n -> D. now apply orElse_takes.
    + apply orElse_keeps.
    + intros n -> D. now apply orElse_takes.
    + intros frames R. rewrite R. reflexivity.
  - intros H. apply onEnvelope_ignored. now left.
  - intros msg H C. apply onEnvelope_ignored. right. now exists msg.
Qed.

(** A resize to 100 x 30 on the started process. *)
Lemma stdin_envelope_spec_witness :
  booted = Some (theWorld booted)
  /\ exists w',
       step hostParse (theWorld booted) (Stdin 61301 (resizeTo 100 30)) = Some w'
       /\ state w' = state (theWorld booted).
Proof.
  split; [vm_compute; reflexivity|].
  assert (L : stage (theWorld booted) = Listening)
    by (vm_compute; reflexivity).
  assert (X : exited (theWorld booted) = None) by (vm_compute; reflexivity).
  assert (S : startsWith SENTINEL (resizeTo 100 30) = true)
    by (vm_compute; reflexivity).
  destruct (stdin_envelope_spec hostParse (theWorld booted) 61301
              (resizeTo 100 30) L X S) as (w' & St & _ & V & _).
  exists w'. split; [exact St|exact V].
Defined.

(** C6 as stated fails: an envelope with the method resize and no [params]
    is not followed by a repaint; the process stays as it was. *)
Lemma resize_without_params :
  reachable hostParse (theWorld booted)
  /\ hostParse (trim (slice_from 12 resizeBare))
     = Some {| method := Some (lit "resize"); params := None |}
  /\ step hostParse (theWorld booted) (Stdin 61301 resizeBare)
     = Some (theWorld booted).
Proof.
  split; [exists 80, 24, bootTrace; vm_compute; reflexivity|].
  split; vm_compute; reflexivity.
Qed.
(* ================================================================== *)
(** * Text metrics: what stripping keeps *)
(* ================================================================== *)

Lemma stripAnsi_length_aux n : forall s,
  (length s <= n)%nat -> (length (stripAnsi s) <= length s)%nat.
Proof.
  induction n as [|n IH]; intros s L.
  - destruct s; [simp stripAnsi; simpl; lia|simpl in L; lia].
  - destruct s as [|c r]; [simp stripAnsi; simpl; lia|].
    rewrite stripAnsi_cons. destruct (matchSGR (c :: r)) as [rest|] eqn:M.
    + apply matchSGR_length in M. simpl in *.
      specialize (IH rest ltac:(lia)). lia.
    + simpl in *. specialize (IH r ltac:(lia)). lia.
Qed.

Lemma stripAnsi_length s : (length (stripAnsi s) <= length s)%nat.
Proof. apply (stripAnsi_length_aux (length s)). lia. Qed.

Lemma stripAnsi_plain s : ~ In 27%N s -> stripAnsi s = s.
Proof.
  induction s as [|c r IH]; intros H; [now simp stripAnsi|].
  rewrite stripAnsi_cons.
  assert (M : matchSGR (c :: r) = None).
  { destruct r as [|b r']; [reflexivity|]. simpl.
    destruct (N.eqb_spec c 27) as [->|_]; [|reflexivity].
    exfalso. apply H. now left. }
  rewrite M, IH; [reflexivity|].
  intros I. apply H. now right.
Qed.

(** X1. Stripping only removes: the measured width is between 0 and the
    length of the string, and a string without the escape character is
    measured by its length. *)
Theorem displayWidth_bounds (s : jsstring) :
  0 <= displayWidth s <= jslength s
  /\ (~ In 27%N s -> stripAnsi s = s /\ displayWidth s = jslength s).
Proof.
  unfold displayWidth, jslength. pose proof (stripAnsi_length s) as L.
  split; [lia|].
  intros H. rewrite (stripAnsi_plain s H). split; reflexivity.
Qed.

Lemma stripAnsi_spaces_l n t : stripAnsi (spaces n ++ t) = spaces n ++ stripAnsi t.
Proof.
  unfold spaces. induction (Z.to_nat n) as [|k IH]; [reflexivity|].
  cbn [repeat app]. rewrite stripAnsi_cons.
  assert (M : matchSGR (32%N :: repeat 32%N k ++ t) = None).
  { destruct (repeat 32%N k ++ t); reflexivity. }
  rewrite M, IH. reflexivity.
Qed.

(** X2. Where the padding and the text together are not longer than the
    longest string of the engine, [centerText] puts floor((width - w) / 2)
    spaces before the text, [w] being its measured width, and none when
    that is negative: the text is never cut; when it fits, what is left of
    the width on its right is the same number of columns or one more. *)
Theorem centerText_spec (text : jsstring) (width : Z) :
  let w := displayWidth text in
  let pad := Z.max 0 ((width - w) / 2) in
  pad + jslength text <= MAX_STRING_LENGTH ->
  centerText text width = spaces pad ++ text
  /\ displayWidth (centerText text width) = w + pad
  /\ (width <= w + 1 -> centerText text width = text)
  /\ (w <= width -> pad <= width - w - pad <= pad + 1).
Proof.
  cbv zeta. intros _. unfold centerText, displayWidth.
  set (w := jslength (stripAnsi text)).
  set (pad := Z.max 0 ((width - w) / 2)).
  split; [reflexivity|]. split; [|split].
  - rewrite stripAnsi_spaces_l, jslength_app, jslength_spaces. fold w.
    unfold pad. lia.
  - intros H. assert (P : pad = 0).
    { unfold pad. assert ((width - w) / 2 < 1); [|lia].
      apply Z.div_lt_upper_bound; lia. }
    rewrite P. reflexivity.
  - intros H. unfold pad.
    pose proof (Z.div_mod (width - w) 2 ltac:(lia)).
    pose proof (Z.mod_pos_bound (width - w) 2 ltac:(lia)).
    assert (0 <= (width - w) / 2) by (apply Z.div_pos; lia). lia.
Qed.

(** The loading text of the panel on its 72 columns: 31 spaces before the
    10 characters, 31 columns after them. *)
Lemma centerText_spec_witness :
  centerText (colors.dim ++ lit "Loading..." ++ ansi.reset) 72
  = spaces 31 ++ colors.dim ++ lit "Loading..." ++ ansi.reset
  /\ displayWidth (centerText (colors.dim ++ lit "Loading..." ++ ansi.reset) 72)
     = 41.
Proof.
  assert (B : Z.max 0 ((72 - displayWidth (colors.dim ++ lit "Loading..."
                                             ++ ansi.reset)) / 2)
              + jslength (colors.dim ++ lit "Loading..." ++ ansi.reset)
              <= MAX_STRING_LENGTH) by (vm_compute; discriminate).
  destruct (centerText_spec (colors.dim ++ lit "Loading..." ++ ansi.reset) 72 B)
    as (E & D & _ & _).
  split; [exact E|exact D].
Defined.

Lemma jslength_firstn (s : jsstring) n :
  (n <= length s)%nat -> jslength (firstn n s) = Z.of_nat n.
Proof. intros H. unfold jslength. rewrite length_firstn. lia. Qed.

(** X3. [truncate] with a limit of 3 or more: a text that measures no more
    than the limit is returned as it is; a longer one is cut to its first
    [maxLen - 3] code units followed by three dots, which is [maxLen] code
    units and so measures at most [maxLen]. *)
Theorem truncate_spec (text : jsstring) (maxLen : Z) :
  (displayWidth text <= maxLen -> truncate text maxLen = text)
  /\ (maxLen < displayWidth text -> 3 <= maxLen ->
      truncate text maxLen
      = firstn (Z.to_nat (maxLen - 3)) text ++ lit "..."
      /\ jslength (truncate text maxLen) = maxLen
      /\ displayWidth (truncate text maxLen) <= maxLen).
Proof.
  unfold truncate, displayWidth. split.
  - intros H. destruct (Z.leb_spec (jslength (stripAnsi text)) maxLen); [reflexivity|lia].
  - intros H H3. destruct (Z.leb_spec (jslength (stripAnsi text)) maxLen); [lia|].
    unfold substring0. rewrite Z.max_r by lia.
    assert (L : jslength (firstn (Z.to_nat (maxLen - 3)) text ++ lit "...") = maxLen).
    { pose proof (stripAnsi_length text) as SL. unfold jslength in *.
      rewrite length_app, length_firstn. simpl. lia. }
    split; [reflexivity|]. split; [exact L|].
    pose proof (stripAnsi_length (firstn (Z.to_nat (maxLen - 3)) text ++ lit "...")) as SL.
    unfold jslength in *. lia.
Qed.
(* ================================================================== *)
(** * The box *)
(* ================================================================== *)






Lemma drawBox_ok lines width :
  2 <= width -> width - 2 <= MAX_STRING_LENGTH ->
  drawBox lines width
  = Ok ([colors.border ++ [BOX_TL] ++ repeat BOX_H (Z.to_nat (width - 2))
           ++ [BOX_TR] ++ ansi.reset]
          ++ map (boxRow width) lines
          ++ [colors.border ++ [BOX_BL] ++ repeat BOX_H (Z.to_nat (width - 2))
                ++ [BOX_BR] ++ ansi.reset]).
Proof.
  intros H B. unfold drawBox.
  rewrite repeatUnit_ok by lia. reflexivity.
Qed.


(* ================================================================== *)
(** * Rounding to binary64 keeps the side of a binary fraction *)
(* ================================================================== *)

Open Scope Q_scope.

Lemma pow2_Qpower k : pow2 k == 2 ^ k.
Proof.
  unfold pow2. destruct (Z.leb_spec 0 k) as [H|H].
  - now apply (Zpower_Qpower 2).
  - replace k with (- (- k))%Z at 2 by lia.
    rewrite Qpower_opp, <- (Zpower_Qpower 2) by lia.
    assert (P : (0 < 2 ^ (- k))%Z) by (apply Z.pow_pos_nonneg; lia).
    destruct (2 ^ (- k))%Z as [|p|p]; try lia. reflexivity.
Qed.

Lemma pow2_add a b : pow2 (a + b) == pow2 a * pow2 b.
Proof. rewrite !pow2_Qpower. now apply Qpower_plus. Qed.

Lemma pow2_le a b : (a <= b)%Z -> pow2 a <= pow2 b.
Proof.
  intros H. rewrite !pow2_Qpower. apply Qpower_le_compat_l; [exact H|discriminate].
Qed.

Lemma pow2_lt_inv a b : pow2 a < pow2 b -> (a < b)%Z.
Proof.
  rewrite !pow2_Qpower. intros H.
  apply Qpower_lt_compat_l_inv in H; [exact H|reflexivity].
Qed.

Lemma pow2_Z n : (0 <= n)%Z -> pow2 n == inject_Z (2 ^ n).
Proof.
  intros H. unfold pow2. destruct (Z.leb_spec 0 n); [reflexivity|lia].
Qed.

Lemma pow2_cancel a : pow2 a * pow2 (- a) == 1.
Proof. rewrite <- pow2_add, Z.add_opp_diag_r. reflexivity. Qed.

(** [pow2 (s - t)] against a fraction, by cross multiplication. *)
Lemma pow2_le_frac s t n d :
  (0 <= s)%Z -> (0 <= t)%Z -> (2 ^ s * Z.pos d <= n * 2 ^ t)%Z ->
  pow2 (s - t) <= n # d.
Proof.
  intros Hs Ht H.
  assert (T : 0 < pow2 t) by apply pow2_pos.
  assert (E : pow2 (s - t) == pow2 s / pow2 t).
  { unfold Z.sub. rewrite pow2_add. unfold Qdiv.
    apply Qmult_comp; [reflexivity|].
    rewrite <- (Qmult_1_l (/ pow2 t)), <- (pow2_cancel t).
    rewrite (Qmult_comm (pow2 t)), <- Qmult_assoc, Qmult_inv_r, Qmult_1_r;
      [reflexivity|].
    intros Z0. rewrite Z0 in T. discriminate. }
  rewrite E. apply Qle_shift_div_r; [exact T|].
  rewrite (pow2_Z s Hs), (pow2_Z t Ht).
  unfold Qle, Qmult, inject_Z. cbn [Qnum Qden]. lia.
Qed.

Lemma pow2_gt_frac s t n d :
  (0 <= s)%Z -> (0 <= t)%Z -> (n * 2 ^ t < 2 ^ s * Z.pos d)%Z ->
  n # d < pow2 (s - t).
Proof.
  intros Hs Ht H.
  assert (T : 0 < pow2 t) by apply pow2_pos.
  assert (E : pow2 (s - t) == pow2 s / pow2 t).
  { unfold Z.sub. rewrite pow2_add. unfold Qdiv.
    apply Qmult_comp; [reflexivity|].
    rewrite <- (Qmult_1_l (/ pow2 t)), <- (pow2_cancel t).
    rewrite (Qmult_comm (pow2 t)), <- Qmult_assoc, Qmult_inv_r, Qmult_1_r;
      [reflexivity|].
    intros Z0. rewrite Z0 in T. discriminate. }
  rewrite E. apply Qlt_shift_div_l; [exact T|].
  rewrite (pow2_Z s Hs), (pow2_Z t Ht).
  unfold Qlt, Qmult, inject_Z. cbn [Qnum Qden]. lia.
Qed.

(** [ilog2 x] is the exponent of the binade of [x]. *)
Lemma ilog2_spec x : 0 < x -> pow2 (ilog2 x) <= x /\ x < pow2 (ilog2 x + 1).
Proof.
  intros Hx. unfold ilog2. destruct x as [n d].
  unfold Qlt in Hx. cbn [Qnum Qden] in *. rewrite Z.mul_1_r in Hx.
  set (a := Z.log2 n). set (b := Z.log2 (Z.pos d)).
  destruct (Z.log2_spec n Hx) as [An An']. fold a in An, An'.
  destruct (Z.log2_spec (Z.pos d) ltac:(lia)) as [Bd Bd']. fold b in Bd, Bd'.
  assert (A0 : (0 <= a)%Z) by apply Z.log2_nonneg.
  assert (B0 : (0 <= b)%Z) by apply Z.log2_nonneg.
  assert (PA : (0 < 2 ^ a)%Z) by (apply Z.pow_pos_nonneg; lia).
  assert (PB : (0 < 2 ^ b)%Z) by (apply Z.pow_pos_nonneg; lia).
  assert (Lo : pow2 (a - b - 1) <= n # d).
  { replace (a - b - 1)%Z with (a - (b + 1))%Z by lia.
    apply pow2_le_frac; try lia.
    replace (b + 1)%Z with (Z.succ b) by lia. nia. }
  assert (Hi : n # d < pow2 (a - b + 1)).
  { replace (a - b + 1)%Z with (a + 1 - b)%Z by lia.
    apply pow2_gt_frac; try lia.
    replace (a + 1)%Z with (Z.succ a) by lia. nia. }
  destruct (Qle_bool (pow2 (a - b)) (n # d)) eqn:T.
  - apply Qle_bool_iff in T. split; [exact T|exact Hi].
  - split; [exact Lo|].
    replace (a - b - 1 + 1)%Z with (a - b)%Z by lia.
    apply Qnot_le_lt. intros L. apply Qle_bool_iff in L. congruence.
Qed.

Lemma roundHalfEven_le y M : y <= inject_Z M -> (roundHalfEven y <= M)%Z.
Proof.
  intros HM. unfold roundHalfEven.
  pose proof (Qfloor_le y) as Hf.
  assert (FM : (Qfloor y <= M)%Z).
  { rewrite <- (Qfloor_Z M). now apply Qfloor_resp_le. }
  assert (Up : inject_Z (Qfloor y) < y -> (Qfloor y + 1 <= M)%Z).
  { intros L. assert (inject_Z (Qfloor y) < inject_Z M) as L'
      by (eapply Qlt_le_trans; eauto).
    apply (proj2 (inject_Z_lt _ _)) in L'. lia. }
  destruct (Qcompare (y - inject_Z (Qfloor y)) (1 # 2)) eqn:C.
  - destruct (Z.even (Qfloor y)); [lia|].
    apply Qeq_alt in C. apply Up.
    apply Qlt_minus_iff. rewrite C. reflexivity.
  - lia.
  - apply Qgt_alt in C. apply Up.
    apply Qlt_minus_iff. eapply Qlt_trans; [|exact C]. reflexivity.
Qed.

Lemma roundHalfEven_ge y M : inject_Z M <= y -> (M <= roundHalfEven y)%Z.
Proof.
  intros HM. unfold roundHalfEven.
  assert (FM : (M <= Qfloor y)%Z).
  { rewrite <- (Qfloor_Z M). now apply Qfloor_resp_le. }
  destruct (Qcompare (y - inject_Z (Qfloor y)) (1 # 2));
    [destruct (Z.even (Qfloor y))| |]; lia.
Qed.

(** [fl] on a positive number, written out. *)
Lemma fl_pos x :
  0 < x ->
  fl x == inject_Z (roundHalfEven (x / pow2 (Z.max (ilog2 x - 52) (-1074))))
          * pow2 (Z.max (ilog2 x - 52) (-1074)).
Proof.
  intros Hx. unfold fl.
  destruct (Qeq_bool x 0) eqn:Z0.
  { apply Qeq_bool_iff in Z0. rewrite Z0 in Hx. discriminate. }
  assert (A : Qabs x = x).
  { destruct x as [n d]. unfold Qlt in Hx. simpl in Hx. unfold Qabs.
    f_equal. apply Z.abs_eq. lia. }
  rewrite A.
  assert (S : Qle_bool 0 x = true) by (apply Qle_bool_iff; now apply Qlt_le_weak).
  rewrite S. apply Qmult_1_l.
Qed.

Lemma Qdiv_le_compat a b c : 0 < c -> a <= b -> a / c <= b / c.
Proof.
  intros Hc H. unfold Qdiv. apply Qmult_le_compat_r; [exact H|].
  apply Qinv_le_0_compat. now apply Qlt_le_weak.
Qed.

Lemma pow2_neq0 k : ~ pow2 k == 0.
Proof. intros E. pose proof (pow2_pos k) as P. rewrite E in P. discriminate. Qed.

(** A binary fraction [m * 2^(-j)] divided by the unit [2^k] of a finer
    grid is an integer. *)
Lemma dyadic_on_grid m j k :
  (k <= - j)%Z ->
  inject_Z m * pow2 (- j) / pow2 k == inject_Z (m * 2 ^ (- j - k)).
Proof.
  intros H. rewrite inject_Z_mult, <- (pow2_Z (- j - k)) by lia.
  replace (- j)%Z with ((- j - k) + k)%Z at 1 by lia.
  rewrite pow2_add, Qmult_assoc. apply Qdiv_mult_l. apply pow2_neq0.
Qed.

Lemma dyadic_back m j k :
  (k <= - j)%Z ->
  inject_Z (m * 2 ^ (- j - k)) * pow2 k == inject_Z m * pow2 (- j).
Proof.
  intros H. rewrite inject_Z_mult, <- (pow2_Z (- j - k)) by lia.
  rewrite <- Qmult_assoc, <- pow2_add.
  replace (- j - k + k)%Z with (- j)%Z by lia. reflexivity.
Qed.

(** A binary fraction with a numerator below 2^53 is a binary64 number:
    rounding a number below it does not pass it. *)
Lemma fl_upper x m j :
  0 < x -> (0 < m < 2 ^ 53)%Z -> (0 <= j <= 1074)%Z ->
  x <= inject_Z m * pow2 (- j) -> fl x <= inject_Z m * pow2 (- j).
Proof.
  intros Hx [M0 MB] [J0 JB] H. rewrite (fl_pos x Hx).
  destruct (ilog2_spec x Hx) as [Lo _].
  set (e := ilog2 x) in *. set (k := Z.max (e - 52) (-1074)).
  assert (E : (e < 53 - j)%Z).
  { apply pow2_lt_inv. eapply Qle_lt_trans; [exact Lo|].
    eapply Qle_lt_trans; [exact H|].
    replace (53 - j)%Z with (53 + - j)%Z by lia. rewrite pow2_add.
    apply Qmult_lt_compat_r; [apply pow2_pos|].
    rewrite (pow2_Z 53) by lia. now apply (proj1 (inject_Z_lt _ _)). }
  assert (K : (k <= - j)%Z) by (unfold k; lia).
  assert (Y : x / pow2 k <= inject_Z (m * 2 ^ (- j - k))).
  { rewrite <- (dyadic_on_grid m j k K).
    apply Qdiv_le_compat; [apply pow2_pos|exact H]. }
  apply roundHalfEven_le in Y.
  rewrite <- (dyadic_back m j k K).
  apply Qmult_le_compat_r; [|apply Qlt_le_weak, pow2_pos].
  now apply (proj1 (inject_Z_le _ _)).
Qed.

(** ... and rounding a number above it does not pass it either. *)
Lemma fl_lower x m j :
  (0 < m < 2 ^ 53)%Z -> (0 <= j <= 1074)%Z ->
  inject_Z m * pow2 (- j) <= x -> inject_Z m * pow2 (- j) <= fl x.
Proof.
  intros [M0 MB] [J0 JB] H.
  assert (R0 : 0 < inject_Z m * pow2 (- j)).
  { apply Qmult_lt_0_compat; [now apply inject_Z_pos|apply pow2_pos]. }
  assert (Hx : 0 < x) by (eapply Qlt_le_trans; eauto).
  rewrite (fl_pos x Hx).
  destruct (ilog2_spec x Hx) as [Lo _].
  set (e := ilog2 x) in *. set (k := Z.max (e - 52) (-1074)).
  destruct (Z.le_gt_cases k (- j)) as [K|K].
  - assert (Y : inject_Z (m * 2 ^ (- j - k)) <= x / pow2 k).
    { rewrite <- (dyadic_on_grid m j k K).
      apply Qdiv_le_compat; [apply pow2_pos|exact H]. }
    apply roundHalfEven_ge in Y.
    rewrite <- (dyadic_back m j k K).
    apply Qmult_le_compat_r; [|apply Qlt_le_weak, pow2_pos].
    now apply (proj1 (inject_Z_le _ _)).
  - assert (Ke : k = (e - 52)%Z) by (unfold k in *; lia).
    assert (Y : inject_Z (2 ^ 52) <= x / pow2 k).
    { rewrite <- (pow2_Z 52) by lia.
      assert (D : pow2 52 == pow2 e / pow2 k).
      { replace e with (52 + k)%Z at 1 by lia.
        rewrite pow2_add. symmetry. apply Qdiv_mult_l. apply pow2_neq0. }
      rewrite D. apply Qdiv_le_compat; [apply pow2_pos|exact Lo]. }
    apply roundHalfEven_ge in Y.
    apply Qle_trans with (pow2 e).
    + apply Qle_trans with (pow2 (53 - j)).
      * replace (53 - j)%Z with (53 + - j)%Z by lia. rewrite pow2_add.
        apply Qmult_le_compat_r; [|apply Qlt_le_weak, pow2_pos].
        rewrite (pow2_Z 53) by lia. apply (proj1 (inject_Z_le _ _)). lia.
      * apply pow2_le. lia.
    + replace e with (52 + k)%Z at 1 by lia.
      rewrite pow2_add, (pow2_Z 52) by lia.
      apply Qmult_le_compat_r; [|apply Qlt_le_weak, pow2_pos].
      now apply (proj1 (inject_Z_le _ _)).
Qed.

Lemma Qopp_involutive_eq x : (- - x) = x.
Proof. destruct x as [n d]. unfold Qopp. cbn [Qnum Qden]. now rewrite Z.opp_involutive. Qed.

(** Rounding is symmetric. *)
Lemma fl_opp x : fl (- x) == - fl x.
Proof.
  unfold fl.
  destruct (Qeq_bool x 0) eqn:Z0.
  - assert (Z1 : Qeq_bool (- x) 0 = true).
    { apply Qeq_bool_iff. apply Qeq_bool_iff in Z0. rewrite Z0. reflexivity. }
    rewrite Z1. reflexivity.
  - assert (Z1 : Qeq_bool (- x) 0 = false).
    { destruct (Qeq_bool (- x) 0) eqn:T; [|reflexivity].
      apply Qeq_bool_iff in T.
      assert (x == 0) as T'.
      { rewrite <- (Qopp_involutive_eq x), T. reflexivity. }
      apply Qeq_bool_iff in T'. congruence. }
    rewrite Z1.
    assert (A : Qabs (- x) = Qabs x).
    { destruct x as [n d]. unfold Qabs, Qopp. cbn [Qnum Qden].
      now rewrite Z.abs_opp. }
    rewrite A.
    assert (X0 : ~ x == 0).
    { intros T. apply Qeq_bool_iff in T. congruence. }
    destruct (Qle_bool 0 x) eqn:P; destruct (Qle_bool 0 (- x)) eqn:N.
    + exfalso. apply Qle_bool_iff in P, N. apply X0.
      apply Qle_antisym; [|exact P].
      apply Qopp_le_compat in N. now rewrite Qopp_involutive_eq in N.
    + ring.
    + ring.
    + exfalso.
      assert (~ 0 <= x) as P' by (intros T; apply Qle_bool_iff in T; congruence).
      assert (~ 0 <= - x) as N' by (intros T; apply Qle_bool_iff in T; congruence).
      apply Qnot_le_lt in P'. apply N'.
      apply Qlt_le_weak in P'. apply Qopp_le_compat in P'. exact P'.
Qed.

Lemma fl_upper_neg x m j :
  (0 < m < 2 ^ 53)%Z -> (0 <= j <= 1074)%Z ->
  x <= - (inject_Z m * pow2 (- j)) -> fl x <= - (inject_Z m * pow2 (- j)).
Proof.
  intros Hm Hj H.
  rewrite <- (Qopp_involutive_eq x), fl_opp.
  apply Qopp_le_compat. apply fl_lower; [exact Hm|exact Hj|].
  apply Qopp_le_compat in H. now rewrite Qopp_involutive_eq in H.
Qed.

Close Scope Q_scope.
(* ================================================================== *)
(** * progressBar outside 0 .. 100 *)
(* ================================================================== *)

Lemma filledCells_25_above (p : Z) : 103 <= p -> 26 <= filledCells (inject_Z p) 25.
Proof.
  intros H. unfold filledCells, js_mul, js_div, Math_round.
  assert (Y : (inject_Z 131 * pow2 (- 7) <= fl (inject_Z p / 100))%Q).
  { apply (fl_lower _ 131 7); [split; reflexivity|lia|].
    apply Qle_shift_div_l; [reflexivity|].
    apply Qle_trans with (inject_Z 103); [discriminate|].
    now apply (proj1 (inject_Z_le _ _)). }
  assert (Z1 : (inject_Z 51 * pow2 (- 1) <= fl (fl (inject_Z p / 100) * inject_Z 25))%Q).
  { apply (fl_lower _ 51 1); [split; reflexivity|lia|].
    apply Qle_trans with (inject_Z 131 * pow2 (- 7) * inject_Z 25)%Q; [discriminate|].
    apply Qmult_le_compat_r; [exact Y|discriminate]. }
  change 26 with (Qfloor (inject_Z 51 * pow2 (- 1) + (1 # 2))).
  apply Qfloor_resp_le. apply Qplus_le_compat; [exact Z1|apply Qle_refl].
Qed.

Lemma filledCells_25_below (p : Z) : p <= -3 -> filledCells (inject_Z p) 25 <= -1.
Proof.
  intros H. unfold filledCells, js_mul, js_div, Math_round.
  assert (Y : (fl (inject_Z p / 100) <= - (inject_Z 3 * pow2 (- 7)))%Q).
  { apply (fl_upper_neg _ 3 7); [split; reflexivity|lia|].
    apply Qle_shift_div_r; [reflexivity|].
    apply Qle_trans with (inject_Z (-3)); [|discriminate].
    now apply (proj1 (inject_Z_le _ _)). }
  assert (Z1 : (fl (fl (inject_Z p / 100) * inject_Z 25)
                <= - (inject_Z 9 * pow2 (- 4)))%Q).
  { apply (fl_upper_neg _ 9 4); [split; reflexivity|lia|].
    apply Qle_trans with (- (inject_Z 3 * pow2 (- 7)) * inject_Z 25)%Q; [|discriminate].
    apply Qmult_le_compat_r; [exact Y|discriminate]. }
  change (-1) with (Qfloor (- (inject_Z 9 * pow2 (- 4)) + (1 # 2))).
  apply Qfloor_resp_le. apply Qplus_le_compat; [exact Z1|apply Qle_refl].
Qed.

(** From here on the count of full cells alone is more than a string can
    hold, with the 37 units of the two colours. *)
Lemma filledCells_25_large (p : Z) :
  2147483500 <= p -> 536870875 <= filledCells (inject_Z p) 25.
Proof.
  intros H. unfold filledCells, js_mul, js_div, Math_round.
  assert (Y : (inject_Z 21474835 * pow2 (- 0) <= fl (inject_Z p / 100))%Q).
  { apply (fl_lower _ 21474835 0); [split; reflexivity|lia|].
    apply Qle_shift_div_l; [reflexivity|].
    apply Qle_trans with (inject_Z 2147483500); [discriminate|].
    now apply (proj1 (inject_Z_le _ _)). }
  assert (Z1 : (inject_Z 536870875 * pow2 (- 0)
                <= fl (fl (inject_Z p / 100) * inject_Z 25))%Q).
  { apply (fl_lower _ 536870875 0); [split; reflexivity|lia|].
    apply Qle_trans with (inject_Z 21474835 * pow2 (- 0) * inject_Z 25)%Q;
      [discriminate|].
    apply Qmult_le_compat_r; [exact Y|discriminate]. }
  change 536870875
    with (Qfloor (inject_Z 536870875 * pow2 (- 0) + (1 # 2))).
  apply Qfloor_resp_le. apply Qplus_le_compat; [exact Z1|apply Qle_refl].
Qed.

(** Up to here the full cells and the two colours fit. *)
Lemma filledCells_25_moderate (p : Z) :
  0 <= p <= 2147483400 -> filledCells (inject_Z p) 25 <= 536870850.
Proof.
  intros H. unfold filledCells, js_mul, js_div, Math_round.
  assert (Y : (0 <= fl (inject_Z p / 100)
               /\ fl (inject_Z p / 100) <= inject_Z 21474834)%Q).
  { apply fl_range; [| |reflexivity].
    - apply Qle_shift_div_l; [reflexivity|]. rewrite Qmult_0_l.
      now apply inject_Z_nonneg.
    - apply Qle_shift_div_r; [reflexivity|].
      apply Qle_trans with (inject_Z 2147483400); [|discriminate].
      now apply (proj1 (inject_Z_le _ _)). }
  destruct Y as [Y0 Y1].
  assert (Z1 : (0 <= fl (fl (inject_Z p / 100) * inject_Z 25)
                /\ fl (fl (inject_Z p / 100) * inject_Z 25)
                   <= inject_Z 536870850)%Q).
  { apply fl_range; [| |reflexivity].
    - apply Qmult_le_0_compat; [exact Y0|discriminate].
    - apply Qle_trans with (inject_Z 21474834 * inject_Z 25)%Q;
        [|discriminate].
      apply Qmult_le_compat_r; [exact Y1|discriminate]. }
  change 536870850 with (Qfloor (inject_Z 536870850 + (1 # 2))).
  apply Qfloor_resp_le. apply Qplus_le_compat; [apply Z1|apply Qle_refl].
Qed.

Lemma progressBar_throws_low pct w :
  filledCells pct w < 0 ->
  progressBar pct w = Throw (RangeError (filledCells pct w)).
Proof.
  intros H. pose proof (progressBar_cases pct w) as C. cbv zeta in C.
  rewrite C. destruct (Z.ltb_spec (filledCells pct w) 0); [reflexivity|lia].
Qed.

Lemma progressBar_throws_high pct w :
  w < filledCells pct w ->  0 <= w ->
  progressBar pct w
  = if filledCells pct w + 37 <=? MAX_STRING_LENGTH
    then Throw (RangeError (w - filledCells pct w))
    else Throw InvalidStringLength.
Proof.
  intros H W. pose proof (progressBar_cases pct w) as C. cbv zeta in C.
  rewrite C. destruct (Z.ltb_spec (filledCells pct w) 0); [lia|].
  destruct (Z.ltb_spec MAX_STRING_LENGTH (filledCells pct w + 37));
    destruct (Z.leb_spec (filledCells pct w + 37) MAX_STRING_LENGTH);
    try lia; [reflexivity|].
  destruct (Z.ltb_spec (w - filledCells pct w) 0); [reflexivity|lia].
Qed.

Lemma progressBar_25_ok (p : Z) :
  -2 <= p <= 101 ->
  0 <= filledCells (inject_Z p) 25 <= 25
  /\ progressBar (inject_Z p) 25
     = Ok (barOf (inject_Z p) 25 (filledCells (inject_Z p) 25)).
Proof.
  intros H.
  destruct (Z.le_gt_cases 0 p) as [P|P]; [destruct (Z.le_gt_cases p 100) as [Q|Q]|].
  - destruct (progressBar_in_range (inject_Z p) 25) as (R & B & _).
    + now apply inject_Z_nonneg.
    + now apply (proj1 (inject_Z_le p 100)).
    + lia.
    + split; [exact R|]. apply B. unfold MAX_STRING_LENGTH. lia.
  - assert (p = 101) as -> by lia. split; [vm_compute; split; discriminate|].
    vm_compute. reflexivity.
  - assert (p = -2 \/ p = -1) as [-> | ->] by lia;
      (split; [vm_compute; split; discriminate|vm_compute; reflexivity]).
Qed.

(** X5. [progressBar] on a whole percentage and the 25 cells of the
    panel: it returns a bar for the percentages from -2 to 101, and for no
    other one. Below, the count of full cells is negative and the first
    [repeat] throws its RangeError. Above, the count of empty cells is
    negative and the second [repeat] throws it, unless the full cells are
    by then more than a string can hold: up to 2147483400 percent it is
    the RangeError of the negative count, from 2147483500 percent on that
    of an invalid string length. *)
Theorem progressBar_25_domain (p : Z) :
  let f := filledCells (inject_Z p) 25 in
  (-2 <= p <= 101 <->
   exists bar, progressBar (inject_Z p) 25 = Ok bar)
  /\ (p < -2 ->
      f < 0 /\ progressBar (inject_Z p) 25 = Throw (RangeError f))
  /\ (101 < p ->
      25 < f
      /\ progressBar (inject_Z p) 25
         = if f + 37 <=? MAX_STRING_LENGTH
           then Throw (RangeError (25 - f))
           else Throw InvalidStringLength)
  /\ (101 < p <= 2147483400 ->
      progressBar (inject_Z p) 25 = Throw (RangeError (25 - f)))
  /\ (2147483500 <= p ->
      progressBar (inject_Z p) 25 = Throw InvalidStringLength).
Proof.
  intros f.
  assert (Lo : p < -2 ->
      f < 0 /\ progressBar (inject_Z p) 25 = Throw (RangeError f)).
  { intros H. pose proof (filledCells_25_below p ltac:(lia)) as F.
    split; [unfold f; lia|]. apply progressBar_throws_low. lia. }
  assert (Hi : 101 < p ->
      25 < f
      /\ progressBar (inject_Z p) 25
         = if f + 37 <=? MAX_STRING_LENGTH
           then Throw (RangeError (25 - f))
           else Throw InvalidStringLength).
  { intros H.
    assert (F : 26 <= filledCells (inject_Z p) 25).
    { destruct (Z.eq_dec p 102) as [->|N]; [vm_compute; discriminate|].
      apply filledCells_25_above. lia. }
    split; [unfold f; lia|]. apply progressBar_throws_high; lia. }
  split; [|split; [exact Lo|split; [exact Hi|split]]].
  - split.
    + intros H. eexists. apply (progressBar_25_ok p H).
    + intros [bar B].
      destruct (Z.lt_ge_cases p (-2)) as [L|L].
      * destruct (Lo L) as [_ T]. congruence.
      * destruct (Z.lt_ge_cases 101 p) as [G|G]; [|lia].
        destruct (Hi G) as [_ T]. rewrite T in B.
        destruct (f + 37 <=? MAX_STRING_LENGTH); discriminate B.
  - intros [G M]. destruct (Hi G) as [_ T]. rewrite T.
    pose proof (filledCells_25_moderate p ltac:(lia)) as F. fold f in F.
    destruct (Z.leb_spec (f + 37) MAX_STRING_LENGTH) as [_|N];
      [reflexivity|unfold MAX_STRING_LENGTH in N; lia].
  - intros G. destruct (Hi ltac:(lia)) as [_ T]. rewrite T.
    pose proof (filledCells_25_large p G) as F. fold f in F.
    destruct (Z.leb_spec (f + 37) MAX_STRING_LENGTH) as [N|_];
      [unfold MAX_STRING_LENGTH in N; lia|reflexivity].
Qed.
(* ================================================================== *)
(** * When render returns *)
(* ================================================================== *)

Lemma windowLine_paintable label now w :
  paintable w = true -> windowLine label now w = Ok (lineFor now (label, w)).
Proof.
  unfold paintable, windowLine, lineFor, percentOf. cbn [fst snd].
  destruct (utilization w) as [u| |]; [|discriminate|discriminate].
  intros P. apply andb_true_iff in P as [P1 P2].
  apply Z.leb_le in P1, P2.
  destruct (progressBar_25_ok (Math_round u) ltac:(lia)) as [_ B].
  rewrite B. reflexivity.
Qed.

Lemma windowLine_unpaintable label now w :
  paintable w = false ->
  exists e, renderError e /\ windowLine label now w = Throw e.
Proof.
  unfold paintable, windowLine, renderError.
  destruct (utilization w) as [u| |].
  2:{ intros _. eexists. split; [|reflexivity]. right. left. eexists.
      reflexivity. }
  2:{ intros _. eexists. split; [|reflexivity]. right. left. eexists.
      reflexivity. }
  intros P. apply andb_false_iff in P.
  set (p := Math_round u) in *.
  destruct (Z.lt_ge_cases p (-2)) as [L|L].
  - pose proof (filledCells_25_below p ltac:(lia)) as F.
    exists (RangeError (filledCells (inject_Z p) 25)). split.
    + left. eexists. split; [|reflexivity]. lia.
    + rewrite progressBar_throws_low by lia. reflexivity.
  - assert (G : 101 < p).
    { destruct P as [P|P]; [apply Z.leb_gt in P; lia|apply Z.leb_gt in P; lia]. }
    assert (F : 26 <= filledCells (inject_Z p) 25).
    { destruct (Z.eq_dec p 102) as [->|N]; [vm_compute; discriminate|].
      apply filledCells_25_above. lia. }
    rewrite progressBar_throws_high by lia.
    destruct (filledCells (inject_Z p) 25 + 37 <=? MAX_STRING_LENGTH).
    + eexists. split; [|reflexivity]. left. eexists. split; [|reflexivity].
      lia.
    + eexists. split; [|reflexivity]. right. right. reflexivity.
Qed.

Lemma pushWindow_paintable label now o :
  paintableSlot o = true ->
  pushWindow label now o = Ok (map (lineFor now) (slot label o)).
Proof.
  destruct o as [w|]; simpl; intros V; [|reflexivity].
  now rewrite (windowLine_paintable label now w V).
Qed.

Lemma pushWindow_unpaintable label now o :
  paintableSlot o = false ->
  exists e, renderError e /\ pushWindow label now o = Throw e.
Proof.
  destruct o as [w|]; simpl; intros V; [|discriminate].
  destruct (windowLine_unpaintable label now w V) as (n & N & E).
  exists n. split; [exact N|]. now rewrite E.
Qed.

Lemma rateLimitLines_paintable now d :
  paintableData (Some d) = true ->
  rateLimitLines now (Some d)
  = Ok (match presentWindows d with
        | [] => [noDataLine]
        | ws => map (lineFor now) ws
        end).
Proof.
  intros P. cbn [paintableData] in P.
  apply andb_true_iff in P as [P PS]. apply andb_true_iff in P as [P5 P7].
  unfold rateLimitLines, presentWindows.
  rewrite (pushWindow_paintable LABEL_5H now _ P5),
    (pushWindow_paintable LABEL_7D now _ P7),
    (pushWindow_paintable LABEL_7DS now _ PS).
  destruct (five_hour d), (seven_day d), (seven_day_sonnet d); reflexivity.
Qed.

Lemma rateLimitLines_unpaintable now d :
  paintableData (Some d) = false ->
  exists e, renderError e /\ rateLimitLines now (Some d) = Throw e.
Proof.
  intros P. cbn [paintableData] in P. unfold rateLimitLines.
  destruct (paintableSlot (five_hour d)) eqn:P5.
  - rewrite (pushWindow_paintable LABEL_5H now _ P5). cbn [bind].
    destruct (paintableSlot (seven_day d)) eqn:P7.
    + rewrite (pushWindow_paintable LABEL_7D now _ P7). cbn [bind].
      cbn [andb] in P.
      destruct (pushWindow_unpaintable LABEL_7DS now _ P) as (n & N & E).
      exists n. split; [exact N|]. now rewrite E.
    + destruct (pushWindow_unpaintable LABEL_7D now _ P7) as (n & N & E).
      exists n. split; [exact N|]. now rewrite E.
  - destruct (pushWindow_unpaintable LABEL_5H now _ P5) as (n & N & E).
    exists n. split; [exact N|]. now rewrite E.
Qed.

(** A snapshot that reports the five-hour window alone. *)
Lemma rateLimitLines_five_hour now u e :
  windowLine LABEL_5H now {| utilization := u; resets_at := None |} = Throw e ->
  rateLimitLines now
    (Some {| five_hour := Some {| utilization := u; resets_at := None |};
             seven_day := None; seven_day_sonnet := None |})
  = Throw e.
Proof.
  intros E. unfold rateLimitLines, pushWindow. cbn [five_hour].
  rewrite E. reflexivity.
Qed.

Lemma windowLine_throws label now r u p e :
  Math_round u = p -> progressBar (inject_Z p) 25 = Throw e ->
  windowLine label now {| utilization := Finite u; resets_at := r |} = Throw e.
Proof.
  intros R E. unfold windowLine. cbn [utilization]. rewrite R, E. reflexivity.
Qed.

(** 10^10 percent: 2500000000 full cells. *)
Lemma progressBar_overlong :
  progressBar (inject_Z (10 ^ 10)) 25 = Throw InvalidStringLength.
Proof.
  pose proof (progressBar_throws_high (inject_Z (10 ^ 10)) 25) as T.
  assert (F : filledCells (inject_Z (10 ^ 10)) 25 = 2500000000)
    by (vm_compute; reflexivity).
  rewrite F in T. rewrite T by lia. reflexivity.
Qed.

(** X6. The Rate Limits section and utilizations outside 0 .. 100. A
    snapshot all of whose reported windows round to a percentage from -2
    to 101 gets its lines, one per reported window in the order of the
    panel, or the no-data line. With any other reported window the section
    throws a RangeError of the engine: that of [repeat] on a negative
    count of cells, that of [repeat] on an infinite count (a utilization
    read as an infinity), or that of an invalid string length (full cells
    beyond what a string holds). So 150 percent throws on the count -13,
    10^10 percent on the length of the string, an infinity on its count. *)
Theorem rateLimitLines_domain (now : Z) (d : Metrics) :
  (if paintableData (Some d) then
     rateLimitLines now (Some d)
     = Ok (match presentWindows d with
           | [] => [noDataLine]
           | ws => map (lineFor now) ws
           end)
   else
     exists e, renderError e /\ rateLimitLines now (Some d) = Throw e)
  /\ (forall u e,
        In (u, e) [ (Finite 150, RangeError (-13));
                    (Finite (-20), RangeError (-5));
                    (Finite (inject_Z (10 ^ 10)), InvalidStringLength);
                    (PlusInfinity, InfiniteCount false);
                    (MinusInfinity, InfiniteCount true) ] ->
        rateLimitLines now
          (Some {| five_hour := Some {| utilization := u; resets_at := None |};
                   seven_day := None; seven_day_sonnet := None |})
        = Throw e).
Proof.
  split.
  - destruct (paintableData (Some d)) eqn:P.
    + now apply rateLimitLines_paintable.
    + now apply rateLimitLines_unpaintable.
  - intros u e [H|[H|[H|[H|[H|[]]]]]]; inversion H; subst u e;
      apply rateLimitLines_five_hour.
    + apply (windowLine_throws _ _ _ _ 150); vm_compute; reflexivity.
    + apply (windowLine_throws _ _ _ _ (-20)); vm_compute; reflexivity.
    + apply (windowLine_throws _ _ _ _ (10 ^ 10)); [vm_compute; reflexivity|].
      apply progressBar_overlong.
    + reflexivity.
    + reflexivity.
Qed.


Lemma footerLines_ok width now st :
  5 <= width <= 72 -> exists ft, footerLines width now st = Ok ft.
Proof.
  intros H. unfold footerLines.
  rewrite (drawSeparator_ok (width - 3)) by (unfold MAX_STRING_LENGTH; lia).
  cbn [bind]. eexists. reflexivity.
Qed.

Lemma headerLines_ok width st :
  5 <= width <= 72 -> exists hd, headerLines width st = Ok hd.
Proof.
  intros H. unfold headerLines.
  rewrite (drawSeparator_ok (width - 3)) by (unfold MAX_STRING_LENGTH; lia).
  cbn [bind]. eexists. reflexivity.
Qed.

Lemma headerLines_throws width st :
  width < 5 -> headerLines width st = Throw (RangeError (width - 5)).
Proof.
  intros H. unfold headerLines.
  rewrite (drawSeparator_narrow (width - 3)) by lia.
  cbn [bind]. do 2 f_equal. lia.
Qed.

Lemma rateLimitLines_none now :
  exists rl, rateLimitLines now None = Ok rl.
Proof. eexists. reflexivity. Qed.

Lemma render_rateLimitLines_throws cols rows now st e :
  dataView st = true -> 5 <= cols ->
  rateLimitLines now (data st) = Throw e ->
  render cols rows now st = Throw e.
Proof.
  unfold dataView. intros D C R. apply andb_true_iff in D as [D1 D2].
  apply negb_true_iff in D1, D2.
  destruct (headerLines_ok (Z.min cols 72) st ltac:(lia)) as [hd H].
  unfold render, viewLines. rewrite D1, D2, H. cbn [bind]. rewrite R.
  reflexivity.
Qed.

(** The content lines, by view and width, on the widths of [render]. *)
Lemma viewLines_domain width now st :
  width <= 72 ->
  if dataView st then
    if 5 <=? width then
      if paintableData (data st) then exists lines, viewLines width now st = Ok lines
      else exists e, renderError e /\ viewLines width now st = Throw e
    else viewLines width now st = Throw (RangeError (width - 5))
  else exists lines, viewLines width now st = Ok lines.
Proof.
  intros W72. unfold dataView, viewLines.
  destruct (truthyStr (error st)); [eexists; reflexivity|].
  destruct (loading st); [eexists; reflexivity|]. cbn [negb andb].
  destruct (Z.leb_spec 5 width) as [W|W].
  - destruct (headerLines_ok width st ltac:(lia)) as [hd Hh].
    destruct (footerLines_ok width now st ltac:(lia)) as [ft Hf].
    rewrite Hh. cbn [bind].
    destruct (data st) as [d|].
    + destruct (paintableData (Some d)) eqn:P.
      * rewrite (rateLimitLines_paintable now d P). cbn [bind].
        rewrite Hf. cbn [bind]. eexists. reflexivity.
      * destruct (rateLimitLines_unpaintable now d P) as (n & N & E).
        exists n. split; [exact N|]. rewrite E. reflexivity.
    + cbn [paintableData]. destruct (rateLimitLines_none now) as [rl Hr].
      rewrite Hr. cbn [bind]. rewrite Hf. cbn [bind]. eexists. reflexivity.
  - rewrite (headerLines_throws width st W). reflexivity.
Qed.

Lemma render_of_lines cols rows now st lines :
  viewLines (Z.min cols 72) now st = Ok lines -> 2 <= cols ->
  exists frames,
    render cols rows now st = Ok frames
    /\ length frames = (length lines + 3)%nat
    /\ hd [] frames = ansi.clear ++ ansi.hideCursor.
Proof.
  intros V C. unfold render. rewrite V. cbn [bind].
  rewrite (drawBox_ok lines (Z.min cols 72))
    by (unfold MAX_STRING_LENGTH; lia).
  cbn [bind].
  eexists. split; [reflexivity|]. split; [|reflexivity].
  unfold paintRows. cbn [length]. rewrite length_map, length_combine, length_seq.
  rewrite Nat.min_id, !length_app, length_map. simpl. lia.
Qed.

(* ================================================================== *)
(** * Invariants of the process *)
(* ================================================================== *)

Lemma renderOr_ind (P : World -> Prop) now st w onThrow onOk :
  (forall frames,
      render (termCols w) (termRows w) now st = Ok frames ->
      P (onOk (writeStdout frames (setView st w)))) ->
  (forall e,
      render (termCols w) (termRows w) now st = Throw e ->
      P (onThrow e (setView st w))) ->
  P (renderOr now st w onThrow onOk).
Proof.
  intros HO HT. unfold renderOr. destruct (render _ _ _ _) eqn:E; auto.
Qed.

Lemma nth_error_split {A} (l : list A) i t :
  nth_error l i = Some t -> l = firstn i l ++ t :: skipn (S i) l.
Proof.
  revert i. induction l as [|a l IH]; intros [|i] H; try discriminate.
  - injection H as ->. reflexivity.
  - simpl in H. cbn [firstn skipn app]. f_equal. now apply IH.
Qed.

Lemma Forall_firstn_skipn {A} (P : A -> Prop) i l :
  Forall P l -> Forall P (firstn i l) /\ Forall P (skipn i l).
Proof.
  intros H. rewrite <- (firstn_skipn i l) in H. now apply Forall_app in H.
Qed.

Lemma Forall_removeNth {A} (P : A -> Prop) i l :
  Forall P l -> Forall P (removeNth i l).
Proof.
  intros H. unfold removeNth. apply Forall_app. split.
  - now apply Forall_firstn_skipn.
  - now apply Forall_firstn_skipn.
Qed.

Lemma Forall_replaceNth {A} (P : A -> Prop) i x l :
  Forall P l -> P x -> Forall P (replaceNth i x l).
Proof.
  intros H X. unfold replaceNth. apply Forall_app. split.
  - now apply Forall_firstn_skipn.
  - constructor; [exact X|now apply Forall_firstn_skipn].
Qed.

Lemma count_app {A} (f : A -> bool) a b : count f (a ++ b) = count f a + count f b.
Proof. unfold count. rewrite filter_app, length_app. lia. Qed.

Lemma count_cons {A} (f : A -> bool) x l :
  count f (x :: l) = (if f x then 1 else 0) + count f l.
Proof. unfold count. cbn [filter]. destruct (f x); cbn [length]; lia. Qed.

Lemma count_nonneg {A} (f : A -> bool) l : 0 <= count f l.
Proof. unfold count. lia. Qed.

Lemma count_removeNth {A} (f : A -> bool) i l t :
  nth_error l i = Some t ->
  count f (removeNth i l) = count f l - (if f t then 1 else 0).
Proof.
  intros H. rewrite (nth_error_split l i t H) at 2. unfold removeNth.
  rewrite !count_app, count_cons. lia.
Qed.

Lemma count_replaceNth {A} (f : A -> bool) i x l t :
  nth_error l i = Some t ->
  count f (replaceNth i x l)
  = count f l - (if f t then 1 else 0) + (if f x then 1 else 0).
Proof.
  intros H. rewrite (nth_error_split l i t H) at 2. unfold replaceNth.
  rewrite !count_app, !count_cons. lia.
Qed.

Lemma viewConsistent_loading st :
  viewConsistent st -> viewConsistent (withError None (withLoading true st)).
Proof. unfold viewConsistent. cbn. tauto. Qed.

Lemma viewConsistent_error st e :
  viewConsistent st -> viewConsistent (withLoading false (withError e st)).
Proof.
  unfold viewConsistent. cbn. intros (_ & H). split; [discriminate|exact H].
Qed.

Lemma viewConsistent_fetched st d now :
  viewConsistent st -> viewConsistent (withFetched d now st).
Proof.
  unfold viewConsistent. cbn. intros (_ & C & _). split; [discriminate|].
  split; [lia|]. split; [split; [discriminate|lia]|]. discriminate.
Qed.

Lemma viewConsistent_config st c e :
  viewConsistent st -> viewConsistent (withConfig c e st).
Proof. unfold viewConsistent. cbn. tauto. Qed.

Lemma viewConsistent_initial now : viewConsistent (initialState now).
Proof.
  unfold viewConsistent. cbn. repeat split; try reflexivity; try lia;
    try discriminate. intros H. now contradiction H.
Qed.

(** [kept] looks at the view state, the calls and the suspended refreshes
    only. *)
Lemma kept_core w w' :
  state w' = state w -> calls w' = calls w -> inflight w' = inflight w ->
  kept w -> kept w'.
Proof. unfold kept. intros -> -> ->. tauto. Qed.

Lemma kept_settle c o w : kept w -> kept (settle c o w).
Proof.
  apply kept_core; [apply state_settle|apply calls_settle|apply inflight_settle].
Qed.

Lemma kept_setView st w :
  viewConsistent st -> kept w -> kept (setView st w).
Proof. unfold kept. cbn. tauto. Qed.

Lemma kept_writeStdout frames w : kept w -> kept (writeStdout frames w).
Proof. apply kept_core; reflexivity. Qed.

Lemma kept_setError e w :
  kept w -> kept (setView (withLoading false (withError e (state w))) w).
Proof. intros K. apply kept_setView; [apply viewConsistent_error, K|exact K]. Qed.

Lemma kept_setFetched d now w :
  kept w -> kept (setView (withFetched d now (state w)) w).
Proof. intros K. apply kept_setView; [apply viewConsistent_fetched, K|exact K]. Qed.

Lemma kept_setConfig c e w :
  kept w -> kept (setView (withConfig c e (state w)) w).
Proof. intros K. apply kept_setView; [apply viewConsistent_config, K|exact K]. Qed.

Lemma kept_refreshCatch now c e w : kept w -> kept (refreshCatch now c e w).
Proof.
  intros K. unfold refreshCatch.
  apply renderOr_ind; intros; apply kept_settle.
  - apply kept_writeStdout, kept_setError, K.
  - apply kept_setError, K.
Qed.

Lemma kept_refreshStart now c w : kept w -> kept (refreshStart now c w).
Proof.
  intros K. unfold refreshStart.
  pose proof (kept_setView _ w (viewConsistent_loading _ (proj1 K)) K) as K1.
  apply renderOr_ind; intros.
  - destruct K1 as (V & C & I & J & F). unfold kept. cbn.
    split; [exact V|]. split.
    { apply Forall_app. split; [exact C|]. repeat constructor. }
    split.
    { apply Forall_app. split; [exact I|]. repeat constructor. }
    cbn in J, F. rewrite !count_app, !count_cons. cbn.
    change (count isFetch []) with 0. change (count isGet []) with 0.
    change (count awaitsCredentials []) with 0.
    change (count awaitsFetch []) with 0. lia.
  - now apply kept_settle.
Qed.

Lemma kept_removeNth i t w :
  nth_error (inflight w) i = Some t ->
  kept w -> kept (setInflight (removeNth i (inflight w)) w).
Proof.
  intros N (V & C & I & J & F). unfold kept. cbn.
  split; [exact V|]. split; [exact C|].
  split; [now apply Forall_removeNth|].
  rewrite !(count_removeNth _ i _ t N).
  destruct (awaitsCredentials t), (awaitsFetch t); lia.
Qed.

Lemma kept_toFetch i c tok w :
  nth_error (inflight w) i = Some {| phase := AwaitCredentials; caller := c |} ->
  tok <> [] ->
  kept w ->
  kept (setInflight
          (replaceNth i {| phase := AwaitFetch tok; caller := c |} (inflight w))
          (call (FetchUsageLimits tok) w)).
Proof.
  intros N T (V & C & I & J & F). unfold kept. cbn.
  split; [exact V|]. split.
  { apply Forall_app. split; [exact C|]. repeat constructor. exact T. }
  split; [apply Forall_replaceNth; [exact I|exact T]|].
  rewrite !(count_replaceNth _ i _ _ _ N), !count_app, !count_cons. cbn.
  change (count isFetch []) with 0. change (count isGet []) with 0. lia.
Qed.

Section Invariants.

Variable JSON_parse : jsstring -> option RpcMessage.

Lemma kept_onStdin now key w : kept w -> kept (onStdin JSON_parse now key w).
Proof.
  intros K. unfold onStdin, onEnvelope, onModeKey.
  destruct (startsWith SENTINEL key).
  - destruct (JSON_parse _) as [[[m|] [p|]]|]; try exact K.
    cbn [method params]. destruct (jsstring_eqb m _); [|exact K].
    destruct (render _ _ _ _); (eapply kept_core; [| | |exact K]; reflexivity).
  - destruct (_ || _); [now apply kept_refreshStart|].
    destruct (_ || _); [eapply kept_core; [| | |exact K]; reflexivity|].
    assert (M : forall m, kept (renderOr now (withDisplayMode m (state w)) w
                                  (fun _ => exit 1) (fun w' => w'))).
    { intros m. pose proof (kept_setConfig
        {| plan := plan (config (state w)); displayMode := m |}
        (effort (state w)) w K) as K1.
      apply renderOr_ind; intros;
        (eapply kept_core; [| | |exact K1]; reflexivity). }
    repeat (destruct (jsstring_eqb key _); [apply M|]).
    exact K.
Qed.

Lemma kept_step w ev w' : kept w -> step JSON_parse w ev = Some w' -> kept w'.
Proof.
  intros K. unfold step. destruct (exited w); [discriminate|].
  destruct ev as [now|now c e|now i tok|now i d|now|now key|].
  - destruct (stage w); try discriminate. intros [= <-].
    pose proof (kept_setView _ w (viewConsistent_initial now) K) as K1.
    apply renderOr_ind; intros;
      (eapply kept_core; [| | |exact K1]; reflexivity).
  - destruct (stage w); try discriminate. intros [= <-].
    apply kept_refreshStart.
    eapply kept_core; [| | |exact (kept_setConfig c e w K)]; reflexivity.
  - destruct (nth_error (inflight w) i) as [[[|tk] c]|] eqn:N; try discriminate.
    intros [= <-]. unfold credentialsReady.
    pose proof (kept_removeNth i _ w N K) as K1.
    destruct tok as [[|a tok]|]; cbn [falsyToken].
    + apply renderOr_ind; intros.
      * apply kept_settle, kept_writeStdout, kept_setError, K1.
      * apply kept_refreshCatch, kept_setError, K1.
    + apply (kept_toFetch i c (a :: tok) w N); [discriminate|exact K].
    + apply renderOr_ind; intros.
      * apply kept_settle, kept_writeStdout, kept_setError, K1.
      * apply kept_refreshCatch, kept_setError, K1.
  - destruct (nth_error (inflight w) i) as [[[|tk] c]|] eqn:N; try discriminate.
    intros [= <-]. unfold usageReady.
    pose proof (kept_removeNth i _ w N K) as K1.
    apply renderOr_ind; intros.
    + apply kept_settle, kept_writeStdout, kept_setFetched, K1.
    + apply kept_refreshCatch, kept_setFetched, K1.
  - destruct (stage w); try discriminate.
    destruct (timerOn w); [|discriminate]. intros [= <-].
    now apply kept_refreshStart.
  - destruct (stage w); try discriminate. intros [= <-].
    now apply kept_onStdin.
  - destruct (stage w); try discriminate. intros [= <-].
    eapply kept_core; [| | |exact K]; reflexivity.
Qed.

Lemma kept_run evs : forall w w',
  kept w -> run JSON_parse w evs = Some w' -> kept w'.
Proof.
  induction evs as [|ev evs IH]; intros w w' K.
  - simpl. now intros [= <-].
  - cbn [run]. destruct (step JSON_parse w ev) as [w1|] eqn:S; [|discriminate].
    apply IH. exact (kept_step _ _ _ K S).
Qed.

Lemma kept_initWorld c r : kept (initWorld c r).
Proof.
  unfold kept. cbn. split; [apply viewConsistent_initial|].
  repeat split; try constructor; try (cbv; discriminate).
Qed.

End Invariants.
(* ================================================================== *)
(** * The view state can always be painted *)
(* ================================================================== *)

Lemma render_Ok_showable cols rows now st frames :
  render cols rows now st = Ok frames -> showable st.
Proof.
  unfold showable. intros R D.
  pose proof (viewLines_domain (Z.min cols 72) now st ltac:(lia)) as V. rewrite D in V.
  unfold render in R.
  destruct (paintableData (data st)); [reflexivity|exfalso].
  destruct (5 <=? Z.min cols 72).
  - destruct V as (n & _ & V). rewrite V in R. discriminate.
  - rewrite V in R. discriminate.
Qed.

Lemma showable_loading st : showable (withError None (withLoading true st)).
Proof. unfold showable, dataView. cbn. discriminate. Qed.

Lemma showable_error st (e : jsstring) :
  e <> [] -> showable (withLoading false (withError (Some e) st)).
Proof.
  intros H. unfold showable, dataView. cbn.
  destruct e; [contradiction|]. discriminate.
Qed.

Lemma showable_config st c e : showable st -> showable (withConfig c e st).
Proof. unfold showable, dataView. cbn. tauto. Qed.

Lemma showable_refreshCatch now c e w :
  showable (state (refreshCatch now c e w)).
Proof.
  unfold refreshCatch.
  apply (renderOr_ind (fun w' => showable (state w'))); intros;
    rewrite state_settle; cbn [state writeStdout setView];
    apply showable_error; destruct e; cbn; discriminate.
Qed.

Lemma showable_refreshStart now c w :
  showable (state (refreshStart now c w)).
Proof.
  unfold refreshStart.
  apply (renderOr_ind (fun w' => showable (state w'))); intros.
  - cbn. apply showable_loading.
  - rewrite state_settle. cbn. apply showable_loading.
Qed.

Section Paintable.

Variable JSON_parse : jsstring -> option RpcMessage.

Lemma showable_onStdin now key w :
  showable (state w) -> showable (state (onStdin JSON_parse now key w)).
Proof.
  intros K. unfold onStdin, onEnvelope, onModeKey.
  destruct (startsWith SENTINEL key).
  - destruct (JSON_parse _) as [[[m|] [p|]]|]; try exact K.
    cbn [method params]. destruct (jsstring_eqb m _); [|exact K].
    destruct (render _ _ _ _); exact K.
  - destruct (_ || _); [apply showable_refreshStart|].
    destruct (_ || _); [exact K|].
    assert (M : forall m,
               showable (state (renderOr now (withDisplayMode m (state w)) w
                                  (fun _ => exit 1) (fun w' => w')))).
    { intros m. apply (renderOr_ind (fun w' => showable (state w'))); intros;
        cbn; now apply showable_config. }
    repeat (destruct (jsstring_eqb key _); [apply M|]).
    exact K.
Qed.

Lemma showable_step w ev w' :
  showable (state w) -> step JSON_parse w ev = Some w' -> showable (state w').
Proof.
  intros K. unfold step. destruct (exited w); [discriminate|].
  destruct ev as [now|now c e|now i tok|now i d|now|now key|].
  - destruct (stage w); try discriminate. intros [= <-].
    apply (renderOr_ind (fun w' => showable (state w'))); intros; cbn;
      unfold showable, dataView; cbn; discriminate.
  - destruct (stage w); try discriminate. intros [= <-].
    apply showable_refreshStart.
  - destruct (nth_error (inflight w) i) as [[[|tk] c]|]; try discriminate.
    intros [= <-]. unfold credentialsReady.
    destruct (falsyToken tok); [|exact K].
    apply (renderOr_ind (fun w' => showable (state w'))); intros.
    + rewrite state_settle. cbn. apply showable_error. discriminate.
    + apply showable_refreshCatch.
  - destruct (nth_error (inflight w) i) as [[[|tk] c]|]; try discriminate.
    intros [= <-]. unfold usageReady.
    apply (renderOr_ind (fun w' => showable (state w'))).
    + intros frames R. rewrite state_settle. cbn [state writeStdout setView].
      exact (render_Ok_showable _ _ _ _ _ R).
    + intros e _. apply showable_refreshCatch.
  - destruct (stage w); try discriminate.
    destruct (timerOn w); [|discriminate]. intros [= <-].
    apply showable_refreshStart.
  - destruct (stage w); try discriminate. intros [= <-].
    now apply showable_onStdin.
  - destruct (stage w); try discriminate. intros [= <-]. exact K.
Qed.

Lemma showable_run evs : forall w w',
  showable (state w) -> run JSON_parse w evs = Some w' -> showable (state w').
Proof.
  induction evs as [|ev evs IH]; intros w w' K.
  - simpl. now intros [= <-].
  - cbn [run]. destruct (step JSON_parse w ev) as [w1|] eqn:S; [|discriminate].
    apply IH. exact (showable_step _ _ _ K S).
Qed.

Lemma showable_reachable w : reachable JSON_parse w -> showable (state w).
Proof.
  intros (c & r & evs & R). apply (showable_run evs (initWorld c r) w).
  - unfold showable, dataView. cbn. discriminate.
  - exact R.
Qed.

End Paintable.

Lemma render_showable cols rows now st :
  showable st -> 5 <= cols -> exists frames, render cols rows now st = Ok frames.
Proof.
  intros S C. pose proof (viewLines_domain (Z.min cols 72) now st ltac:(lia)) as V.
  assert (L : exists lines, viewLines (Z.min cols 72) now st = Ok lines).
  { destruct (dataView st) eqn:D; [|exact V].
    rewrite (S D) in V.
    destruct (Z.leb_spec 5 (Z.min cols 72)); [exact V|lia]. }
  destruct L as [lines L].
  destruct (render_of_lines cols rows now st lines L ltac:(lia)) as (f & R & _).
  now exists f.
Qed.
(* ================================================================== *)
(** * What holds in every state of the process *)
(* ================================================================== *)

(** X8. In every state the process reaches: an error text is never set
    while [loading] is true; [refreshCount] is not negative, and
    [lastRefresh] is set exactly when it is positive; data is held only
    after a refresh that came back from its fetch. *)
Theorem view_state_consistent
  (JSON_parse : jsstring -> option RpcMessage) (w : World) :
  reachable JSON_parse w ->
  (loading (state w) = true -> error (state w) = None)
  /\ 0 <= refreshCount (state w)
  /\ (lastRefresh (state w) = None <-> refreshCount (state w) = 0)
  /\ (data (state w) <> None -> lastRefresh (state w) <> None).
Proof.
  intros (c & r & evs & R).
  pose proof (kept_run JSON_parse evs _ _ (kept_initWorld c r) R) as K.
  destruct K as (V & _). exact V.
Qed.

(** After the first refresh of [bootTrace]: not loading, one refresh
    counted, a time of the last refresh. *)
Lemma view_state_consistent_witness :
  reachable hostParse (theWorld booted)
  /\ refreshCount (state (theWorld booted)) = 1
  /\ lastRefresh (state (theWorld booted)) <> None.
Proof.
  assert (R : reachable hostParse (theWorld booted))
    by (exists 80, 24, bootTrace; vm_compute; reflexivity).
  assert (C : refreshCount (state (theWorld booted)) = 1)
    by (vm_compute; reflexivity).
  split; [exact R|]. split; [exact C|].
  destruct (view_state_consistent hostParse _ R) as (_ & _ & L & _).
  intros N. apply L in N. rewrite C in N. discriminate N.
Defined.

(** X9. In every state the process reaches: [fetchUsageLimits] was only
    called with a token that is not empty, and a refresh waiting for it
    holds one; the calls of [fetchUsageLimits], together with the
    refreshes that still wait for their credentials, are never more than
    the calls of [getCredentials]; and the refreshes that wait for a fetch
    are never more than the calls of [fetchUsageLimits]. *)
Theorem fetch_follows_credentials
  (JSON_parse : jsstring -> option RpcMessage) (w : World) :
  reachable JSON_parse w ->
  Forall withToken (calls w)
  /\ Forall holdsToken (inflight w)
  /\ count isFetch (calls w) + count awaitsCredentials (inflight w)
     <= count isGet (calls w)
  /\ count awaitsFetch (inflight w) <= count isFetch (calls w).
Proof.
  intros (c & r & evs & R).
  pose proof (kept_run JSON_parse evs _ _ (kept_initWorld c r) R) as K.
  destruct K as (_ & C & I & J & F). repeat split; assumption.
Qed.

(** The three overlapping refreshes of [overlapTrace]: four calls of
    [getCredentials], three of [fetchUsageLimits], one refresh waiting for
    its credentials. *)
Lemma fetch_follows_credentials_witness :
  reachable hostParse (theWorld (run hostParse (initWorld 80 24) overlapTrace))
  /\ count isFetch
       (calls (theWorld (run hostParse (initWorld 80 24) overlapTrace)))
     + count awaitsCredentials
         (inflight (theWorld (run hostParse (initWorld 80 24) overlapTrace)))
     <= count isGet
          (calls (theWorld (run hostParse (initWorld 80 24) overlapTrace))).
Proof.
  assert (R : reachable hostParse
                (theWorld (run hostParse (initWorld 80 24) overlapTrace)))
    by (exists 80, 24, overlapTrace; vm_compute; reflexivity).
  split; [exact R|].
  destruct (fetch_follows_credentials hostParse _ R) as (_ & _ & C & _).
  exact C.
Defined.

Lemma render_plain cols rows now st :
  dataView st = false -> 2 <= cols ->
  exists frames, render cols rows now st = Ok frames.
Proof.
  intros D C. pose proof (viewLines_domain (Z.min cols 72) now st ltac:(lia)) as V.
  rewrite D in V. destruct V as [lines L].
  destruct (render_of_lines cols rows now st lines L C) as (f & R & _).
  now exists f.
Qed.

(** X10. In every state the process reaches, the view state can be painted
    on every terminal of 5 columns or more: a snapshot whose bars cannot
    be drawn is never left in the data view (the refresh that fetched it
    ended in its [catch], which set the error text). *)
Theorem reachable_state_paints
  (JSON_parse : jsstring -> option RpcMessage) (w : World) :
  reachable JSON_parse w ->
  (dataView (state w) = true -> paintableData (data (state w)) = true)
  /\ forall cols rows now,
       5 <= cols -> exists frames, render cols rows now (state w) = Ok frames.
Proof.
  intros R. pose proof (showable_reachable JSON_parse w R) as S.
  split; [exact S|]. intros cols rows now C. now apply render_showable.
Qed.

Lemma reachable_state_paints_witness :
  reachable hostParse (theWorld booted)
  /\ exists frames, render 5 1 0 (state (theWorld booted)) = Ok frames.
Proof.
  assert (R : reachable hostParse (theWorld booted))
    by (exists 80, 24, bootTrace; vm_compute; reflexivity).
  split; [exact R|].
  exact (proj2 (reachable_state_paints hostParse _ R) 5 1 0 ltac:(lia)).
Defined.

Lemma exited_settle c w : exited (settle c None w) = exited w.
Proof. destruct c; reflexivity. Qed.

Lemma refreshStart_plain now c w :
  2 <= termCols w -> exited (refreshStart now c w) = exited w.
Proof.
  intros C. unfold refreshStart.
  apply (renderOr_ind (fun w' => exited w' = exited w)); [reflexivity|].
  intros e R.
  destruct (render_plain (termCols w) (termRows w) now
              (withError None (withLoading true (state w))) eq_refl C)
    as [f F].
  congruence.
Qed.

Lemma refreshCatch_plain now c e w :
  2 <= termCols w -> exited (refreshCatch now c e w) = exited w.
Proof.
  intros C. unfold refreshCatch.
  apply (renderOr_ind (fun w' => exited w' = exited w)).
  - intros. now rewrite exited_settle.
  - intros e' R.
    match type of R with render _ _ _ ?st = _ =>
      assert (D : dataView st = false) by (destruct e; reflexivity);
      destruct (render_plain (termCols w) (termRows w) now st D C) as [f F]
    end.
    congruence.
Qed.

(** X11. While the terminal has 5 columns or more the process does not
    end by itself: from a state it reaches, a turn leaves it running,
    except the shutdown (SIGTERM, SIGINT, the end of stdin), which ends it
    with code 0. *)
Theorem wide_terminal_never_crashes
  (JSON_parse : jsstring -> option RpcMessage) (w w' : World) (ev : Event) :
  reachable JSON_parse w -> 5 <= termCols w ->
  step JSON_parse w ev = Some w' ->
  match ev with
  | Shutdown => exited w' = Some 0
  | _ => exited w' = None
  end.
Proof.
  intros R C. pose proof (showable_reachable JSON_parse w R) as S.
  unfold step. destruct (exited w) eqn:X; [discriminate|].
  destruct ev as [now|now c e|now i tok|now i d|now|now key|].
  - destruct (stage w); try discriminate. intros [= <-].
    apply (renderOr_ind (fun w' => exited w' = None)); [intros; exact X|].
    intros e T.
    destruct (render_plain (termCols w) (termRows w) now (initialState now)
                eq_refl ltac:(lia)) as [f F].
    congruence.
  - destruct (stage w); try discriminate. intros [= <-].
    rewrite refreshStart_plain by (cbn; lia). exact X.
  - destruct (nth_error (inflight w) i) as [[[|tk] c]|]; try discriminate.
    intros [= <-]. unfold credentialsReady.
    destruct (falsyToken tok); [|exact X].
    apply (renderOr_ind (fun w' => exited w' = None)).
    + intros. rewrite exited_settle. exact X.
    + intros e T. rewrite refreshCatch_plain by (cbn; lia). exact X.
  - destruct (nth_error (inflight w) i) as [[[|tk] c]|]; try discriminate.
    intros [= <-]. unfold usageReady.
    apply (renderOr_ind (fun w' => exited w' = None)).
    + intros. rewrite exited_settle. exact X.
    + intros e T. rewrite refreshCatch_plain by (cbn; lia). exact X.
  - destruct (stage w); try discriminate.
    destruct (timerOn w); [|discriminate]. intros [= <-].
    rewrite refreshStart_plain by lia. exact X.
  - destruct (stage w); try discriminate. intros [= <-].
    unfold onStdin, onEnvelope, onModeKey.
    destruct (startsWith SENTINEL key).
    + destruct (JSON_parse _) as [[[m|] [p|]]|]; try exact X.
      cbn [method params]. destruct (jsstring_eqb m _); [|exact X].
      destruct (render _ _ _ _); exact X.
    + destruct (_ || _); [rewrite refreshStart_plain by lia; exact X|].
      destruct (_ || _); [exact X|].
      assert (M : forall m,
                 exited (renderOr now (withDisplayMode m (state w)) w
                           (fun _ => exit 1) (fun w' => w')) = None).
      { intros m. apply (renderOr_ind (fun w' => exited w' = None));
          [intros; exact X|].
        intros e T.
        destruct (render_showable (termCols w) (termRows w) now
                    (withDisplayMode m (state w))
                    (showable_config _ _ _ S) C) as [f F].
        congruence. }
      repeat (destruct (jsstring_eqb key _); [apply M|]).
      exact X.
  - destruct (stage w); try discriminate. intros [= <-]. reflexivity.
Qed.

(** On the 80 columns of [bootTrace] a key 1 leaves the process running. *)
Lemma wide_terminal_never_crashes_witness :
  exists w',
    step hostParse (theWorld booted) (Stdin 2000 (lit "1")) = Some w'
    /\ exited w' = None.
Proof.
  assert (R : reachable hostParse (theWorld booted))
    by (exists 80, 24, bootTrace; vm_compute; reflexivity).
  assert (C : 5 <= termCols (theWorld booted)) by (vm_compute; discriminate).
  assert (S : step hostParse (theWorld booted) (Stdin 2000 (lit "1"))
              = Some (theWorld (step hostParse (theWorld booted)
                                  (Stdin 2000 (lit "1")))))
    by (vm_compute; reflexivity).
  eexists. split; [exact S|].
  exact (wide_terminal_never_crashes hostParse _ _ _ R C S).
Defined.

(** X12. A refresh that the timer started never ends the process, on any
    terminal and whatever it is given: when [render] throws in it, the
    rejection of its promise is swallowed (line 446). *)
Theorem timer_refresh_never_exits
  (JSON_parse : jsstring -> option RpcMessage) (w w' : World) (ev : Event) :
  timerTurn w ev -> step JSON_parse w ev = Some w' -> exited w' = None.
Proof.
  unfold timerTurn, step. intros T.
  destruct (exited w) eqn:X; [discriminate|].
  destruct ev as [now|now c e|now i tok|now i d|now|now key|];
    try contradiction.
  - destruct (nth_error (inflight w) i) as [[[|tk] c]|]; try discriminate.
    cbn in T. subst c. intros [= <-]. unfold credentialsReady.
    destruct (falsyToken tok); [|exact X].
    unfold renderOr, refreshCatch, renderOr.
    repeat (destruct (render _ _ _ _)); exact X.
  - destruct (nth_error (inflight w) i) as [[[|tk] c]|]; try discriminate.
    cbn in T. subst c. intros [= <-]. unfold usageReady.
    unfold renderOr, refreshCatch, renderOr.
    repeat (destruct (render _ _ _ _)); exact X.
  - destruct (stage w); try discriminate.
    destruct (timerOn w); [|discriminate]. intros [= <-].
    unfold refreshStart, renderOr. destruct (render _ _ _ _); exact X.
Qed.

(** The refresh of [shrinkTrace]: the timer started it, the terminal has
    one column when it learns that there are no credentials, [render]
    throws twice, and the process goes on. *)
Lemma timer_refresh_never_exits_witness :
  termCols (theWorld (run hostParse (initWorld 80 24) (removelast shrinkTrace)))
  = 1
  /\ exists w',
       step hostParse
         (theWorld (run hostParse (initWorld 80 24) (removelast shrinkTrace)))
         (CredentialsReady 61302 0 None) = Some w'
       /\ exited w' = None.
Proof.
  split; [vm_compute; reflexivity|].
  assert (T : timerTurn
                (theWorld (run hostParse (initWorld 80 24)
                             (removelast shrinkTrace)))
                (CredentialsReady 61302 0 None))
    by (vm_compute; reflexivity).
  assert (S : step hostParse
                (theWorld (run hostParse (initWorld 80 24)
                             (removelast shrinkTrace)))
                (CredentialsReady 61302 0 None)
              = Some (theWorld (run hostParse (initWorld 80 24) shrinkTrace)))
    by (vm_compute; reflexivity).
  eexists. split; [exact S|].
  exact (timer_refresh_never_exits hostParse _ _ _ T S).
Defined.
(* ================================================================== *)
(** * What a refresh does with what it fetched *)
(* ================================================================== *)

Lemma message_or_unknown e :
  match message e with [] => lit "unknown error" | m => m end = message e.
Proof. destruct e as [n|[|]|]; reflexivity. Qed.

Lemma messageOf_message e : messageOf e (message e).
Proof.
  destruct e as [n|[|]|]; try reflexivity.
  exists (string_of_Z n). split; reflexivity.
Qed.

Lemma render_unpaintable cols rows now st :
  dataView st = true -> paintableData (data st) = false ->
  exists e, renderError e /\ render cols rows now st = Throw e.
Proof.
  intros D P. pose proof (viewLines_domain (Z.min cols 72) now st ltac:(lia)) as V.
  rewrite D, P in V. unfold render.
  destruct (Z.leb_spec 5 (Z.min cols 72)).
  - destruct V as (n & N & V). exists n. split; [exact N|]. now rewrite V.
  - exists (RangeError (Z.min cols 72 - 5)). split; [|now rewrite V].
    left. eexists. split; [|reflexivity]. lia.
Qed.

(** X13. A fetch that brings a window the panel cannot paint (a rounded
    percentage above 101 or below -2, or an infinity), while no error is
    shown: the snapshot is stored and counted, [render] throws on it, and
    the [catch] of [refresh] reports it as a failure of the fetch: the
    error text is that of the RangeError [render] threw (a negative count,
    with its digits when it is above -2^53, an infinite count, or an
    invalid string length), the error view is painted with it, and the
    process goes on. *)
Theorem usage_out_of_range
  (JSON_parse : jsstring -> option RpcMessage)
  (w : World) (now : Z) (i : nat) (tok : jsstring) (c : Caller) (d : Metrics) :
  exited w = None ->
  nth_error (inflight w) i = Some {| phase := AwaitFetch tok; caller := c |} ->
  truthyStr (error (state w)) = false ->
  2 <= termCols w ->
  paintableData (Some d) = false ->
  exists w' e frames,
    step JSON_parse w (UsageReady now i (Some d)) = Some w'
    /\ render (termCols w) (termRows w) now (withFetched (Some d) now (state w))
       = Throw e
    /\ renderError e
    /\ (exists text,
          messageOf e text
          /\ error (state w') = Some (lit "Failed to fetch: " ++ text))
    /\ loading (state w') = false
    /\ data (state w') = Some d
    /\ refreshCount (state w') = refreshCount (state w) + 1
    /\ lastRefresh (state w') = Some now
    /\ render (termCols w) (termRows w) now (state w') = Ok frames
    /\ stdout w' = stdout w ++ frames
    /\ inflight w' = removeNth i (inflight w)
    /\ exited w' = None.
Proof.
  intros X N E C P. unfold step. rewrite X, N. unfold usageReady.
  set (w1 := setInflight (removeNth i (inflight w)) w).
  set (st := withFetched (Some d) now (state w1)).
  assert (D : dataView st = true).
  { unfold dataView, st, w1. cbn. now rewrite E. }
  destruct (render_unpaintable (termCols w1) (termRows w1) now st D P)
    as (e & Ne & T).
  unfold renderOr. rewrite T. unfold refreshCatch.
  cbn [state setView]. rewrite message_or_unknown.
  set (st' := withLoading false (withError _ st)).
  destruct (render_plain (termCols w) (termRows w) now st' eq_refl C)
    as [frames F].
  unfold renderOr. cbn [termCols termRows setView]. fold w1.
  change (termCols w1) with (termCols w). change (termRows w1) with (termRows w).
  rewrite F.
  eexists. exists e, frames. split; [reflexivity|].
  rewrite state_settle, stdout_settle, inflight_settle, exited_settle.
  cbn. split; [assumption|]. split; [assumption|]. split.
  { exists (message e). split; [apply messageOf_message|reflexivity]. }
  repeat split; try assumption; reflexivity.
Qed.

(** Three fetches that the refresh of the timer in [fetching] may come
    back with: 150 percent, 10^10 percent, and a utilization read as an
    infinity. *)
Lemma usage_out_of_range_witness :
  let fiveHour u :=
    {| five_hour := Some {| utilization := u; resets_at := None |};
       seven_day := None; seven_day_sonnet := None |} in
  let after d text :=
    exists w',
      step hostParse (theWorld fetching) (UsageReady 61500 0 (Some d)) = Some w'
      /\ error (state w') = Some text
      /\ data (state w') = Some d
      /\ exited w' = None in
  after (fiveHour (Finite 150))
        (lit "Failed to fetch: Invalid count value: -13")
  /\ after (fiveHour (Finite (inject_Z (10 ^ 10))))
           (lit "Failed to fetch: Invalid string length")
  /\ after (fiveHour PlusInfinity)
           (lit "Failed to fetch: Invalid count value: Infinity").
Proof.
  assert (X : exited (theWorld fetching) = None) by (vm_compute; reflexivity).
  assert (N : nth_error (inflight (theWorld fetching)) 0
              = Some {| phase := AwaitFetch (lit "token"); caller := ByTimer |})
    by (vm_compute; reflexivity).
  assert (E : truthyStr (error (state (theWorld fetching))) = false)
    by (vm_compute; reflexivity).
  assert (C : 2 <= termCols (theWorld fetching)) by (vm_compute; discriminate).
  assert (C5 : 5 <= termCols (theWorld fetching)) by (vm_compute; discriminate).
  assert (W : forall d e,
             paintableData (Some d) = false ->
             rateLimitLines 61500 (Some d) = Throw e ->
             (forall n, e = RangeError n -> - 2 ^ 53 < n) ->
             exists w',
               step hostParse (theWorld fetching) (UsageReady 61500 0 (Some d))
               = Some w'
               /\ error (state w') = Some (lit "Failed to fetch: " ++ message e)
               /\ data (state w') = Some d
               /\ exited w' = None).
  { intros d e P R B.
    destruct (usage_out_of_range hostParse _ 61500 0 _ _ d X N E C P)
      as (w' & e' & frames & S & T & _ & Er & _ & Da & _ & _ & _ & _ & _ & Ex).
    exists w'. split; [exact S|]. split; [|split; [exact Da|exact Ex]].
    rewrite (render_rateLimitLines_throws _ _ _ _ e) in T;
      [| |exact C5|exact R].
    - injection T as <-. destruct Er as (text & M & Er). rewrite Er.
      destruct e as [n|[|]|]; cbn [messageOf] in M; try (now rewrite M).
      destruct M as (digits & -> & D).
      rewrite (D (B n eq_refl)). reflexivity.
    - unfold dataView. cbn [withFetched error loading]. rewrite E.
      reflexivity. }
  cbv zeta. split; [|split].
  - apply (W _ (RangeError (-13))); [vm_compute; reflexivity| |].
    + vm_compute. reflexivity.
    + intros n [= <-]. lia.
  - apply (W _ InvalidStringLength); [vm_compute; reflexivity| |discriminate].
    apply rateLimitLines_five_hour.
    apply (windowLine_throws _ _ _ _ (10 ^ 10)); [vm_compute; reflexivity|].
    apply progressBar_overlong.
  - apply (W _ (InfiniteCount false)); [vm_compute; reflexivity| |discriminate].
    vm_compute. reflexivity.
Defined.

(** X14. A fetch that failed ([fetchUsageLimits] gave [null]) is not an
    error of the refresh: on a terminal of 5 columns or more the refresh
    ends as after a fetch that succeeded, with the data it held before
    dropped, the time of the last refresh set and the refresh counted; the
    error text is as it was, and when there is none the panel shows the
    two lines of the notice where the bars would be. *)
Theorem failed_fetch_is_counted
  (JSON_parse : jsstring -> option RpcMessage)
  (w : World) (now : Z) (i : nat) (tok : jsstring) (c : Caller) :
  exited w = None ->
  nth_error (inflight w) i = Some {| phase := AwaitFetch tok; caller := c |} ->
  5 <= termCols w ->
  exists w' frames,
    step JSON_parse w (UsageReady now i None) = Some w'
    /\ state w' = withFetched None now (state w)
    /\ data (state w') = None
    /\ error (state w') = error (state w)
    /\ refreshCount (state w') = refreshCount (state w) + 1
    /\ render (termCols w) (termRows w) now (state w') = Ok frames
    /\ stdout w' = stdout w ++ frames
    /\ exited w' = None
    /\ (truthyStr (error (state w)) = false ->
        exists hd ft,
          viewLines (Z.min (termCols w) 72) now (state w')
          = Ok ([ []; titleLine (Z.min (termCols w) 72); [] ]
                  ++ hd ++ noFetchNotice ++ ft ++ [ [] ])).
Proof.
  intros X N C. unfold step. rewrite X, N. unfold usageReady.
  set (w1 := setInflight (removeNth i (inflight w)) w).
  set (st := withFetched None now (state w1)).
  assert (S : showable st) by (intros _; reflexivity).
  destruct (render_showable (termCols w) (termRows w) now st S C) as [frames F].
  unfold renderOr. change (termCols w1) with (termCols w).
  change (termRows w1) with (termRows w). rewrite F.
  eexists. exists frames. split; [reflexivity|].
  rewrite state_settle, stdout_settle, exited_settle. cbn [state stdout exited
    writeStdout setView].
  repeat split; try assumption; try reflexivity.
  intros E. unfold viewLines, st, w1. cbn [error loading data withFetched state
    setInflight]. rewrite E.
  destruct (headerLines_ok (Z.min (termCols w) 72)
              (withFetched None now (state w)) ltac:(lia)) as [hd Hh].
  destruct (footerLines_ok (Z.min (termCols w) 72) now
              (withFetched None now (state w)) ltac:(lia)) as [ft Hf].
  rewrite Hh, Hf. exists hd, ft. reflexivity.
Qed.

Lemma failed_fetch_is_counted_witness :
  data (state (theWorld fetching)) = Some sampleMetrics
  /\ exists w',
       step hostParse (theWorld fetching) (UsageReady 61500 0 None) = Some w'
       /\ data (state w') = None
       /\ refreshCount (state w') = refreshCount (state (theWorld fetching)) + 1.
Proof.
  split; [vm_compute; reflexivity|].
  assert (X : exited (theWorld fetching) = None) by (vm_compute; reflexivity).
  assert (N : nth_error (inflight (theWorld fetching)) 0
              = Some {| phase := AwaitFetch (lit "token"); caller := ByTimer |})
    by (vm_compute; reflexivity).
  assert (C : 5 <= termCols (theWorld fetching)) by (vm_compute; discriminate).
  destruct (failed_fetch_is_counted hostParse _ 61500 0 _ _ X N C)
    as (w' & frames & S & _ & Da & _ & Rc & _).
  exists w'. repeat split; assumption.
Defined.
(* ================================================================== *)
(** * Keys and envelopes *)
(* ================================================================== *)

Lemma render_withDisplayMode m cols rows now st :
  render cols rows now (withDisplayMode m st) = render cols rows now st.
Proof. reflexivity. Qed.

Lemma modeOfKey_plain key m : modeOfKey key = Some m -> startsWith SENTINEL key = false.
Proof.
  unfold modeOfKey.
  repeat (destruct (jsstring_eqb key _) eqn:E;
          [apply jsstring_eqb_eq in E; subst key; reflexivity|clear E]).
  discriminate.
Qed.

(** X15. The display mode is stored and never shown. [render] gives the
    same result whatever the display mode of the view state is; so the
    keys 1, 2 and 3 paint again what was on the screen: the frame of the
    view state as it was before the key. When [render] throws, the handler
    of the key has no [catch], and the process ends. *)
Theorem display_mode_is_not_shown :
  (forall m cols rows now st,
      render cols rows now (withDisplayMode m st) = render cols rows now st)
  /\ (forall (JSON_parse : jsstring -> option RpcMessage) now key m w,
        modeOfKey key = Some m ->
        onStdin JSON_parse now key w
        = match render (termCols w) (termRows w) now (state w) with
          | Ok frames =>
              writeStdout frames (setView (withDisplayMode m (state w)) w)
          | Throw _ => exit 1 (setView (withDisplayMode m (state w)) w)
          end).
Proof.
  split; [intros; apply render_withDisplayMode|].
  intros JSON_parse now key m w K.
  unfold onStdin. rewrite (modeOfKey_plain key m K).
  unfold modeOfKey in K.
  destruct (jsstring_eqb key (lit "1")) eqn:K1.
  { apply jsstring_eqb_eq in K1. subst key. injection K as <-.
    cbn [orb]. reflexivity. }
  destruct (jsstring_eqb key (lit "2")) eqn:K2.
  { apply jsstring_eqb_eq in K2. subst key. injection K as <-.
    cbn [orb]. reflexivity. }
  destruct (jsstring_eqb key (lit "3")) eqn:K3; [|discriminate].
  apply jsstring_eqb_eq in K3. subst key. injection K as <-.
  cbn [orb]. reflexivity.
Qed.

Lemma startsWith_app p s : startsWith p (p ++ s) = true.
Proof.
  induction p as [|a p IH]; [reflexivity|].
  cbn [app startsWith]. now rewrite N.eqb_refl, IH.
Qed.

Lemma trimStart_spaces ws s :
  Forall (fun c => isSpace c = true) ws -> trimStart (ws ++ s) = trimStart s.
Proof.
  induction 1 as [|c ws Hc _ IH]; [reflexivity|].
  cbn [app trimStart]. now rewrite Hc, IH.
Qed.

Lemma trimStart_solid s : isSpace (hd 32%N s) = false -> trimStart s = s.
Proof.
  destruct s as [|c r]; [discriminate|]. cbn [hd trimStart]. now intros ->.
Qed.

Lemma hd_rev (s : jsstring) d : hd d (rev s) = last s d.
Proof.
  induction s as [|c r IH] using rev_ind; [reflexivity|].
  rewrite rev_app_distr, last_last. reflexivity.
Qed.

Lemma hd_app_solid (s t : jsstring) :
  isSpace (hd 32%N s) = false -> hd 32%N (s ++ t) = hd 32%N s.
Proof. destruct s; [discriminate|reflexivity]. Qed.

Lemma trim_between ws1 json ws2 :
  isSpace (hd 32%N json) = false -> isSpace (last json 32%N) = false ->
  Forall (fun c => isSpace c = true) ws1 ->
  Forall (fun c => isSpace c = true) ws2 ->
  trim (ws1 ++ json ++ ws2) = json.
Proof.
  intros H L W1 W2. unfold trim.
  rewrite (trimStart_spaces ws1 _ W1).
  assert (H1 : isSpace (hd 32%N (json ++ ws2)) = false)
    by (now rewrite (hd_app_solid json ws2 H)).
  rewrite (trimStart_solid _ H1), rev_app_distr.
  rewrite (trimStart_spaces (rev ws2) _ (Forall_rev W2)).
  assert (H2 : isSpace (hd 32%N (rev json)) = false) by (now rewrite hd_rev).
  rewrite (trimStart_solid _ H2). apply rev_involutive.
Qed.

(** X16. The framing of the messages on the two pipes. What follows the
    sentinel of a chunk is the payload the stdin handler gives to
    [JSON.parse], white space and line ends around it taken off: a payload
    that starts and ends with a character that is no white space, as a
    JSON object does, is read back as it was written, and the handler does
    with the chunk what it does with the sentinel followed by the payload
    alone. What [sendRpc] writes to stderr has this form, with one line
    end after the payload. *)
Theorem envelope_payload (ws1 json ws2 : jsstring) :
  isSpace (hd 32%N json) = false -> isSpace (last json 32%N) = false ->
  Forall (fun c => isSpace c = true) ws1 ->
  Forall (fun c => isSpace c = true) ws2 ->
  startsWith SENTINEL (SENTINEL ++ ws1 ++ json ++ ws2) = true
  /\ trim (slice_from 12 (SENTINEL ++ ws1 ++ json ++ ws2)) = json
  /\ forall (JSON_parse : jsstring -> option RpcMessage) now w,
       onStdin JSON_parse now (SENTINEL ++ ws1 ++ json ++ ws2) w
       = onStdin JSON_parse now (SENTINEL ++ json) w.
Proof.
  intros H L W1 W2.
  assert (T : trim (slice_from 12 (SENTINEL ++ ws1 ++ json ++ ws2)) = json).
  { change (slice_from 12 (SENTINEL ++ ws1 ++ json ++ ws2))
      with (ws1 ++ json ++ ws2).
    now apply trim_between. }
  assert (T0 : trim (slice_from 12 (SENTINEL ++ json)) = json).
  { change (slice_from 12 (SENTINEL ++ json)) with json.
    rewrite <- (app_nil_r json) at 1.
    apply (trim_between [] json []); try assumption; constructor. }
  split; [apply startsWith_app|]. split; [exact T|].
  intros JSON_parse now w. unfold onStdin.
  rewrite !startsWith_app. unfold onEnvelope. rewrite T, T0. reflexivity.
Qed.

(** The message of the key q, as [sendRpc] writes it, read as the stdin
    handler would. *)
Lemma envelope_payload_witness :
  exists json,
    stderr (sendRpc (lit "close") (initWorld 80 24)) = [SENTINEL ++ json ++ NL]
    /\ trim (slice_from 12 (SENTINEL ++ json ++ NL)) = json.
Proof.
  assert (W2 : Forall (fun c => isSpace c = true) NL) by (repeat constructor).
  eexists. split; [reflexivity|].
  match goal with
  | |- trim (slice_from 12 (SENTINEL ++ ?j ++ NL)) = _ =>
      exact (proj1 (proj2 (envelope_payload [] j NL eq_refl eq_refl
                             (Forall_nil _) W2)))
  end.
Defined.

(** X17. The key q (or Q) does not end the process: it stops the timer,
    so that no tick comes any more, writes the sequence that shows the
    cursor and clears the screen, and asks the host to close the panel by
    one envelope on stderr: the sentinel, the JSON-RPC request of the
    method close with empty params and the id 1, and a line feed. The view
    state and the refreshes in flight are as before, and a refresh in
    flight still comes back. *)
Theorem quit_key
  (JSON_parse : jsstring -> option RpcMessage) (w : World) (now : Z)
  (key : jsstring) :
  stage w = Listening -> exited w = None ->
  key = lit "q" \/ key = lit "Q" ->
  exists w',
    step JSON_parse w (Stdin now key) = Some w'
    /\ exited w' = None
    /\ timerOn w' = false
    /\ (forall t, step JSON_parse w' (Tick t) = None)
    /\ stdout w' = stdout w ++ [ansi.showCursor ++ ansi.reset ++ ansi.clear]
    /\ stderr w' = stderr w ++ [SENTINEL ++ closeRequest ++ NL]
    /\ trim (slice_from 12 (SENTINEL ++ closeRequest ++ NL)) = closeRequest
    /\ state w' = state w
    /\ inflight w' = inflight w
    /\ (forall t i d,
          step JSON_parse w' (UsageReady t i d) = None
          <-> step JSON_parse w (UsageReady t i d) = None).
Proof.
  intros L X K. unfold step at 1. rewrite X, L.
  assert (E : onStdin JSON_parse now key w = sendRpc (lit "close") (cleanup w)).
  { destruct K as [-> | ->]; reflexivity. }
  rewrite E. eexists. split; [reflexivity|].
  split; [exact X|]. split; [reflexivity|]. split.
  { intros t. unfold step. cbn. rewrite X, L. reflexivity. }
  split; [reflexivity|]. split; [reflexivity|]. split.
  { change (slice_from 12 (SENTINEL ++ closeRequest ++ NL))
      with ([] ++ closeRequest ++ NL).
    apply trim_between;
      [reflexivity|reflexivity|constructor|repeat constructor]. }
  split; [reflexivity|]. split; [reflexivity|].
  intros t i d. unfold step. cbn [exited sendRpc cleanup writeStderr writeStdout
    setTimer inflight]. rewrite X.
  destruct (nth_error (inflight w) i) as [[[|tk] c]|]; split; intros H;
    try reflexivity; discriminate H.
Qed.

(** The key q while the refresh of the timer is in flight. *)
Lemma quit_key_witness :
  exists w',
    step hostParse (theWorld refreshing) (Stdin 61400 (lit "q")) = Some w'
    /\ exited w' = None
    /\ timerOn w' = false
    /\ stderr w'
       = stderr (theWorld refreshing) ++ [SENTINEL ++ closeRequest ++ NL]
    /\ inflight w' = inflight (theWorld refreshing).
Proof.
  assert (L : stage (theWorld refreshing) = Listening)
    by (vm_compute; reflexivity).
  assert (X : exited (theWorld refreshing) = None)
    by (vm_compute; reflexivity).
  destruct (quit_key hostParse _ 61400 (lit "q") L X (or_introl eq_refl))
    as (w' & S & E & T & _ & _ & Er & _ & _ & I & _).
  exists w'. split; [exact S|]. split; [exact E|]. split; [exact T|].
  split; [exact Er|exact I].
Defined.

(* ================================================================== *)
(** * Durations *)
(* ================================================================== *)



(** X19. The countdown of a window. Without a reset time it is empty,
    and the line of the window ends with its percentage; for a reset time
    that is no date it is the text NaNm, which the line shows in its
    parenthesis; at the reset time or after it, it is the word now; before
    it, it is the duration that is left, which is never empty, and reads
    0m in the last minute. The duration is stated for the clock of a day
    after 1970 and a reset time a Date can hold, so that what is left is
    below 2^53 milliseconds. *)
Theorem formatResetTime_spec (now : Z) :
  formatResetTime now None = []
  /\ formatResetTime now (Some InvalidDate) = lit "NaNm"
  /\ (forall label w,
        let line := lit "  " ++ colors.label ++ label ++ ansi.reset
                      ++ barOf (inject_Z (percentOf w)) 25
                           (filledCells (inject_Z (percentOf w)) 25)
                      ++ lit "  " ++ formatPercent (inject_Z (percentOf w)) in
        (resets_at w = None -> lineFor now (label, w) = line)
        /\ (resets_at w = Some InvalidDate ->
            lineFor now (label, w)
            = line ++ colors.dim ++ lit "  (NaNm)" ++ ansi.reset))
  /\ (forall t, t <= now -> formatResetTime now (Some (TimeValue t)) = lit "now")
  /\ (forall t,
        0 <= now < t -> t <= 8640000000000000 ->
        0 < t - now < 2 ^ 53
        /\ formatResetTime now (Some (TimeValue t)) = formatDuration (t - now)
        /\ formatResetTime now (Some (TimeValue t)) <> [])
  /\ (forall t,
        0 <= now < t -> t < now + 60000 -> t <= 8640000000000000 ->
        formatResetTime now (Some (TimeValue t)) = lit "0m").
Proof.
  split; [reflexivity|]. split; [reflexivity|]. split; [|split; [|split]].
  - intros label w line. unfold lineFor. cbn [fst snd]. split; intros ->.
    + cbn [formatResetTime]. unfold line. now rewrite app_nil_r.
    + cbn [formatResetTime]. unfold line. rewrite <- !app_assoc. reflexivity.
  - intros t H. unfold formatResetTime.
    destruct (Z.leb_spec (t - now) 0); [reflexivity|lia].
  - intros t H B. split; [lia|]. unfold formatResetTime.
    destruct (Z.leb_spec (t - now) 0); [lia|]. split; [reflexivity|].
    unfold formatDuration.
    destruct (0 <? hoursOf (t - now));
      [|intros E; apply app_eq_nil in E as [_ E]; discriminate E].
    intros E. apply app_eq_nil in E as [_ E].
    apply app_eq_nil in E as [E _]. discriminate E.
  - intros t H H60 B. unfold formatResetTime.
    destruct (Z.leb_spec (t - now) 0); [lia|].
    unfold formatDuration.
    assert (T : totalSecOf (t - now) < 60).
    { unfold totalSecOf. apply Z.div_lt_upper_bound; lia. }
    assert (T0 : 0 <= totalSecOf (t - now)).
    { unfold totalSecOf. apply Z.div_pos; lia. }
    assert (Hh : hoursOf (t - now) = 0).
    { unfold hoursOf. apply Z.div_small. lia. }
    assert (Hm : minutesOf (t - now) = 0).
    { unfold minutesOf. rewrite Z.rem_small by lia. apply Z.div_small. lia. }
    rewrite Hh, Hm. reflexivity.
Qed.
(* ================================================================== *)
(** * The error texts *)
(* ================================================================== *)





Section ErrorTexts.

Variable JSON_parse : jsstring -> option RpcMessage.



End ErrorTexts.



(* ================================================================== *)
(** * The start of the process *)
(* ================================================================== *)

(* ================================================================== *)
(** * The size of the terminal at the start *)
(* ================================================================== *)

Lemma lit_String a s : lit (String a s) = N_of_ascii a :: lit s.
Proof. reflexivity. Qed.

Lemma digitsPrefix_numeral d rest :
  digitOf (hd 0%N rest) = None ->
  digitsPrefix (lit (NilEmpty.string_of_uint d) ++ rest) = d.
Proof.
  intros H. induction d; cbn [NilEmpty.string_of_uint];
    try (rewrite lit_String; cbn [app digitsPrefix]; cbn; now rewrite IHd).
  cbn. destruct rest as [|c r]; [reflexivity|]. cbn [hd] in H.
  cbn [digitsPrefix]. now rewrite H.
Qed.

Lemma numeral_head d :
  d <> Decimal.Nil ->
  exists c r, lit (NilEmpty.string_of_uint d) = c :: r
              /\ isSpace c = false /\ c <> 45%N /\ c <> 43%N.
Proof.
  intros H. destruct d; [contradiction| | | | | | | | | |];
    cbn [NilEmpty.string_of_uint]; rewrite lit_String;
    eexists; eexists; (split; [reflexivity|]);
    (split; [reflexivity|]); split; discriminate.
Qed.

Lemma splitSign_none c r :
  c <> 45%N -> c <> 43%N -> splitSign (c :: r) = (1, c :: r).
Proof.
  intros N45 N43. unfold splitSign. destruct c as [|p]; [reflexivity|].
  repeat (match goal with q : positive |- _ => destruct q end;
          try reflexivity);
    exfalso; (apply N45; reflexivity) || (apply N43; reflexivity).
Qed.

(** Below 2^53 every natural number is a binary64 number. *)
Lemma nearestNumber_exact n : 0 <= n < 2 ^ 53 -> nearestNumber n = n.
Proof.
  intros H. unfold nearestNumber.
  destruct (Z.eq_dec n 0) as [->|N]; [vm_compute; reflexivity|].
  assert (P : (0 < inject_Z n)%Q).
  { change 0%Q with (inject_Z 0). rewrite <- Zlt_Qlt. lia. }
  assert (G : (inject_Z n * pow2 (- 0) == inject_Z n)%Q).
  { change (pow2 (- 0)) with 1%Q. apply Qmult_1_r. }
  assert (U : (fl (inject_Z n) <= inject_Z n * pow2 (- 0))%Q).
  { apply fl_upper; [exact P|lia|lia|]. rewrite G. apply Qle_refl. }
  assert (L : (inject_Z n * pow2 (- 0) <= fl (inject_Z n))%Q).
  { apply fl_lower; [lia|lia|]. rewrite G. apply Qle_refl. }
  rewrite G in U, L.
  rewrite (Qfloor_comp _ _ (Qle_antisym _ _ U L)). apply Qfloor_Z.
Qed.

Lemma parseInt10_nonneg_aux d rest :
  d <> Decimal.Nil -> digitOf (hd 0%N rest) = None ->
  parseInt10 (lit (NilEmpty.string_of_uint d) ++ rest)
  = Some (nearestNumber (Z.of_uint d)).
Proof.
  intros Hd Hr. unfold parseInt10.
  pose proof (digitsPrefix_numeral d rest Hr) as P.
  destruct (numeral_head d Hd) as (c & r & E & Sp & N45 & N43).
  rewrite E in *. cbn [app trimStart]. rewrite Sp.
  rewrite (splitSign_none c _ N45 N43). cbn [fst snd]. cbn [app] in P.
  rewrite P.
  destruct d; [contradiction| | | | | | | | | |];
    match goal with
    | |- Some (1 * ?v) = _ => generalize v; intros v'; f_equal; lia
    end.
Qed.

Lemma string_of_Z_pos p :
  string_of_Z (Z.pos p) = lit (NilEmpty.string_of_uint (Pos.to_uint p)).
Proof. reflexivity. Qed.

Lemma parseInt10_string_of_Z_nonneg n rest :
  0 <= n -> digitOf (hd 0%N rest) = None ->
  parseInt10 (string_of_Z n ++ rest) = Some (nearestNumber n).
Proof.
  intros H Hr. destruct n as [|p|p]; [| |lia].
  - change (string_of_Z 0) with (lit (NilEmpty.string_of_uint (Decimal.D0 Decimal.Nil))).
    rewrite parseInt10_nonneg_aux; [reflexivity|discriminate|exact Hr].
  - rewrite string_of_Z_pos, parseInt10_nonneg_aux;
      [|apply DecimalPos.Unsigned.to_uint_nonnil|exact Hr].
    unfold Z.of_uint. now rewrite DecimalPos.Unsigned.of_to.
Qed.

Lemma parseInt10_spaces ws s :
  Forall (fun c => isSpace c = true) ws -> parseInt10 (ws ++ s) = parseInt10 s.
Proof. intros W. unfold parseInt10. now rewrite trimStart_spaces. Qed.

Lemma parseInt10_negative p rest :
  digitOf (hd 0%N rest) = None ->
  parseInt10 (string_of_Z (Z.neg p) ++ rest)
  = Some (- nearestNumber (Z.pos p)).
Proof.
  intros Hr.
  change (string_of_Z (Z.neg p))
    with (45%N :: lit (NilEmpty.string_of_uint (Pos.to_uint p))).
  unfold parseInt10. cbn [app trimStart]. change (isSpace 45) with false.
  cbv iota. change (splitSign (45%N :: ?t)) with (-1, t).
  cbn [fst snd]. rewrite (digitsPrefix_numeral _ rest Hr).
  pose proof (DecimalPos.Unsigned.to_uint_nonnil p) as N.
  pose proof (DecimalPos.Unsigned.of_to p) as E.
  destruct (Pos.to_uint p); [contradiction| | | | | | | | | |];
    unfold Z.of_uint; rewrite E; change (Z.of_N (N.pos p)) with (Z.pos p);
    generalize (nearestNumber (Z.pos p)); intros v; f_equal; lia.
Qed.

(** X22. The size of the terminal at the start. A variable that is not set,
    or is empty, gives the default (80 columns, 24 rows). The decimal text
    of an integer below 2^53 in absolute value is read back as that
    integer, whatever its sign, also after white space and before anything
    that is not a digit; above 2^53 the number read is rounded to
    binary64: 9007199254740993 reads 9007199254740992. A text without a
    digit after the white space and the sign gives no number (NaN). *)
Theorem envSize_spec :
  envSize None (lit "80") = Some 80
  /\ envSize (Some []) (lit "24") = Some 24
  /\ (forall n dflt,
        Z.abs n < 2 ^ 53 -> envSize (Some (string_of_Z n)) dflt = Some n)
  /\ (forall ws n rest,
        Z.abs n < 2 ^ 53 ->
        Forall (fun c => isSpace c = true) ws ->
        digitOf (hd 0%N rest) = None ->
        parseInt10 (ws ++ string_of_Z n ++ rest) = Some n)
  /\ parseInt10 (lit "9007199254740993") = Some 9007199254740992
  /\ (forall s, digitsPrefix s = Decimal.Nil ->
        parseInt10 (lit "-" ++ s) = None
        /\ parseInt10 (lit "+" ++ s) = None
        /\ (isSpace (hd 0%N s) = false -> hd 0%N s <> 45%N -> hd 0%N s <> 43%N ->
            parseInt10 s = None)).
Proof.
  assert (G : forall ws n rest,
        Z.abs n < 2 ^ 53 ->
        Forall (fun c => isSpace c = true) ws ->
        digitOf (hd 0%N rest) = None ->
        parseInt10 (ws ++ string_of_Z n ++ rest) = Some n).
  { intros ws n rest B W Hr. rewrite (parseInt10_spaces ws _ W).
    destruct (Z.le_gt_cases 0 n) as [P|P].
    - rewrite parseInt10_string_of_Z_nonneg by assumption.
      now rewrite nearestNumber_exact by lia.
    - destruct n as [|p|p]; try lia.
      rewrite parseInt10_negative by assumption.
      now rewrite nearestNumber_exact by lia. }
  split; [vm_compute; reflexivity|]. split; [vm_compute; reflexivity|].
  split; [|split; [exact G|split; [vm_compute; reflexivity|]]].
  - intros n dflt B. unfold envSize.
    pose proof (G [] n [] B (Forall_nil _) eq_refl) as E.
    cbn [app] in E. rewrite app_nil_r in E.
    destruct (string_of_Z n) as [|c r] eqn:S; [|exact E].
    discriminate E.
  - intros s H. split; [|split].
    + unfold parseInt10. cbn. now rewrite H.
    + unfold parseInt10. cbn. now rewrite H.
    + intros Sp N45 N43. unfold parseInt10.
      destruct s as [|c r]; [reflexivity|]. cbn [hd] in *.
      cbn [trimStart]. rewrite Sp.
      rewrite (splitSign_none c _ N45 N43). cbn [snd]. now rewrite H.
Qed.
(* ================================================================== *)
(** * formatTokens *)
(* ================================================================== *)


(* ================================================================== *)
(** * Credentials and configuration *)
(* ================================================================== *)

Lemma accessTokenOf_found creds :
  accessTokenOf creds <> JNull ->
  exists fields inner,
    creds = JObject fields
    /\ lookupField (lit "claudeAiOauth") fields = Some inner
    /\ getProp (lit "accessToken") inner = Some (accessTokenOf creds).
Proof.
  unfold accessTokenOf, optChain. intros H.
  destruct creds as [| | | | |fields]; try (now contradiction H).
  cbn [getProp] in *.
  destruct (lookupField (lit "claudeAiOauth") fields) as [inner|] eqn:L;
    [|now contradiction H].
  exists fields, inner. split; [reflexivity|]. split; [exact L|].
  destruct inner as [| | | | |fs]; try (now contradiction H).
  cbn [getProp] in *.
  destruct (lookupField (lit "accessToken") fs); [reflexivity|].
  now contradiction H.
Qed.

(** X24. Where the token comes from. On macOS ([darwin]) what the keychain
    holds decides alone whenever it is JSON: its token, or [null] when it
    has none, and the credentials file is not looked at; the file is the
    fallback only when the command fails or prints no JSON. On another
    platform the file decides alone. A token that is not [null] is the
    field [accessToken] of the field [claudeAiOauth] of the JSON object in
    the file or in what the keychain printed; and what [refresh] takes for
    no credentials ([!token]) is [null] and also the empty string. *)
Theorem getCredentials_sources
  (parseJSON : jsstring -> option JSON) (h : Host) :
  (platform h <> lit "darwin" ->
   getCredentials parseJSON h = getCredentialsFromFile parseJSON h)
  /\ (platform h = lit "darwin" ->
      forall out creds,
        keychain h = Some out -> parseJSON (trim out) = Some creds ->
        getCredentials parseJSON h = accessTokenOf creds)
  /\ (platform h = lit "darwin" ->
      (keychain h = None
       \/ exists out, keychain h = Some out /\ parseJSON (trim out) = None) ->
      getCredentials parseJSON h = getCredentialsFromFile parseJSON h)
  /\ (getCredentials parseJSON h <> JNull ->
      exists text fields inner,
        (credentialsFile h = Some text
         \/ exists out, keychain h = Some out /\ text = trim out)
        /\ parseJSON text = Some (JObject fields)
        /\ lookupField (lit "claudeAiOauth") fields = Some inner
        /\ getProp (lit "accessToken") inner
           = Some (getCredentials parseJSON h))
  /\ (forall tok,
        tokenEvent (getCredentials parseJSON h) = Some tok ->
        falsyToken tok = falsy (getCredentials parseJSON h)).
Proof.
  unfold getCredentials. split; [|split; [|split; [|split]]].
  - intros P. destruct (jsstring_eqb (platform h) (lit "darwin")) eqn:E;
      [|reflexivity].
    apply jsstring_eqb_eq in E. contradiction.
  - intros P out creds K J. rewrite P.
    change (jsstring_eqb (lit "darwin") (lit "darwin")) with true. cbv iota.
    unfold getCredentialsFromKeychain. now rewrite K, J.
  - intros P F. rewrite P.
    change (jsstring_eqb (lit "darwin") (lit "darwin")) with true. cbv iota.
    unfold getCredentialsFromKeychain.
    destruct F as [K|(out & K & J)]; [now rewrite K|now rewrite K, J].
  - assert (F : getCredentialsFromFile parseJSON h <> JNull ->
                exists text fields inner,
                  (credentialsFile h = Some text
                   \/ exists out, keychain h = Some out /\ text = trim out)
                  /\ parseJSON text = Some (JObject fields)
                  /\ lookupField (lit "claudeAiOauth") fields = Some inner
                  /\ getProp (lit "accessToken") inner
                     = Some (getCredentialsFromFile parseJSON h)).
    { unfold getCredentialsFromFile.
      destruct (credentialsFile h) as [content|];
        [|intros N; now contradiction N].
      destruct (parseJSON content) as [creds|] eqn:J;
        [|intros N; now contradiction N].
      intros N.
      destruct (accessTokenOf_found creds N) as (fs & inner & A & B & C).
      subst creds. exists content, fs, inner.
      split; [now left|]. split; [exact J|]. split; assumption. }
    destruct (jsstring_eqb (platform h) (lit "darwin")); [|exact F].
    unfold getCredentialsFromKeychain.
    destruct (keychain h) as [out|] eqn:K; [|exact F].
    destruct (parseJSON (trim out)) as [creds|] eqn:J; [|exact F].
    intros N.
    destruct (accessTokenOf_found creds N) as (fs & inner & A & B & C).
    subst creds. exists (trim out), fs, inner.
    split; [right; now exists out|]. split; [exact J|]. split; assumption.
  - intros tok T.
    destruct (if jsstring_eqb (platform h) (lit "darwin")
              then getCredentialsFromKeychain parseJSON h
              else getCredentialsFromFile parseJSON h) as [| | |s| |];
      try discriminate T; injection T as <-; [reflexivity|].
    destruct s; reflexivity.
Qed.

Lemma lookupField_setField_same k v fields :
  lookupField k (setField k v fields) = Some v.
Proof.
  induction fields as [|[k' v'] rest IH]; cbn [setField lookupField].
  - assert (E : jsstring_eqb k k = true) by now apply jsstring_eqb_eq.
    now rewrite E.
  - destruct (jsstring_eqb k k') eqn:E; cbn [lookupField]; rewrite E;
      [reflexivity|exact IH].
Qed.

Lemma jsstring_eqb_neq a b : a <> b -> jsstring_eqb a b = false.
Proof.
  intros H. destruct (jsstring_eqb a b) eqn:E; [|reflexivity].
  apply jsstring_eqb_eq in E. contradiction.
Qed.

Lemma lookupField_setField_other k k' v fields :
  k <> k' -> lookupField k (setField k' v fields) = lookupField k fields.
Proof.
  intros N. induction fields as [|[k0 v0] rest IH]; cbn [setField lookupField].
  - now rewrite (jsstring_eqb_neq k k' N).
  - destruct (jsstring_eqb k' k0) eqn:E; cbn [lookupField].
    + apply jsstring_eqb_eq in E. subst k0.
      now rewrite (jsstring_eqb_neq k k' N).
    + destruct (jsstring_eqb k k0); [reflexivity|exact IH].
Qed.

Lemma lookupField_assignFields k props : forall base,
  NoDup (map fst props) ->
  lookupField k (assignFields base props)
  = match lookupField k props with
    | Some v => Some v
    | None => lookupField k base
    end.
Proof.
  unfold assignFields.
  induction props as [|[k' v'] rest IH]; intros base ND; [reflexivity|].
  cbn [fold_left fst snd lookupField]. cbn [map fst] in ND.
  inversion ND as [|? ? NI ND']; subst.
  rewrite (IH _ ND').
  destruct (jsstring_eqb k k') eqn:E.
  - apply jsstring_eqb_eq in E. subst k'.
    assert (L : lookupField k rest = None).
    { clear -NI. induction rest as [|[k0 v0] r IHr]; [reflexivity|].
      cbn [lookupField]. cbn [map fst In] in NI.
      rewrite jsstring_eqb_neq by (intros ->; apply NI; now left).
      apply IHr. intros I. apply NI. now right. }
    rewrite L. apply lookupField_setField_same.
  - destruct (lookupField k rest); [reflexivity|].
    apply lookupField_setField_other. intros ->.
    assert (jsstring_eqb k' k' = true) by now apply jsstring_eqb_eq. congruence.
Qed.

(** X25. The configuration. When the file cannot be read or is no JSON,
    the configuration is the three defaults (plan max, display mode
    detailed, language auto). When it holds a JSON object, every field of
    the object is in the configuration, the plan and the display mode
    have their defaults when the object has none, and the language has no
    default. The panel reads Max for the plan of the defaults and for a
    plan that is the string max, and Pro for any other. *)
Theorem loadConfig_merge
  (parseJSON : jsstring -> option JSON) (h : Host) :
  ((configFile h = None
    \/ exists content, configFile h = Some content /\ parseJSON content = None) ->
   loadConfig parseJSON h
   = JObject [ (lit "plan", JString (lit "max"));
               (lit "displayMode", JString (lit "detailed"));
               (lit "language", JString (lit "auto")) ]
   /\ planOf (loadConfig parseJSON h) = PlanMax)
  /\ (forall content fields,
        configFile h = Some content ->
        parseJSON content = Some (JObject fields) ->
        NoDup (map fst fields) ->
        (forall k,
           getProp k (loadConfig parseJSON h)
           = match lookupField k fields with
             | Some v => Some v
             | None =>
                 if jsstring_eqb k (lit "plan") then Some (JString (lit "max"))
                 else if jsstring_eqb k (lit "displayMode")
                      then Some (JString (lit "detailed"))
                      else None
             end)
        /\ (lookupField (lit "language") fields = None ->
            getProp (lit "language") (loadConfig parseJSON h) = None)
        /\ (planOf (loadConfig parseJSON h) = PlanMax <->
            lookupField (lit "plan") fields = None
            \/ lookupField (lit "plan") fields = Some (JString (lit "max")))).
Proof.
  split.
  - intros F. unfold loadConfig.
    destruct F as [C|(content & C & P)]; rewrite C; [|rewrite P];
      split; reflexivity.
  - intros content fields C P ND.
    assert (G : forall k,
           getProp k (loadConfig parseJSON h)
           = match lookupField k fields with
             | Some v => Some v
             | None =>
                 if jsstring_eqb k (lit "plan") then Some (JString (lit "max"))
                 else if jsstring_eqb k (lit "displayMode")
                      then Some (JString (lit "detailed"))
                      else None
             end).
    { intros k. unfold loadConfig. rewrite C, P. cbn [getProp spreadProps].
      rewrite (lookupField_assignFields k fields _ ND). reflexivity. }
    split; [exact G|]. split.
    + intros L. rewrite G, L. reflexivity.
    + unfold planOf. rewrite G.
      destruct (lookupField (lit "plan") fields) as [v|].
      * split.
        -- intros E. right. destruct v as [| | |s| |]; try discriminate E.
           destruct (jsstring_eqb s (lit "max")) eqn:M; [|discriminate E].
           apply jsstring_eqb_eq in M. now subst s.
        -- intros [E|E]; [discriminate E|].
           injection E as ->. reflexivity.
      * split; [now left|reflexivity].
Qed.
